(** * tsc-watch: the output-driven tracker and the hook lifecycle manager

    A shallow embedding of [src/lib/tsc-watch.js].  The module-level
    variables of the script ([firstTime], [compilationErrorSinceStart], the
    five [...Killer] variables) become fields of a [World] record that every
    handler threads through; the asynchronous functions are cut at their
    [await] points into explicit continuations ([Task]) that a scheduler
    event resumes.  The world also carries a chronological [journal] of the
    calls the script makes, so that statements about order can be written. *)

From Stdlib Require Import String List Bool Arith Lia.
Import ListNotations.
Open Scope string_scope.
Open Scope list_scope.

(** ** Data *)

(** The five hooks; one [...Killer] variable and one [runOn...] function
    exists for each of them. *)
Inductive HookKind :=
| FirstSuccess | Success | Failure | CompilationStarted | CompilationComplete.

Definition HookKind_eqb (a b : HookKind) : bool :=
  match a, b with
  | FirstSuccess, FirstSuccess | Success, Success | Failure, Failure
  | CompilationStarted, CompilationStarted
  | CompilationComplete, CompilationComplete => true
  | _, _ => false
  end.

(** The object returned by [extractArgs(process.argv)].  A command that is
    absent (or any other falsy value) is [None]. *)
Record Args := {
  onFirstSuccessCommand : option string;
  onSuccessCommand : option string;
  onFailureCommand : option string;
  onCompilationStarted : option string;
  onCompilationComplete : option string;
  maxNodeMem : option string;
  noColors : bool;
  noClear : bool;
  silent : bool;
  compiler : string;
  args : list string
}.

(** The object returned by [detectState(line)]. *)
Record DetectedState := {
  compilationStarted : bool;
  compilationError : bool;
  compilationComplete : bool;
  fileEmitted : option string
}.

(** Hook processes are named by the number under which they were spawned.
    The function returned by [run] closes over one process, so a killer is
    represented by that process's number. *)
Definition pid := nat.

Record Invocation := {
  inv_pid : pid;
  inv_kind : HookKind;
  inv_cmd : string
}.

(** A suspended asynchronous computation, named after the place where the
    script waits. *)
Inductive Task :=
| AwaitKill (k : HookKind) (handler : string) (killer : option pid)
    (* [restart] at [await kill(killer)] *)
| AwaitRestart (k : HookKind) (newKiller : pid)
    (* [runOn<K>] at [await restart(...)], once [restart] has returned *)
| ThenRun (k : HookKind) (killer : option pid)
    (* message handler: [promise.then(func)] *)
| ThenExit (promises : list (option pid)).
    (* cleanup handler: [killProcesses(true).then(() => process.exit())] *)

(** Calls made by the script, in the order they are made. *)
Inductive Effect :=
| Emit (payload : string)                       (* Signal.send(payload) *)
| RunHook (k : HookKind)                        (* runOn<K>() *)
| KillReq (p : pid)                             (* a killer is called *)
| Spawn (p : pid) (k : HookKind) (cmd : string) (* run(handler) *)
| PrintLine (colorless clearless : bool) (line : string)
| ConsoleLog (text : string) (msg : string)
| KillTsc (signal : option string)              (* tscProcess.kill(signal) *)
| Uninstall                                     (* nodeCleanup.uninstall() *)
| ProcessExit.                                  (* process.exit() *)

Record Killers := {
  firstSuccessKiller : option pid;
  successKiller : option pid;
  failureKiller : option pid;
  compilationStartedKiller : option pid;
  compilationCompleteKiller : option pid
}.

Record World := {
  firstTime : bool;
  compilationErrorSinceStart : bool;
  killers : Killers;
  procs : list Invocation;      (* hook processes that are alive *)
  nextPid : pid;
  pending : list Task;          (* suspended computations, oldest first *)
  channel : list string;        (* what process.send has been given *)
  journal : list Effect;
  cleanupInstalled : bool;
  exited : bool
}.

(** ** Field access *)

Definition getKiller (k : HookKind) (ks : Killers) : option pid :=
  match k with
  | FirstSuccess => firstSuccessKiller ks
  | Success => successKiller ks
  | Failure => failureKiller ks
  | CompilationStarted => compilationStartedKiller ks
  | CompilationComplete => compilationCompleteKiller ks
  end.

Definition setKiller (k : HookKind) (v : option pid) (ks : Killers) : Killers :=
  match k with
  | FirstSuccess =>
      Build_Killers v (successKiller ks) (failureKiller ks)
        (compilationStartedKiller ks) (compilationCompleteKiller ks)
  | Success =>
      Build_Killers (firstSuccessKiller ks) v (failureKiller ks)
        (compilationStartedKiller ks) (compilationCompleteKiller ks)
  | Failure =>
      Build_Killers (firstSuccessKiller ks) (successKiller ks) v
        (compilationStartedKiller ks) (compilationCompleteKiller ks)
  | CompilationStarted =>
      Build_Killers (firstSuccessKiller ks) (successKiller ks)
        (failureKiller ks) v (compilationCompleteKiller ks)
  | CompilationComplete =>
      Build_Killers (firstSuccessKiller ks) (successKiller ks)
        (failureKiller ks) (compilationStartedKiller ks) v
  end.

Definition Act := World -> World.

Definition andThen (a b : Act) : Act := fun w => b (a w).
Notation "a ;; b" := (andThen a b) (at level 61, right associativity).

Definition skip : Act := fun w => w.
Definition when (c : bool) (a : Act) : Act := if c then a else skip.

Definition set_firstTime (b : bool) : Act := fun w =>
  Build_World b (compilationErrorSinceStart w) (killers w) (procs w)
    (nextPid w) (pending w) (channel w) (journal w) (cleanupInstalled w)
    (exited w).

Definition set_compilationErrorSinceStart (b : bool) : Act := fun w =>
  Build_World (firstTime w) b (killers w) (procs w)
    (nextPid w) (pending w) (channel w) (journal w) (cleanupInstalled w)
    (exited w).

Definition set_killers (ks : Killers) : Act := fun w =>
  Build_World (firstTime w) (compilationErrorSinceStart w) ks (procs w)
    (nextPid w) (pending w) (channel w) (journal w) (cleanupInstalled w)
    (exited w).

Definition set_procs (ps : list Invocation) : Act := fun w =>
  Build_World (firstTime w) (compilationErrorSinceStart w) (killers w) ps
    (nextPid w) (pending w) (channel w) (journal w) (cleanupInstalled w)
    (exited w).

Definition set_nextPid (n : pid) : Act := fun w =>
  Build_World (firstTime w) (compilationErrorSinceStart w) (killers w)
    (procs w) n (pending w) (channel w) (journal w) (cleanupInstalled w)
    (exited w).

Definition set_pending (ts : list Task) : Act := fun w =>
  Build_World (firstTime w) (compilationErrorSinceStart w) (killers w)
    (procs w) (nextPid w) ts (channel w) (journal w) (cleanupInstalled w)
    (exited w).

Definition set_channel (c : list string) : Act := fun w =>
  Build_World (firstTime w) (compilationErrorSinceStart w) (killers w)
    (procs w) (nextPid w) (pending w) c (journal w) (cleanupInstalled w)
    (exited w).

Definition set_journal (j : list Effect) : Act := fun w =>
  Build_World (firstTime w) (compilationErrorSinceStart w) (killers w)
    (procs w) (nextPid w) (pending w) (channel w) j (cleanupInstalled w)
    (exited w).

Definition set_cleanupInstalled (b : bool) : Act := fun w =>
  Build_World (firstTime w) (compilationErrorSinceStart w) (killers w)
    (procs w) (nextPid w) (pending w) (channel w) (journal w) b (exited w).

Definition set_exited (b : bool) : Act := fun w =>
  Build_World (firstTime w) (compilationErrorSinceStart w) (killers w)
    (procs w) (nextPid w) (pending w) (channel w) (journal w)
    (cleanupInstalled w) b.

Definition record (e : Effect) : Act := fun w =>
  set_journal (journal w ++ [e]) w.

Definition suspend (t : Task) : Act := fun w =>
  set_pending (pending w ++ [t]) w.

(** ** The event broadcaster (lines 194-201) *)

Module Signal.

(** [send] is [process.send] when the script runs with an IPC channel
    ([ipc = true]) and the empty function otherwise. *)
Definition send (ipc : bool) (payload : string) : Act :=
  record (Emit payload) ;;
  (if ipc then fun w => set_channel (channel w ++ [payload]) w else skip).

Definition emitStarted (ipc : bool) : Act := send ipc "started".
Definition emitFirstSuccess (ipc : bool) : Act := send ipc "first_success".
Definition emitSuccess (ipc : bool) : Act := send ipc "success".
Definition emitFail (ipc : bool) : Act := send ipc "compile_errors".
Definition emitFile (ipc : bool) (path : string) : Act :=
  send ipc ("file_emitted:" ++ path)%string.

End Signal.

(** ** Hook processes *)

Definition isAlive (p : pid) (w : World) : bool :=
  existsb (fun i => Nat.eqb (inv_pid i) p) (procs w).

Definition aliveOf (k : HookKind) (w : World) : list Invocation :=
  filter (fun i => HookKind_eqb (inv_kind i) k) (procs w).

(** Modelled from the spec: [run] of [./runner], which is not among the
    sources.  The spec (section 4.3) has it spawn a new invocation of the
    command and hand back the handle with which that invocation is later
    terminated.  The kind [k] only labels the invocation. *)
Definition run (k : HookKind) (handler : string) : Act := fun w =>
  let p := nextPid w in
  (record (Spawn p k handler) ;;
   set_procs (procs w ++ [Build_Invocation p k handler]) ;;
   set_nextPid (S p)) w.

(** Modelled from the spec: calling the function that [run] returned.  It
    requests the termination of its invocation; the promise it returns
    settles once that invocation has exited (see [settled]). *)
Definition callKiller (p : pid) : Act := record (KillReq p).

(** A promise obtained from [kill] has settled when there was nothing to
    kill, or when the invocation is gone. *)
Definition settled (killer : option pid) (w : World) : bool :=
  match killer with
  | Some p => negb (isAlive p w)
  | None => true
  end.

Definition settledAll (promises : list (option pid)) (w : World) : bool :=
  forallb (fun killer => settled killer w) promises.

(** ** The script *)

Section Script.

(** [cfg] is the destructured result of [extractArgs]; [ipc] and
    [listens] are the two tests [typeof process.send === 'function'] and
    [typeof process.on === 'function']. *)
Variable cfg : Args.
Variable ipc : bool.
Variable listens : bool.

Definition command (k : HookKind) : option string :=
  match k with
  | FirstSuccess => onFirstSuccessCommand cfg
  | Success => onSuccessCommand cfg
  | Failure => onFailureCommand cfg
  | CompilationStarted => onCompilationStarted cfg
  | CompilationComplete => onCompilationComplete cfg
  end.

(** Lines 32-38. *)
Definition kill (killer : option pid) : Act :=
  match killer with
  | Some p => callKiller p
  | None => skip
  end.

(** Lines 40-43, up to the [await]: the kill is requested and the rest
    of [restart] waits for it. *)
Definition restart (k : HookKind) (killer : option pid) (handler : string)
  : Act :=
  kill killer ;; suspend (AwaitKill k handler killer).

(** Lines 55-83: the five [runOn...] functions differ only in the command
    and the variable they use.  The variable is read when [restart] is
    called, and assigned when its result arrives. *)
Definition runOn (k : HookKind) : Act :=
  record (RunHook k) ;;
  match command k with
  | Some handler => fun w => restart k (getKiller k (killers w)) handler w
  | None => skip
  end.

Definition runOnCompilationStarted : Act := runOn CompilationStarted.
Definition runOnCompilationComplete : Act := runOn CompilationComplete.
Definition runOnFailureCommand : Act := runOn Failure.
Definition runOnFirstSuccessCommand : Act := runOn FirstSuccess.
Definition runOnSuccessCommand : Act := runOn Success.

(** Lines 45-53.  [promisesOf] is the array given to [Promise.all]: where
    [killAll] is false the first element is the value [false], which is
    settled from the start. *)
Definition promisesOf (killAll : bool) (ks : Killers) : list (option pid) :=
  [ if killAll then firstSuccessKiller ks else None;
    successKiller ks;
    failureKiller ks;
    compilationStartedKiller ks;
    compilationCompleteKiller ks ].

Definition killProcesses (killAll : bool) : Act := fun w =>
  fold_left (fun w' killer => kill killer w') (promisesOf killAll (killers w)) w.

(** Lines 119-151: the body of the line handler from the point where the
    line has been classified. *)
Definition onState (state : DetectedState) : Act :=
  (fun w =>
     set_compilationErrorSinceStart
       ((negb (compilationStarted state) && compilationErrorSinceStart w)
        || compilationError state) w) ;;
  match fileEmitted state with
  | Some path => Signal.emitFile ipc path
  | None => skip
  end ;;
  when (compilationStarted state)
    (runOnCompilationStarted ;; Signal.emitStarted ipc) ;;
  when (compilationComplete state)
    (runOnCompilationComplete ;;
     fun w =>
       if compilationErrorSinceStart w then
         (Signal.emitFail ipc ;; runOnFailureCommand) w
       else
         ((fun w' =>
             if firstTime w' then
               (set_firstTime false ;;
                Signal.emitFirstSuccess ipc ;;
                runOnFirstSuccessCommand) w'
             else w') ;;
          Signal.emitSuccess ipc ;;
          runOnSuccessCommand) w).

Section Formatter.

(** The three functions of [./stdout-manipulator] that the handler
    calls on the text; that module is not among the sources. *)
Variables deleteClear manipulate : string -> string.
Variable detectState : string -> DetectedState.

(** Lines 110-152. *)
Definition onLine (input : string) : Act :=
  let input := if noClear cfg then deleteClear input else input in
  let line := manipulate input in
  when (negb (silent cfg))
    (record (PrintLine (noColors cfg) (noClear cfg) line)) ;;
  onState (detectState line).

End Formatter.

(** Lines 158-186: the [switch]. *)
Definition hookOfMessage (msg : string) : option HookKind :=
  if msg =? "run-on-compilation-started-command" then Some CompilationStarted
  else if msg =? "run-on-compilation-complete-command" then Some CompilationComplete
  else if msg =? "run-on-first-success-command" then Some FirstSuccess
  else if msg =? "run-on-failure-command" then Some Failure
  else if msg =? "run-on-success-command" then Some Success
  else None.

(** Lines 155-191. *)
Definition onMessage (msg : string) : Act :=
  match hookOfMessage msg with
  | Some k => fun w =>
      let killer := getKiller k (killers w) in
      (match killer with
       | Some p => callKiller p
       | None => skip
       end ;;
       suspend (ThenRun k killer)) w
  | None => record (ConsoleLog "Unknown message" msg)
  end.

Definition process_exit : Act := record ProcessExit ;; set_exited true.

(** Lines 203-209. *)
Definition cleanupHandler (signal : option string) : Act :=
  record (KillTsc signal) ;;
  (fun w =>
     (killProcesses true ;;
      suspend (ThenExit (promisesOf true (killers w)))) w) ;;
  record Uninstall ;;
  set_cleanupInstalled false.

(** ** The event loop *)

Inductive Event :=
| Line (state : DetectedState)   (* a classified line of compiler output *)
| Message (msg : string)         (* process 'message' *)
| Signalled (signal : string)    (* a termination signal *)
| ProcExit (p : pid)             (* a hook process exits *)
| Resume (n : nat).              (* the n-th suspended computation runs *)

Definition ready (t : Task) (w : World) : bool :=
  match t with
  | AwaitKill _ _ killer => settled killer w
  | AwaitRestart _ _ => true
  | ThenRun _ killer => settled killer w
  | ThenExit promises => settledAll promises w
  end.

(** What a suspended computation does when it is resumed, up to its next
    [await] or its end. *)
Definition resume (t : Task) : Act :=
  match t with
  | AwaitKill k handler _ => fun w =>
      (run k handler ;; suspend (AwaitRestart k (nextPid w))) w
  | AwaitRestart k newKiller => fun w =>
      set_killers (setKiller k (Some newKiller) (killers w)) w
  | ThenRun k _ => runOn k
  | ThenExit _ => process_exit
  end.

Fixpoint dropNth {A : Type} (n : nat) (l : list A) : list A :=
  match n, l with
  | _, [] => []
  | O, _ :: l' => l'
  | S n', x :: l' => x :: dropNth n' l'
  end.

(** One event.  [None] means the event cannot happen in this world: the
    script has exited, the process named is not alive, or the
    computation named is absent or still waiting.  After
    [nodeCleanup.uninstall()] a signal is no longer given to the handler
    and ends the script. *)
Definition step (w : World) (e : Event) : option World :=
  if exited w then None else
  match e with
  | Line state => Some (onState state w)
  | Message msg => Some (when listens (onMessage msg) w)
  | Signalled signal =>
      if cleanupInstalled w then Some (cleanupHandler (Some signal) w)
      else Some (set_exited true w)
  | ProcExit p =>
      if isAlive p w then
        Some (set_procs
                (filter (fun i => negb (Nat.eqb (inv_pid i) p)) (procs w)) w)
      else None
  | Resume n =>
      match nth_error (pending w) n with
      | Some t =>
          if ready t w then
            Some (resume t (set_pending (dropNth n (pending w)) w))
          else None
      | None => None
      end
  end.

Fixpoint exec (w : World) (es : list Event) : option World :=
  match es with
  | [] => Some w
  | e :: es' =>
      match step w e with
      | Some w' => exec w' es'
      | None => None
      end
  end.

(** Lines 11-16 and 104, with the cleanup handler installed (line 203). *)
Definition initial : World :=
  {| firstTime := true;
     compilationErrorSinceStart := false;
     killers := Build_Killers None None None None None;
     procs := [];
     nextPid := 0;
     pending := [];
     channel := [];
     journal := [];
     cleanupInstalled := true;
     exited := false |}.

End Script.

(** ** Start-up (lines 85-105) *)

(** [require.resolve] either returns a path or throws an error that has a
    [code] and a [message]. *)
Inductive ResolveResult :=
| Resolved (path : string)
| ResolveError (code message : string).

Inductive Outcome (A : Type) :=
| Returned (a : A)
| Exits (status : nat)                  (* process.exit(status) *)
| Throws (code message : string).       (* an exception leaves the function *)
Arguments Returned {A} a.
Arguments Exits {A} status.
Arguments Throws {A} code message.

Inductive StartupStep :=
| ConsoleError (message : string)
| SpawnNode (params : list string)
| CreateInterface
| ListenLine
| ListenMessage
| InstallCleanup.

Section Startup.

Variable resolve : string -> ResolveResult.
Variable cfg : Args.
Variable listens : bool.

(** Lines 85-102.  The steps taken are returned with the outcome. *)
Definition buildNodeParams (allArgs : list string) (maxNodeMem : option string)
  : list StartupStep * Outcome (list string) :=
  match resolve (compiler cfg) with
  | ResolveError code message =>
      if code =? "MODULE_NOT_FOUND" then ([ConsoleError message], Exits 9)
      else ([], Throws code message)
  | Resolved tscBin =>
      ([], Returned
             (match maxNodeMem with
              | Some m => [("--max_old_space_size=" ++ m)%string]
              | None => []
              end ++ [tscBin] ++ allArgs))
  end.

(** The top-level statements of the script from line 104 on, in order:
    the parameters are built, the compiler is spawned, the handlers are
    registered.  The script runs on in [initial] only if the first step
    returned. *)
Definition main : list StartupStep * Outcome World :=
  match buildNodeParams (args cfg) (maxNodeMem cfg) with
  | (steps, Returned params) =>
      (steps ++ [SpawnNode params; CreateInterface; ListenLine]
         ++ (if listens then [ListenMessage] else [])
         ++ [InstallCleanup],
       Returned initial)
  | (steps, Exits status) => (steps, Exits status)
  | (steps, Throws code message) => (steps, Throws code message)
  end.

Definition halted {A : Type} (o : Outcome A) : bool :=
  match o with
  | Returned _ => false
  | _ => true
  end.

End Startup.

(** ** Views of a run *)

(** The event messages of a journal, and the hooks it started, in order. *)
Definition events (j : list Effect) : list string :=
  flat_map (fun e => match e with Emit s => [s] | _ => [] end) j.

Definition hooks (j : list Effect) : list HookKind :=
  flat_map (fun e => match e with RunHook k => [k] | _ => [] end) j.

(** The journal restricted to what the tracker itself does: event
    messages and hook triggers. *)
Definition calls (j : list Effect) : list Effect :=
  filter (fun e => match e with Emit _ | RunHook _ => true | _ => false end) j.

Definition HookKind_dec (a b : HookKind) : {a = b} + {a <> b}.
Proof. decide equality. Defined.

Definition occ (s : string) (l : list string) : nat := count_occ string_dec l s.
Definition hookOcc (k : HookKind) (l : list HookKind) : nat :=
  count_occ HookKind_dec l k.

(** What one classified line makes the tracker do in world [w]. *)
Definition trace (cfg : Args) (ipc : bool) (state : DetectedState) (w : World)
  : list Effect :=
  calls (journal (onState cfg ipc state (set_journal [] w))).

Definition processLines (cfg : Args) (ipc : bool) (w : World)
  (lines : list DetectedState) : World :=
  fold_left (fun w' state => onState cfg ipc state w') lines w.

(** What each line of a run makes the tracker do, line by line, and the
    event messages among that. *)
Fixpoint perLineCalls (cfg : Args) (ipc : bool) (w : World)
  (lines : list DetectedState) : list (list Effect) :=
  match lines with
  | [] => []
  | state :: rest =>
      trace cfg ipc state w
        :: perLineCalls cfg ipc (onState cfg ipc state w) rest
  end.

Definition perLine (cfg : Args) (ipc : bool) (w : World)
  (lines : list DetectedState) : list (list string) :=
  map events (perLineCalls cfg ipc w lines).

(** The values present in a list of optional values, in order. *)
Definition somes {A : Type} (l : list (option A)) : list A :=
  flat_map (fun o => match o with Some a => [a] | None => [] end) l.

(** A completion that the tracker finds free of errors. *)
Definition errorFree (cfg : Args) (ipc : bool) (w : World)
  (state : DetectedState) : bool :=
  compilationComplete state
  && negb (compilationErrorSinceStart (onState cfg ipc state w)).

Fixpoint anyErrorFree (cfg : Args) (ipc : bool) (w : World)
  (lines : list DetectedState) : bool :=
  match lines with
  | [] => false
  | state :: rest =>
      errorFree cfg ipc w state
      || anyErrorFree cfg ipc (onState cfg ipc state w) rest
  end.

(** The words of the specification for the flag: the lines seen from the
    most recent start on (that line included; all of them where there has
    been no start), and whether one of them carries an error. *)
Fixpoint sinceLastStart (seen : list DetectedState) : list DetectedState :=
  match seen with
  | [] => []
  | state :: rest =>
      if existsb compilationStarted rest then sinceLastStart rest
      else state :: rest
  end.

Definition errorObservedSinceStart (seen : list DetectedState) : bool :=
  existsb compilationError (sinceLastStart seen).

(** A line that neither starts nor completes a compilation nor carries an
    error. *)
Definition unremarkable (state : DetectedState) : bool :=
  negb (compilationStarted state) && negb (compilationError state)
  && negb (compilationComplete state).

(** The five payloads of the message protocol. *)
Definition isEventMessage (s : string) : Prop :=
  s = "started" \/ s = "first_success" \/ s = "success"
  \/ s = "compile_errors" \/ exists path, s = ("file_emitted:" ++ path)%string.

(** The calls of a completion, decided by [err] with [ft] the one-shot
    guard. *)
Definition outcomeCalls (ft err : bool) : list Effect :=
  if err then [Emit "compile_errors"; RunHook Failure]
  else (if ft then [Emit "first_success"; RunHook FirstSuccess] else [])
         ++ [Emit "success"; RunHook Success].

Definition fileCalls (state : DetectedState) : list Effect :=
  match fileEmitted state with
  | Some path => [Emit ("file_emitted:" ++ path)%string]
  | None => []
  end.

Definition lineCalls (ft flag : bool) (state : DetectedState) : list Effect :=
  fileCalls state
  ++ (if compilationStarted state
      then [RunHook CompilationStarted; Emit "started"] else [])
  ++ (if compilationComplete state
      then RunHook CompilationComplete
             :: outcomeCalls ft
                  ((negb (compilationStarted state) && flag)
                   || compilationError state)
      else []).

(** ** Restarts in flight *)

Definition taskKind (t : Task) : option HookKind :=
  match t with
  | AwaitKill k _ _ | AwaitRestart k _ | ThenRun k _ => Some k
  | ThenExit _ => None
  end.

Definition isFor (k : HookKind) (t : Task) : bool :=
  match taskKind t with
  | Some k' => HookKind_eqb k' k
  | None => false
  end.

(** The suspended computations that belong to a restart of [k]. *)
Definition pendingFor (k : HookKind) (w : World) : list Task :=
  filter (isFor k) (pending w).

Definition busy (k : HookKind) (w : World) : bool :=
  existsb (isFor k) (pending w).

(** The hooks that an event of the outside world triggers: those a line
    makes the tracker run, and the one a message names. *)
Definition triggered (cfg : Args) (ipc listens : bool) (w : World) (e : Event)
  : list HookKind :=
  match e with
  | Line state => hooks (trace cfg ipc state w)
  | Message msg =>
      if listens then
        match hookOfMessage msg with
        | Some k => [k]
        | None => []
        end
      else []
  | _ => []
  end.

(** A run in which no trigger of [k] arrives while a restart of [k] is in
    flight. *)
Fixpoint serial (cfg : Args) (ipc listens : bool) (k : HookKind) (w : World)
  (es : list Event) : bool :=
  match es with
  | [] => true
  | e :: es' =>
      negb (busy k w && existsb (HookKind_eqb k) (triggered cfg ipc listens w e))
      && match step cfg ipc listens w e with
         | Some w' => serial cfg ipc listens k w' es'
         | None => true
         end
  end.

(** In a journal, no hook is asked to terminate after the compiler has
    been. *)
Fixpoint hooksKilledFirst (j : list Effect) : bool :=
  match j with
  | [] => true
  | KillTsc _ :: rest =>
      forallb (fun e => match e with KillReq _ => false | _ => true end) rest
      && hooksKilledFirst rest
  | _ :: rest => hooksKilledFirst rest
  end.

(** How often a journal has the cleanup handler terminate the compiler. *)
Definition shutdowns (j : list Effect) : nat :=
  length (filter (fun e => match e with KillTsc _ => true | _ => false end) j).


(** What the tracker can see of a world. *)
Definition view (w : World) : bool * bool * list Effect * list string :=
  (firstTime w, compilationErrorSinceStart w, calls (journal w), channel w).

(** Effects that belong to the outcome of a completion. *)
Definition isOutcome (e : Effect) : bool :=
  match e with
  | Emit s => (s =? "success") || (s =? "compile_errors") || (s =? "first_success")
  | RunHook Success | RunHook Failure | RunHook FirstSuccess
  | RunHook CompilationComplete => true
  | _ => false
  end.

(** ** The hook lifecycle manager, seen from outside *)

(** What the hook manager can see of a world. *)
Definition mgr (w : World)
  : Killers * list Invocation * pid * list Task * bool * bool :=
  (killers w, procs w, nextPid w, pending w, cleanupInstalled w, exited w).

Definition slotOf (k : HookKind) (w : World) : option pid :=
  getKiller k (killers w).

(** The computations that running the hooks [ks] in world [w] suspends:
    one per hook that has a command, each waiting for the invocation that
    the hook's variable holds in [w]. *)
Definition restarts (cfg : Args) (w : World) (ks : list HookKind) : list Task :=
  flat_map (fun k => match command cfg k with
                     | Some handler => [AwaitKill k handler (slotOf k w)]
                     | None => []
                     end) ks.

Definition killReqs (killer : option pid) : list Effect :=
  match killer with
  | Some p => [KillReq p]
  | None => []
  end.

(** [runOn k] on what the manager sees. *)
Definition addRestart (cfg : Args) (k : HookKind)
  (m : Killers * list Invocation * pid * list Task * bool * bool)
  : Killers * list Invocation * pid * list Task * bool * bool :=
  let '(ks, ps, np, pd, ci, ex) := m in
  (ks, ps, np,
   pd ++ match command cfg k with
         | Some handler => [AwaitKill k handler (getKiller k ks)]
         | None => []
         end,
   ci, ex).

(** A suspended computation of a restart of [k] that waits for a kill
    waits for the invocation that the variable of [k] holds. *)
Definition readsSlot (k : HookKind) (w : World) (t : Task) : Prop :=
  match t with
  | AwaitKill _ _ killer | ThenRun _ killer => killer = slotOf k w
  | _ => True
  end.

(** The invocation [i] is the one that the manager will reach next time:
    it is held by the variable of [k], or it is about to be stored
    there. *)
Definition owns (k : HookKind) (w : World) (i : Invocation) : Prop :=
  match pendingFor k w with
  | AwaitRestart _ p :: _ => inv_pid i = p
  | _ => slotOf k w = Some (inv_pid i)
  end.

(** The invariant of a hook whose restarts do not overlap. *)
Record Inv (k : HookKind) (w : World) : Prop := {
  inv_pending : length (pendingFor k w) <= 1;
  inv_alive : length (aliveOf k w) <= 1;
  inv_owner : forall i, In i (aliveOf k w) -> owns k w i;
  inv_reads : forall t, In t (pendingFor k w) -> readsSlot k w t
}.

(** A message that asks for the first-success hook to be run again. *)
Definition manualFirstSuccess (e : Event) : bool :=
  match e with
  | Message msg =>
      match hookOfMessage msg with
      | Some FirstSuccess => true
      | _ => false
      end
  | _ => false
  end.

Definition isManualFirstSuccess (t : Task) : bool :=
  match t with
  | ThenRun FirstSuccess _ => true
  | _ => false
  end.

(** ** Sample runs *)

(** A watcher that restarts a server after every successful compilation. *)
Definition serverArgs : Args :=
  {| onFirstSuccessCommand := None;
     onSuccessCommand := Some "node dist/server.js";
     onFailureCommand := None;
     onCompilationStarted := None;
     onCompilationComplete := None;
     maxNodeMem := None;
     noColors := false;
     noClear := false;
     silent := false;
     compiler := "typescript/bin/tsc";
     args := ["--watch"] |}.

(** "File change detected. Starting incremental compilation..." *)
Definition startLine : DetectedState :=
  {| compilationStarted := true; compilationError := false;
     compilationComplete := false; fileEmitted := None |}.

(** "src/a.ts(3,7): error TS2322: ..." *)
Definition errorLine : DetectedState :=
  {| compilationStarted := false; compilationError := true;
     compilationComplete := false; fileEmitted := None |}.

(** "Found 0 errors. Watching for file changes." *)
Definition doneLine : DetectedState :=
  {| compilationStarted := false; compilationError := false;
     compilationComplete := true; fileEmitted := None |}.

(** "TSFILE: dist/a.js" *)
Definition emitLine : DetectedState :=
  {| compilationStarted := false; compilationError := false;
     compilationComplete := false; fileEmitted := Some "dist/a.js" |}.

(** A line that carries both the start and the completion marker. *)
Definition startDoneLine : DetectedState :=
  {| compilationStarted := true; compilationError := false;
     compilationComplete := true; fileEmitted := None |}.

(** One compilation succeeds and the server is up: its restart has
    settled. *)
Definition firstRun : list Event :=
  [Line startLine; Line doneLine; Resume 0; Resume 0].

(** Two more compilations succeed while the first server is still being
    terminated; then it exits and every suspended restart runs on, oldest
    first. *)
Definition rapidRuns : list Event :=
  firstRun
    ++ [Line startLine; Line doneLine;
        Line startLine; Line doneLine;
        ProcExit 0;
        Resume 0; Resume 0; Resume 0; Resume 0].

(** The same compilations, each restart settling before the next trigger,
    followed by a manual retrigger. *)
Definition calmRuns : list Event :=
  firstRun
    ++ [Line startLine; Line doneLine; ProcExit 0; Resume 0; Resume 0;
        Message "run-on-success-command"; ProcExit 1;
        Resume 0; Resume 0; Resume 0].

(** The world a run ends in ([initial] when the run is not possible). *)
Definition worldAfter (cfg : Args) (es : list Event) : World :=
  match exec cfg true true initial es with
  | Some w => w
  | None => initial
  end.

(** [require.resolve] failing for a reason other than a missing module. *)
Definition resolveNotExported (request : string) : ResolveResult :=
  ResolveError "ERR_PACKAGE_PATH_NOT_EXPORTED"
    "Package subpath './bin/tsc' is not defined by exports".

Definition resolveMissing (request : string) : ResolveResult :=
  ResolveError "MODULE_NOT_FOUND" "Cannot find module 'typescript/bin/tsc'".

(** ** Further views of a run *)

(** A line without any marker and without a file. *)
Definition unmarked (state : DetectedState) : bool :=
  unremarkable state
  && match fileEmitted state with
     | None => true
     | Some _ => false
     end.

(** The lines a journal has printed. *)
Definition printed (j : list Effect) : list string :=
  flat_map (fun e => match e with PrintLine _ _ line => [line] | _ => [] end) j.

(** How often a journal spawns the command of [k]. *)
Definition spawnsOf (k : HookKind) (j : list Effect) : nat :=
  length (filter (fun e => match e with
                           | Spawn _ k' _ => HookKind_eqb k' k
                           | _ => false
                           end) j).

(** The restarts of [k] that wait for their kill. *)
Definition isAwaitKill (k : HookKind) (t : Task) : bool :=
  match t with
  | AwaitKill k' _ _ => HookKind_eqb k' k
  | _ => false
  end.

(** The manual retriggers of [k] that wait for their kill. *)
Definition isThenRun (k : HookKind) (t : Task) : bool :=
  match t with
  | ThenRun k' _ => HookKind_eqb k' k
  | _ => false
  end.

(** What the line handler itself writes to the journal: messages, hook
    triggers and requests to terminate. *)
Definition handlerEffect (e : Effect) : bool :=
  match e with
  | Emit _ | RunHook _ | KillReq _ => true
  | _ => false
  end.

(** The exit of the invocation a killer stands for, where it is alive. *)
Definition exitsOf (killer : option pid) (w : World) : list Event :=
  match killer with
  | Some p => if isAlive p w then [ProcExit p] else []
  | None => []
  end.

(** The processes that are left when that invocation is gone. *)
Definition reap (killer : option pid) (ps : list Invocation) : list Invocation :=
  match killer with
  | Some p => filter (fun i => negb (Nat.eqb (inv_pid i) p)) ps
  | None => ps
  end.

(** An action that only appends messages, hook triggers and requests to
    terminate to the journal. *)
Definition appends (a : Act) : Prop :=
  forall w, exists d,
    journal (a w) = journal w ++ d /\ forallb handlerEffect d = true.

(** What holds of every world a run reaches: only configured commands
    are alive or about to be spawned, and only hooks with a command are
    held by a killer variable. *)
Record Configured (cfg : Args) (w : World) : Prop := {
  cfg_alive : forall i, In i (procs w) ->
                        command cfg (inv_kind i) = Some (inv_cmd i);
  cfg_waiting : forall k h o, In (AwaitKill k h o) (pending w) ->
                              command cfg k = Some h;
  cfg_storing : forall k p, In (AwaitRestart k p) (pending w) ->
                            command cfg k <> None;
  cfg_held : forall k p, slotOf k w = Some p -> command cfg k <> None
}.

(** A list of effects without a spawn. *)
Definition noSpawn (d : list Effect) : bool :=
  forallb (fun e => match e with Spawn _ _ _ => false | _ => true end) d.

(** Every handle in use was given out by [run]: it is below the number
    the next spawn will get. *)
Record Fresh (w : World) : Prop := {
  fresh_alive : forall i, In i (procs w) -> inv_pid i < nextPid w;
  fresh_held : forall k p, slotOf k w = Some p -> p < nextPid w;
  fresh_storing : forall k p, In (AwaitRestart k p) (pending w) ->
                              p < nextPid w
}.

(** A killer that stands for [p], or whose invocation is gone. *)
Definition goneOr (p : pid) (w : World) (killer : option pid) : bool :=
  settled killer w
  || match killer with
     | Some q => Nat.eqb q p
     | None => false
     end.

(** The same world with nothing sent to a parent. *)
Definition withoutChannel (w : World) : World := set_channel [] w.

(** [b] does without a channel what [a] does with one. *)
Definition Mirrors (a b : Act) : Prop :=
  forall w, withoutChannel (a w) = b (withoutChannel w).

(** A second compilation succeeds while the server of the first is up: its
    restart waits for that server to exit. *)
Definition restartInFlight : list Event :=
  firstRun ++ [Line startLine; Line doneLine].

(** A line without markers, as the sample classifier reports a banner. *)
Definition bannerLine : DetectedState :=
  {| compilationStarted := false; compilationError := false;
     compilationComplete := false; fileEmitted := None |}.

(** * Properties *)

(** ** Elementary facts about the actions *)

Section Facts.

Variable cfg : Args.
Variable ipc : bool.

Lemma calls_app (a b : list Effect) : calls (a ++ b) = calls a ++ calls b.
Proof. apply filter_app. Qed.

Lemma events_app (a b : list Effect) : events (a ++ b) = events a ++ events b.
Proof. apply flat_map_app. Qed.

Lemma hooks_app (a b : list Effect) : hooks (a ++ b) = hooks a ++ hooks b.
Proof. apply flat_map_app. Qed.

Lemma events_calls (j : list Effect) : events (calls j) = events j.
Proof.
  unfold events, hooks, calls.
  induction j as [|e j IH]; [reflexivity|].
  destruct e; cbn; rewrite ?IH; reflexivity.
Qed.

Lemma hooks_calls (j : list Effect) : hooks (calls j) = hooks j.
Proof.
  unfold events, hooks, calls.
  induction j as [|e j IH]; [reflexivity|].
  destruct e; cbn; rewrite ?IH; reflexivity.
Qed.

Lemma view_runOn (k : HookKind) (w : World) :
  view (runOn cfg k w)
  = (firstTime w, compilationErrorSinceStart w,
     calls (journal w) ++ [RunHook k], channel w).
Proof.
  unfold view, runOn, andThen, restart, kill, callKiller, suspend, record, skip.
  destruct (command cfg k) as [h|]; cbn.
  - destruct (getKiller k (killers w)); cbn;
      rewrite ?calls_app; cbn; rewrite ?app_nil_r; reflexivity.
  - rewrite calls_app. reflexivity.
Qed.

Lemma view_send (s : string) (w : World) :
  view (Signal.send ipc s w)
  = (firstTime w, compilationErrorSinceStart w,
     calls (journal w) ++ [Emit s],
     channel w ++ (if ipc then [s] else [])).
Proof.
  unfold view, Signal.send, andThen, record, skip.
  destruct ipc; cbn; rewrite calls_app, ?app_nil_r; reflexivity.
Qed.

Lemma firstTime_runOn k w : firstTime (runOn cfg k w) = firstTime w.
Proof. pose proof (view_runOn k w) as H. unfold view in H. congruence. Qed.

Lemma flag_runOn k w :
  compilationErrorSinceStart (runOn cfg k w) = compilationErrorSinceStart w.
Proof. pose proof (view_runOn k w) as H. unfold view in H. congruence. Qed.

Lemma calls_runOn k w :
  calls (journal (runOn cfg k w)) = calls (journal w) ++ [RunHook k].
Proof. pose proof (view_runOn k w) as H. unfold view in H. congruence. Qed.

Lemma channel_runOn k w : channel (runOn cfg k w) = channel w.
Proof. pose proof (view_runOn k w) as H. unfold view in H. congruence. Qed.

Lemma firstTime_send s w : firstTime (Signal.send ipc s w) = firstTime w.
Proof. pose proof (view_send s w) as H. unfold view in H. congruence. Qed.

Lemma flag_send s w :
  compilationErrorSinceStart (Signal.send ipc s w)
  = compilationErrorSinceStart w.
Proof. pose proof (view_send s w) as H. unfold view in H. congruence. Qed.

Lemma calls_send s w :
  calls (journal (Signal.send ipc s w)) = calls (journal w) ++ [Emit s].
Proof. pose proof (view_send s w) as H. unfold view in H. congruence. Qed.

Lemma channel_send s w :
  channel (Signal.send ipc s w) = channel w ++ (if ipc then [s] else []).
Proof. pose proof (view_send s w) as H. unfold view in H. congruence. Qed.

Ltac track :=
  repeat (rewrite ?firstTime_runOn, ?flag_runOn, ?calls_runOn, ?channel_runOn,
            ?firstTime_send, ?flag_send, ?calls_send, ?channel_send;
          cbn [set_firstTime set_compilationErrorSinceStart firstTime
               compilationErrorSinceStart journal channel]).

(** The line handler, as the tracker sees it. *)
Lemma view_onState (state : DetectedState) (w : World) :
  let flag' := (negb (compilationStarted state) && compilationErrorSinceStart w)
               || compilationError state in
  let d := lineCalls (firstTime w) (compilationErrorSinceStart w) state in
  view (onState cfg ipc state w)
  = (firstTime w && negb (compilationComplete state && negb flag'),
     flag',
     calls (journal w) ++ d,
     channel w ++ (if ipc then events d else [])).
Proof.
  destruct state as [s e c f].
  unfold onState, andThen, when, skip, runOnCompilationStarted,
    runOnCompilationComplete, runOnFailureCommand, runOnFirstSuccessCommand,
    runOnSuccessCommand, Signal.emitFile, Signal.emitStarted, Signal.emitFail,
    Signal.emitFirstSuccess, Signal.emitSuccess, lineCalls, fileCalls,
    outcomeCalls, view.
  cbn [compilationStarted compilationError compilationComplete fileEmitted].
  destruct (firstTime w) eqn:Eft, (compilationErrorSinceStart w) eqn:Efl,
    s, e, c, f as [path|]; cbn [negb andb orb]; track;
    rewrite ?Eft, ?Efl; cbn [negb andb orb]; track; rewrite ?Eft, ?Efl;
    destruct ipc; cbn; rewrite <- ?app_assoc, ?app_nil_r; reflexivity.
Qed.

Lemma mgr_runOn (k : HookKind) (w : World) :
  mgr (runOn cfg k w)
  = (killers w, procs w, nextPid w, pending w ++ restarts cfg w [k],
     cleanupInstalled w, exited w).
Proof.
  unfold mgr, runOn, andThen, restart, kill, callKiller, suspend, record, skip,
    restarts, slotOf.
  cbn [flat_map]. destruct (command cfg k) as [h|]; cbn.
  - destruct (getKiller k (killers w)); reflexivity.
  - rewrite app_nil_r. reflexivity.
Qed.

Lemma journal_runOn (k : HookKind) (w : World) :
  journal (runOn cfg k w)
  = journal w ++ RunHook k
      :: match command cfg k with
         | Some _ => killReqs (slotOf k w)
         | None => []
         end.
Proof.
  unfold runOn, andThen, restart, kill, callKiller, suspend, record, skip,
    slotOf, killReqs.
  destruct (command cfg k) as [h|]; cbn; [|reflexivity].
  destruct (getKiller k (killers w)); cbn; rewrite <- ?app_assoc; reflexivity.
Qed.

Lemma mgr_send (s : string) (w : World) : mgr (Signal.send ipc s w) = mgr w.
Proof.
  unfold mgr, Signal.send, andThen, record, skip. destruct ipc; reflexivity.
Qed.

Lemma mgr_runOn_addRestart (k : HookKind) (w : World) :
  mgr (runOn cfg k w) = addRestart cfg k (mgr w).
Proof.
  rewrite mgr_runOn. unfold addRestart, mgr, restarts, slotOf. cbn [flat_map].
  rewrite app_nil_r. reflexivity.
Qed.

Lemma mgr_set_firstTime (b : bool) (w : World) : mgr (set_firstTime b w) = mgr w.
Proof. reflexivity. Qed.

Lemma mgr_set_flag (b : bool) (w : World) :
  mgr (set_compilationErrorSinceStart b w) = mgr w.
Proof. reflexivity. Qed.

Ltac resolve_tests :=
  repeat (rewrite ?firstTime_runOn, ?flag_runOn, ?firstTime_send, ?flag_send;
          cbn [set_firstTime set_compilationErrorSinceStart firstTime
               compilationErrorSinceStart]).

(** The line handler, as the hook manager sees it: nothing but new
    suspended restarts, one for each hook the line runs. *)
Lemma mgr_onState_lineCalls (state : DetectedState) (w : World) :
  mgr (onState cfg ipc state w)
  = (killers w, procs w, nextPid w,
     pending w
       ++ restarts cfg w
            (hooks (lineCalls (firstTime w) (compilationErrorSinceStart w) state)),
     cleanupInstalled w, exited w).
Proof.
  destruct state as [s e c f].
  unfold onState, andThen, when, skip, runOnCompilationStarted,
    runOnCompilationComplete, runOnFailureCommand, runOnFirstSuccessCommand,
    runOnSuccessCommand, Signal.emitFile, Signal.emitStarted, Signal.emitFail,
    Signal.emitFirstSuccess, Signal.emitSuccess, lineCalls, fileCalls,
    outcomeCalls.
  cbn [compilationStarted compilationError compilationComplete fileEmitted].
  destruct (firstTime w) eqn:Eft, (compilationErrorSinceStart w) eqn:Efl,
    s, e, c, f as [path|]; cbn [negb andb orb]; resolve_tests;
    rewrite ?Eft, ?Efl; cbn [negb andb orb]; resolve_tests; rewrite ?Eft, ?Efl;
    cbn [negb andb orb];
    repeat first [rewrite mgr_runOn_addRestart | rewrite mgr_send
                 | rewrite mgr_set_firstTime | rewrite mgr_set_flag];
    unfold addRestart, mgr, restarts, slotOf; cbn;
    rewrite <- ?app_assoc, ?app_nil_r; reflexivity.
Qed.

Lemma shutdowns_app (a b : list Effect) :
  shutdowns (a ++ b) = shutdowns a + shutdowns b.
Proof. unfold shutdowns. rewrite filter_app. apply length_app. Qed.

Lemma shutdowns_killReqs (promises : list (option pid)) :
  shutdowns (flat_map killReqs promises) = 0.
Proof.
  induction promises as [|[p|] r IH]; cbn; [reflexivity| exact IH | exact IH].
Qed.

Lemma shutdowns_runOn (k : HookKind) (w : World) :
  shutdowns (journal (runOn cfg k w)) = shutdowns (journal w).
Proof.
  rewrite journal_runOn, shutdowns_app.
  destruct (command cfg k); [destruct (slotOf k w)|]; cbn; lia.
Qed.

Lemma shutdowns_send (s : string) (w : World) :
  shutdowns (journal (Signal.send ipc s w)) = shutdowns (journal w).
Proof.
  unfold Signal.send, andThen, record, skip.
  destruct ipc; cbn [journal set_journal set_channel];
    rewrite shutdowns_app; cbn; lia.
Qed.

Lemma shutdowns_set_firstTime (b : bool) (w : World) :
  shutdowns (journal (set_firstTime b w)) = shutdowns (journal w).
Proof. reflexivity. Qed.

Lemma shutdowns_set_flag (b : bool) (w : World) :
  shutdowns (journal (set_compilationErrorSinceStart b w))
  = shutdowns (journal w).
Proof. reflexivity. Qed.

Lemma shutdowns_onState (state : DetectedState) (w : World) :
  shutdowns (journal (onState cfg ipc state w)) = shutdowns (journal w).
Proof.
  destruct state as [s e c f].
  unfold onState, andThen, when, skip, runOnCompilationStarted,
    runOnCompilationComplete, runOnFailureCommand, runOnFirstSuccessCommand,
    runOnSuccessCommand, Signal.emitFile, Signal.emitStarted, Signal.emitFail,
    Signal.emitFirstSuccess, Signal.emitSuccess.
  cbn [compilationStarted compilationError compilationComplete fileEmitted].
  destruct (firstTime w) eqn:Eft, (compilationErrorSinceStart w) eqn:Efl,
    s, e, c, f as [path|]; cbn [negb andb orb]; resolve_tests;
    rewrite ?Eft, ?Efl; cbn [negb andb orb]; resolve_tests; rewrite ?Eft, ?Efl;
    cbn [negb andb orb];
    repeat first [rewrite shutdowns_runOn | rewrite shutdowns_send
                 | rewrite shutdowns_set_firstTime | rewrite shutdowns_set_flag];
    reflexivity.
Qed.

End Facts.

(** ** The compilation state tracker *)

Section Tracker.

Variable cfg : Args.
Variable ipc : bool.

Lemma trace_lineCalls (state : DetectedState) (w : World) :
  trace cfg ipc state w
  = lineCalls (firstTime w) (compilationErrorSinceStart w) state.
Proof.
  unfold trace.
  pose proof (view_onState cfg ipc state (set_journal [] w)) as H.
  unfold view in H. cbn in H. congruence.
Qed.

Lemma flag_onState (state : DetectedState) (w : World) :
  compilationErrorSinceStart (onState cfg ipc state w)
  = (negb (compilationStarted state) && compilationErrorSinceStart w)
    || compilationError state.
Proof.
  pose proof (view_onState cfg ipc state w) as H.
  unfold view in H. cbn in H. congruence.
Qed.

Lemma firstTime_onState (state : DetectedState) (w : World) :
  firstTime (onState cfg ipc state w)
  = firstTime w && negb (errorFree cfg ipc w state).
Proof.
  unfold errorFree. rewrite flag_onState.
  pose proof (view_onState cfg ipc state w) as H.
  unfold view in H. cbn in H. congruence.
Qed.

Lemma calls_onState (state : DetectedState) (w : World) :
  calls (journal (onState cfg ipc state w))
  = calls (journal w) ++ trace cfg ipc state w.
Proof.
  rewrite trace_lineCalls.
  pose proof (view_onState cfg ipc state w) as H.
  unfold view in H. cbn in H. congruence.
Qed.

Lemma channel_onState (state : DetectedState) (w : World) :
  channel (onState cfg ipc state w)
  = channel w ++ (if ipc then events (trace cfg ipc state w) else []).
Proof.
  rewrite trace_lineCalls.
  pose proof (view_onState cfg ipc state w) as H.
  unfold view in H. cbn in H. congruence.
Qed.

(** The line handler, as the hook manager sees it: nothing but new
    suspended restarts, one for each hook the line runs. *)
Lemma mgr_onState (state : DetectedState) (w : World) :
  mgr (onState cfg ipc state w)
  = (killers w, procs w, nextPid w,
     pending w ++ restarts cfg w (hooks (trace cfg ipc state w)),
     cleanupInstalled w, exited w).
Proof. rewrite trace_lineCalls. apply mgr_onState_lineCalls. Qed.

Lemma occ_cons (s x : string) (l : list string) :
  occ s (x :: l) = (if x =? s then 1 else 0) + occ s l.
Proof.
  unfold occ. cbn. destruct (string_dec x s) as [E|E].
  - subst. rewrite String.eqb_refl. reflexivity.
  - apply String.eqb_neq in E. rewrite E. reflexivity.
Qed.

Lemma occ_nil (s : string) : occ s [] = 0.
Proof. reflexivity. Qed.

Ltac count :=
  unfold hookOcc; cbn [events hooks flat_map app count_occ];
  repeat (rewrite occ_cons; cbn [String.eqb Ascii.eqb Bool.eqb]);
  rewrite ?occ_nil; cbn.

(** What a line classified as a completion makes the tracker do. *)
Lemma completion_on_line (state : DetectedState) (w : World) :
  compilationComplete state = true ->
  let t := trace cfg ipc state w in
  exists before outcome,
    t = before ++ RunHook CompilationComplete :: outcome
    /\ forallb (fun e => negb (isOutcome e)) before = true
    /\ hookOcc CompilationComplete (hooks t) = 1
    /\ if compilationErrorSinceStart (onState cfg ipc state w) then
         outcome = [Emit "compile_errors"; RunHook Failure]
         /\ occ "compile_errors" (events t) = 1
         /\ hookOcc Failure (hooks t) = 1
         /\ occ "success" (events t) = 0
         /\ hookOcc Success (hooks t) = 0
       else
         (outcome = [Emit "success"; RunHook Success]
          \/ outcome = [Emit "first_success"; RunHook FirstSuccess;
                        Emit "success"; RunHook Success])
         /\ occ "success" (events t) = 1
         /\ hookOcc Success (hooks t) = 1
         /\ occ "compile_errors" (events t) = 0
         /\ hookOcc Failure (hooks t) = 0.
Proof.
  intros Hc t. subst t. rewrite trace_lineCalls, flag_onState.
  destruct state as [s e c f]. cbn in Hc. subst c.
  unfold lineCalls, fileCalls, outcomeCalls.
  cbn [compilationStarted compilationError compilationComplete fileEmitted].
  exists ((match f with
           | Some path => [Emit ("file_emitted:" ++ path)%string]
           | None => []
           end)
          ++ (if s then [RunHook CompilationStarted; Emit "started"] else [])).
  eexists. split; [rewrite <- app_assoc; reflexivity|].
  destruct (firstTime w), (compilationErrorSinceStart w), s, e, f as [path|];
    cbn [negb andb orb app forallb isOutcome String.eqb Ascii.eqb Bool.eqb];
    (split; [reflexivity|]); (split; [count; reflexivity|]);
    repeat split; try (count; reflexivity); auto.
Qed.

Lemma flag_processLines (lines : list DetectedState) (w : World) :
  compilationErrorSinceStart (processLines cfg ipc w lines)
  = if existsb compilationStarted lines then errorObservedSinceStart lines
    else compilationErrorSinceStart w || existsb compilationError lines.
Proof.
  revert w. induction lines as [|state rest IH]; intros w.
  - cbn. rewrite orb_false_r. reflexivity.
  - change (processLines cfg ipc w (state :: rest))
      with (processLines cfg ipc (onState cfg ipc state w) rest).
    rewrite IH, flag_onState. unfold errorObservedSinceStart.
    cbn [existsb sinceLastStart].
    destruct (existsb compilationStarted rest).
    + rewrite orb_true_r. reflexivity.
    + rewrite orb_false_r. cbn [existsb].
      destruct (compilationStarted state), (compilationErrorSinceStart w),
        (compilationError state); reflexivity.
Qed.

(** C2.  After any prefix of the lines, the flag is set exactly when a line
    carrying an error has been seen since the most recent start line, that
    line included.  A start line sets the flag to its own error marker, and
    a line that is no start never clears the flag. *)
Theorem flag_is_error_since_last_start (lines : list DetectedState) (n : nat) :
  compilationErrorSinceStart (processLines cfg ipc initial (firstn n lines))
  = errorObservedSinceStart (firstn n lines)
  /\ (forall state w,
        compilationStarted state = true ->
        compilationErrorSinceStart (onState cfg ipc state w)
        = compilationError state)
  /\ (forall state w,
        compilationStarted state = false ->
        compilationErrorSinceStart w = true ->
        compilationErrorSinceStart (onState cfg ipc state w) = true).
Proof.
  split; [|split].
  - rewrite flag_processLines. unfold errorObservedSinceStart.
    destruct (existsb compilationStarted (firstn n lines)) eqn:E;
      [reflexivity|].
    cbn [initial compilationErrorSinceStart orb].
    assert (H : forall l, existsb compilationStarted l = false ->
                          sinceLastStart l = l).
    { intros l. destruct l as [|x r]; [reflexivity|].
      cbn [existsb sinceLastStart]. intros Hx.
      apply orb_false_elim in Hx as [_ Hr]. rewrite Hr. reflexivity. }
    rewrite (H _ E). reflexivity.
  - intros state w Hs. rewrite flag_onState, Hs. reflexivity.
  - intros state w Hs Hf. rewrite flag_onState, Hs, Hf. reflexivity.
Qed.

Lemma occ_app (s : string) (a b : list string) :
  occ s (a ++ b) = occ s a + occ s b.
Proof. apply count_occ_app. Qed.

Lemma hookOcc_app (k : HookKind) (a b : list HookKind) :
  hookOcc k (a ++ b) = hookOcc k a + hookOcc k b.
Proof. apply count_occ_app. Qed.

Lemma processLines_cons (state : DetectedState) (rest : list DetectedState)
  (w : World) :
  processLines cfg ipc w (state :: rest)
  = processLines cfg ipc (onState cfg ipc state w) rest.
Proof. reflexivity. Qed.

Lemma processLines_app (a b : list DetectedState) (w : World) :
  processLines cfg ipc w (a ++ b)
  = processLines cfg ipc (processLines cfg ipc w a) b.
Proof. apply fold_left_app. Qed.

Lemma calls_processLines (lines : list DetectedState) (w : World) :
  calls (journal (processLines cfg ipc w lines))
  = calls (journal w) ++ concat (perLineCalls cfg ipc w lines).
Proof.
  revert w. induction lines as [|state rest IH]; intros w.
  - cbn. rewrite app_nil_r. reflexivity.
  - rewrite processLines_cons, IH, calls_onState.
    cbn [perLineCalls concat]. rewrite app_assoc. reflexivity.
Qed.

Lemma firstTime_processLines (lines : list DetectedState) (w : World) :
  firstTime (processLines cfg ipc w lines)
  = firstTime w && negb (anyErrorFree cfg ipc w lines).
Proof.
  revert w. induction lines as [|state rest IH]; intros w.
  - cbn. rewrite andb_true_r. reflexivity.
  - rewrite processLines_cons, IH, firstTime_onState.
    cbn [anyErrorFree]. rewrite negb_orb, andb_assoc. reflexivity.
Qed.

(** How often one line sends each outcome message and runs each outcome
    hook. *)
Lemma outcome_counts (state : DetectedState) (w : World) :
  let t := trace cfg ipc state w in
  let good := errorFree cfg ipc w state in
  let first := firstTime w && good in
  occ "first_success" (events t) = (if first then 1 else 0)
  /\ hookOcc FirstSuccess (hooks t) = (if first then 1 else 0)
  /\ occ "success" (events t) = (if good then 1 else 0)
  /\ hookOcc Success (hooks t) = (if good then 1 else 0).
Proof.
  cbv zeta. unfold errorFree. rewrite trace_lineCalls, flag_onState.
  destruct state as [s e c f].
  unfold lineCalls, fileCalls, outcomeCalls.
  cbn [compilationStarted compilationError compilationComplete fileEmitted].
  destruct (firstTime w), (compilationErrorSinceStart w), s, e, c, f as [path|];
    cbn [negb andb orb app]; repeat split; count; reflexivity.
Qed.

Lemma perLineCalls_app (a b : list DetectedState) (w : World) :
  perLineCalls cfg ipc w (a ++ b)
  = perLineCalls cfg ipc w a
      ++ perLineCalls cfg ipc (processLines cfg ipc w a) b.
Proof.
  revert w. induction a as [|state rest IH]; intros w; [reflexivity|].
  cbn [app perLineCalls]. rewrite IH, processLines_cons. reflexivity.
Qed.

(** Lines that complete nothing send no outcome message and run no
    outcome hook. *)
Lemma no_outcome_before_completion (body : list DetectedState) (w : World) :
  forallb (fun s => negb (compilationComplete s)) body = true ->
  let done := concat (perLineCalls cfg ipc w body) in
  occ "success" (events done) = 0
  /\ occ "compile_errors" (events done) = 0
  /\ hookOcc Success (hooks done) = 0
  /\ hookOcc Failure (hooks done) = 0
  /\ hookOcc CompilationComplete (hooks done) = 0.
Proof.
  cbv zeta. revert w. induction body as [|state rest IH]; intros w H.
  - repeat split; reflexivity.
  - cbn [forallb] in H. apply andb_true_iff in H as [Hs Hrest].
    apply negb_true_iff in Hs.
    destruct (IH (onState cfg ipc state w) Hrest) as (I1 & I2 & I3 & I4 & I5).
    cbn [perLineCalls concat].
    rewrite events_app, hooks_app, !occ_app, !hookOcc_app, I1, I2, I3, I4, I5.
    rewrite trace_lineCalls. destruct state as [s e c f]. cbn in Hs. subst c.
    unfold lineCalls, fileCalls.
    cbn [compilationStarted compilationError compilationComplete fileEmitted].
    destruct s, f as [path|]; cbn [app]; repeat split; count; reflexivity.
Qed.

(** C1.  A completion closes its run (the lines since the previous
    completion) with exactly one outcome.  On the completing line the
    compilationComplete hook is run first.  Then, when the error flag is
    set, [compile_errors] is sent and the failure hook is run; over the run
    that is one [compile_errors] message and one failure restart, no
    [success] message and no success restart.  Otherwise [success] is sent
    and the success hook is run: one [success] message and one success
    restart over the run, no [compile_errors] message and no failure
    restart.  Each hook that is run and has a command leaves one restart
    suspended. *)
Theorem completion_has_one_outcome (body : list DetectedState)
  (state : DetectedState) (w : World) :
  forallb (fun s => negb (compilationComplete s)) body = true ->
  compilationComplete state = true ->
  let w1 := processLines cfg ipc w body in
  let t := trace cfg ipc state w1 in
  let run := concat (perLineCalls cfg ipc w (body ++ [state])) in
  exists before outcome,
    t = before ++ RunHook CompilationComplete :: outcome
    /\ forallb (fun e => negb (isOutcome e)) before = true
    /\ pending (onState cfg ipc state w1)
       = pending w1 ++ restarts cfg w1 (hooks t)
    /\ hookOcc CompilationComplete (hooks run) = 1
    /\ if compilationErrorSinceStart (onState cfg ipc state w1) then
         outcome = [Emit "compile_errors"; RunHook Failure]
         /\ occ "compile_errors" (events run) = 1
         /\ hookOcc Failure (hooks run) = 1
         /\ occ "success" (events run) = 0
         /\ hookOcc Success (hooks run) = 0
       else
         (outcome = [Emit "success"; RunHook Success]
          \/ outcome = [Emit "first_success"; RunHook FirstSuccess;
                        Emit "success"; RunHook Success])
         /\ occ "success" (events run) = 1
         /\ hookOcc Success (hooks run) = 1
         /\ occ "compile_errors" (events run) = 0
         /\ hookOcc Failure (hooks run) = 0.
Proof.
  intros Hbody Hc w1 t run.
  destruct (completion_on_line state w1 Hc)
    as (before & outcome & Ht & Hbefore & Hcc & Hout).
  fold t in Ht, Hcc, Hout.
  destruct (no_outcome_before_completion body w Hbody)
    as (B1 & B2 & B3 & B4 & B5).
  assert (Hrun : run = concat (perLineCalls cfg ipc w body) ++ t).
  { unfold run. rewrite perLineCalls_app, concat_app. cbn [perLineCalls concat].
    rewrite app_nil_r. reflexivity. }
  exists before, outcome. split; [exact Ht|]. split; [exact Hbefore|].
  split.
  { pose proof (mgr_onState state w1) as H.
    exact (f_equal (fun m => snd (fst (fst m))) H). }
  rewrite Hrun, events_app, hooks_app, !occ_app, !hookOcc_app,
    B1, B2, B3, B4, B5.
  cbn [Nat.add]. split; [exact Hcc|exact Hout].
Qed.

(** Over a sequence of lines: [first_success] and its hook at most once,
    at the first completion found free of errors. *)
Lemma first_success_over_lines (lines : list DetectedState) :
  let j := journal (processLines cfg ipc initial lines) in
  occ "first_success" (events j) <= 1
  /\ hookOcc FirstSuccess (hooks j) <= 1
  /\ forall before state after,
       lines = before ++ state :: after ->
       let w := processLines cfg ipc initial before in
       let t := trace cfg ipc state w in
       errorFree cfg ipc w state = true ->
       occ "success" (events t) = 1
       /\ hookOcc Success (hooks t) = 1
       /\ if anyErrorFree cfg ipc initial before then
            occ "first_success" (events t) = 0
            /\ hookOcc FirstSuccess (hooks t) = 0
          else
            occ "first_success" (events t) = 1
            /\ hookOcc FirstSuccess (hooks t) = 1.
Proof.
  cbv zeta.
  assert (G : forall l w,
             occ "first_success" (events (concat (perLineCalls cfg ipc w l)))
             <= (if firstTime w then 1 else 0)
             /\ hookOcc FirstSuccess (hooks (concat (perLineCalls cfg ipc w l)))
               <= (if firstTime w then 1 else 0)).
  { induction l as [|state rest IH]; intros w.
    - cbn. split; lia.
    - cbn [perLineCalls concat].
      rewrite events_app, hooks_app, occ_app, hookOcc_app.
      destruct (outcome_counts state w) as (E1 & E2 & _ & _).
      rewrite E1, E2.
      specialize (IH (onState cfg ipc state w)).
      rewrite firstTime_onState in IH.
      destruct (firstTime w), (errorFree cfg ipc w state);
        cbn [andb negb] in *; lia. }
  split; [|split].
  - rewrite <- events_calls, calls_processLines. cbn [initial journal calls filter app].
    apply (G lines initial).
  - rewrite <- hooks_calls, calls_processLines. cbn [initial journal calls filter app].
    apply (G lines initial).
  - intros before state after _ Hgood.
    destruct (outcome_counts state (processLines cfg ipc initial before))
      as (E1 & E2 & E3 & E4).
    rewrite E1, E2, E3, E4, Hgood, firstTime_processLines.
    cbn [initial firstTime andb].
    destruct (anyErrorFree cfg ipc initial before); cbn; auto.
Qed.

Lemma unremarkable_lines_keep_state (noise : list DetectedState) (w : World) :
  forallb unremarkable noise = true ->
  compilationErrorSinceStart (processLines cfg ipc w noise)
  = compilationErrorSinceStart w
  /\ firstTime (processLines cfg ipc w noise) = firstTime w.
Proof.
  revert w. induction noise as [|state rest IH]; intros w H.
  - split; reflexivity.
  - cbn [forallb] in H. apply andb_true_iff in H as [Hs Hrest].
    rewrite processLines_cons.
    destruct (IH (onState cfg ipc state w) Hrest) as [E1 E2].
    rewrite E1, E2, firstTime_onState. unfold errorFree.
    rewrite flag_onState. unfold unremarkable in Hs.
    destruct (compilationStarted state), (compilationError state),
      (compilationComplete state); try discriminate Hs.
    cbn. rewrite orb_false_r, andb_true_r. split; reflexivity.
Qed.

(** C5.  A completion on a line that is no start is handled as any
    completion, decided by the flag as it stands (with the line's own error
    marker added): the compilationComplete hook, then failure or success.
    From the initial state, after lines that carry no marker, such a
    completion without an error sends [first_success] and [success] and
    runs the success hooks; it is neither dropped nor a failure. *)
Theorem completion_without_start (state : DetectedState) (w : World) :
  compilationComplete state = true ->
  compilationStarted state = false ->
  let err := compilationErrorSinceStart w || compilationError state in
  compilationErrorSinceStart (onState cfg ipc state w) = err
  /\ trace cfg ipc state w
     = fileCalls state
         ++ RunHook CompilationComplete
         :: (if err then [Emit "compile_errors"; RunHook Failure]
             else (if firstTime w
                   then [Emit "first_success"; RunHook FirstSuccess] else [])
                  ++ [Emit "success"; RunHook Success])
  /\ forall noise,
       forallb unremarkable noise = true ->
       compilationError state = false ->
       let w0 := processLines cfg ipc initial noise in
       events (trace cfg ipc state w0)
       = events (fileCalls state) ++ ["first_success"; "success"]
       /\ hooks (trace cfg ipc state w0)
         = [CompilationComplete; FirstSuccess; Success].
Proof.
  intros Hc Hs err. subst err.
  rewrite flag_onState, Hs. cbn [negb andb].
  split; [reflexivity|]. split.
  - rewrite trace_lineCalls. unfold lineCalls, outcomeCalls.
    rewrite Hc, Hs. cbn [negb andb app]. reflexivity.
  - intros noise Hn He. cbv zeta.
    destruct (unremarkable_lines_keep_state noise initial Hn) as [E1 E2].
    rewrite trace_lineCalls, E1, E2. unfold lineCalls, outcomeCalls.
    rewrite Hc, Hs, He. cbn [initial firstTime compilationErrorSinceStart
                               negb andb orb app].
    rewrite events_app, hooks_app. unfold fileCalls.
    destruct (fileEmitted state); split; reflexivity.
Qed.

Lemma concat_at_most_one (l : list (list string)) :
  Forall (fun evs => length evs <= 1) l ->
  concat l = somes (map (@hd_error string) l).
Proof.
  induction 1 as [|evs rest Hlen _ IH]; [reflexivity|].
  cbn [concat map somes flat_map]. fold (somes (map (@hd_error string) rest)).
  rewrite IH. destruct evs as [|e [|e' evs]]; cbn in *; try reflexivity; lia.
Qed.

Lemma events_concat (l : list (list Effect)) :
  events (concat l) = concat (map events l).
Proof.
  induction l as [|x l IH]; [reflexivity|].
  cbn [concat map]. rewrite events_app, IH. reflexivity.
Qed.

Lemma channel_processLines (lines : list DetectedState) (w : World) :
  channel (processLines cfg ipc w lines)
  = channel w ++ (if ipc then concat (perLine cfg ipc w lines) else []).
Proof.
  unfold perLine. revert w. induction lines as [|state rest IH]; intros w.
  - cbn. destruct ipc; rewrite app_nil_r; reflexivity.
  - rewrite processLines_cons, IH, channel_onState. cbn [perLineCalls map concat].
    destruct ipc; rewrite <- app_assoc; reflexivity.
Qed.

(** C7.  When every line of a run produces at most one event message, the
    messages sent are the messages of the lines that produce one, in the
    order of the lines: nothing is reordered, merged or dropped, and a line
    without a message contributes nothing. *)
Theorem events_follow_line_order (lines : list DetectedState) (w : World) :
  Forall (fun evs => length evs <= 1) (perLine cfg ipc w lines) ->
  let emitted := somes (map (@hd_error string) (perLine cfg ipc w lines)) in
  events (journal (processLines cfg ipc w lines)) = events (journal w) ++ emitted
  /\ channel (processLines cfg ipc w lines)
     = channel w ++ (if ipc then emitted else []).
Proof.
  intros H emitted. subst emitted.
  rewrite <- (concat_at_most_one _ H). split.
  - rewrite <- events_calls, calls_processLines, events_app, events_calls,
      events_concat. reflexivity.
  - apply channel_processLines.
Qed.

(** C10.  On a line that both starts and completes a compilation the flag
    becomes the line's own error marker, the start is handled first
    (compilationStarted hook, [started]) and the completion is then decided
    by that marker alone: a flag left set by the previous run does not make
    the line a failure. *)
Theorem start_and_completion_on_one_line (state : DetectedState) (w : World) :
  compilationStarted state = true ->
  compilationComplete state = true ->
  let t := trace cfg ipc state w in
  compilationErrorSinceStart (onState cfg ipc state w) = compilationError state
  /\ t = fileCalls state
         ++ [RunHook CompilationStarted; Emit "started";
             RunHook CompilationComplete]
         ++ (if compilationError state
             then [Emit "compile_errors"; RunHook Failure]
             else (if firstTime w
                   then [Emit "first_success"; RunHook FirstSuccess] else [])
                  ++ [Emit "success"; RunHook Success])
  /\ (compilationError state = false ->
      occ "compile_errors" (events t) = 0
      /\ hookOcc Failure (hooks t) = 0
      /\ occ "success" (events t) = 1
      /\ hookOcc Success (hooks t) = 1).
Proof.
  intros Hs Hc t. subst t.
  rewrite flag_onState, trace_lineCalls, Hs. cbn [negb andb orb].
  split; [reflexivity|].
  unfold lineCalls, outcomeCalls, fileCalls. rewrite Hs, Hc.
  cbn [negb andb orb]. split; [reflexivity|].
  intros He. rewrite He.
  destruct (fileEmitted state), (firstTime w); cbn [app];
    repeat split; count; reflexivity.
Qed.

End Tracker.

(** ** The hook lifecycle manager *)

Section Manager.

Variable cfg : Args.
Variable ipc : bool.
Variable listens : bool.

Lemma mgr_onMessage (msg : string) (w : World) :
  mgr (onMessage msg w)
  = (killers w, procs w, nextPid w,
     pending w ++ match hookOfMessage msg with
                  | Some k => [ThenRun k (slotOf k w)]
                  | None => []
                  end,
     cleanupInstalled w, exited w).
Proof.
  unfold mgr, onMessage, andThen, callKiller, suspend, record, skip, slotOf.
  destruct (hookOfMessage msg) as [k|]; cbn.
  - destruct (getKiller k (killers w)); reflexivity.
  - rewrite app_nil_r. reflexivity.
Qed.

Lemma view_onMessage (msg : string) (w : World) :
  events (journal (onMessage msg w)) = events (journal w)
  /\ channel (onMessage msg w) = channel w.
Proof.
  unfold onMessage, andThen, callKiller, suspend, record, skip.
  destruct (hookOfMessage msg) as [k|]; cbn.
  - destruct (getKiller k (killers w)); cbn; rewrite ?events_app; cbn;
      rewrite ?app_nil_r; split; reflexivity.
  - rewrite events_app, app_nil_r. split; reflexivity.
Qed.

Lemma journal_cleanupHandler (signal : option string) (w : World) :
  journal (cleanupHandler signal w)
  = journal w
      ++ KillTsc signal
      :: flat_map killReqs (promisesOf true (killers w)) ++ [Uninstall].
Proof.
  destruct w as [ft fl [a b c d e] ps np pd ch j ci ex].
  destruct a, b, c, d, e; cbn; rewrite <- ?app_assoc; reflexivity.
Qed.

Lemma mgr_cleanupHandler (signal : option string) (w : World) :
  mgr (cleanupHandler signal w)
  = (killers w, procs w, nextPid w,
     pending w ++ [ThenExit (promisesOf true (killers w))],
     false, exited w).
Proof.
  destruct w as [ft fl [a b c d e] ps np pd ch j ci ex].
  destruct a, b, c, d, e; reflexivity.
Qed.

Lemma channel_cleanupHandler (signal : option string) (w : World) :
  channel (cleanupHandler signal w) = channel w.
Proof.
  destruct w as [ft fl [a b c d e] ps np pd ch j ci ex].
  destruct a, b, c, d, e; reflexivity.
Qed.

Lemma mgr_resume (t : Task) (w : World) :
  mgr (resume cfg t w)
  = match t with
    | AwaitKill k handler _ =>
        (killers w, procs w ++ [Build_Invocation (nextPid w) k handler],
         S (nextPid w), pending w ++ [AwaitRestart k (nextPid w)],
         cleanupInstalled w, exited w)
    | AwaitRestart k newKiller =>
        (setKiller k (Some newKiller) (killers w), procs w, nextPid w,
         pending w, cleanupInstalled w, exited w)
    | ThenRun k _ => addRestart cfg k (mgr w)
    | ThenExit _ =>
        (killers w, procs w, nextPid w, pending w, cleanupInstalled w, true)
    end.
Proof.
  destruct t as [k h o|k p|k o|ps]; cbn [resume].
  - reflexivity.
  - reflexivity.
  - apply mgr_runOn_addRestart.
  - reflexivity.
Qed.

Lemma view_resume (t : Task) (w : World) :
  events (journal (resume cfg t w)) = events (journal w)
  /\ channel (resume cfg t w) = channel w.
Proof.
  destruct t as [k h o|k p|k o|ps]; cbn [resume].
  - unfold andThen, run, suspend, record. cbn.
    rewrite events_app, app_nil_r. split; reflexivity.
  - split; reflexivity.
  - rewrite channel_runOn, <- events_calls, calls_runOn, events_app,
      events_calls. cbn. rewrite app_nil_r. split; reflexivity.
  - unfold process_exit, andThen, record. cbn.
    rewrite events_app, app_nil_r. split; reflexivity.
Qed.

(** *** Lists of suspended computations *)

Lemma filter_dropNth_other {A : Type} (P : A -> bool) (l : list A) (n : nat)
  (t : A) :
  nth_error l n = Some t -> P t = false ->
  filter P (dropNth n l) = filter P l.
Proof.
  revert n. induction l as [|x r IH]; intros n Hn Ht.
  - destruct n; discriminate Hn.
  - destruct n as [|m]; cbn in Hn |- *.
    + injection Hn as ->. rewrite Ht. reflexivity.
    + rewrite (IH m Hn Ht). reflexivity.
Qed.

Lemma filter_dropNth_only {A : Type} (P : A -> bool) (l : list A) (n : nat)
  (t : A) :
  nth_error l n = Some t -> P t = true -> length (filter P l) <= 1 ->
  filter P l = [t] /\ filter P (dropNth n l) = [].
Proof.
  revert n. induction l as [|x r IH]; intros n Hn Ht Hlen.
  - destruct n; discriminate Hn.
  - destruct n as [|m]; cbn in Hn, Hlen |- *.
    + injection Hn as ->. rewrite Ht in Hlen |- *. cbn in Hlen.
      destruct (filter P r); [split; reflexivity | cbn in Hlen; lia].
    + destruct (P x) eqn:Hx.
      * exfalso. cbn in Hlen.
        assert (Hin : In t (filter P r)).
        { apply filter_In. split; [eapply nth_error_In; eassumption | exact Ht]. }
        destruct (filter P r); [destruct Hin | cbn in Hlen; lia].
      * exact (IH m Hn Ht Hlen).
Qed.

Lemma filter_swap {A : Type} (P Q : A -> bool) (l : list A) :
  filter P (filter Q l) = filter Q (filter P l).
Proof.
  induction l as [|x r IH]; [reflexivity|].
  cbn. destruct (P x) eqn:HP, (Q x) eqn:HQ; cbn; rewrite ?HP, ?HQ, ?IH;
    reflexivity.
Qed.

Lemma busy_false_pendingFor (k : HookKind) (w : World) :
  busy k w = false -> pendingFor k w = [].
Proof.
  unfold busy, pendingFor. induction (pending w) as [|t r IH]; [reflexivity|].
  cbn. destruct (isFor k t); [discriminate|]. exact IH.
Qed.

Lemma HookKind_eqb_eq (a b : HookKind) : HookKind_eqb a b = true <-> a = b.
Proof. destruct a, b; cbn; split; intros H; try reflexivity; discriminate H. Qed.

Lemma HookKind_eqb_refl (a : HookKind) : HookKind_eqb a a = true.
Proof. destruct a; reflexivity. Qed.

Lemma filter_restarts (k : HookKind) (w : World) (ks : list HookKind) :
  filter (isFor k) (restarts cfg w ks)
  = restarts cfg w (filter (fun k' => HookKind_eqb k' k) ks).
Proof.
  unfold restarts. induction ks as [|k' ks IH]; [reflexivity|].
  cbn [flat_map filter]. rewrite filter_app, IH.
  destruct (HookKind_eqb k' k) eqn:E; destruct (command cfg k') as [h|] eqn:Ec;
    cbn [filter flat_map isFor taskKind app]; rewrite ?E, ?Ec; reflexivity.
Qed.

(** A line runs each hook at most once. *)
Lemma line_runs_hook_once (k : HookKind) (state : DetectedState) (w : World) :
  filter (fun k' => HookKind_eqb k' k) (hooks (trace cfg ipc state w))
  = if existsb (HookKind_eqb k) (hooks (trace cfg ipc state w)) then [k] else [].
Proof.
  rewrite trace_lineCalls. destruct state as [s e c f].
  unfold lineCalls, fileCalls, outcomeCalls.
  cbn [compilationStarted compilationError compilationComplete fileEmitted].
  destruct k, (firstTime w), (compilationErrorSinceStart w), s, e, c, f;
    reflexivity.
Qed.

(** *** The invariant of a hook whose restarts do not overlap *)

Lemma Inv_initial (k : HookKind) : Inv k initial.
Proof.
  split; cbn; try lia; intros ? [].
Qed.

(** Nothing of [k] changes. *)
Lemma Inv_same (k : HookKind) (w w' : World) :
  slotOf k w' = slotOf k w -> aliveOf k w' = aliveOf k w ->
  pendingFor k w' = pendingFor k w ->
  Inv k w -> Inv k w'.
Proof.
  intros Esl Eal Epf [I1 I2 I3 I4].
  split; unfold owns, readsSlot; rewrite ?Epf, ?Eal, ?Esl; assumption.
Qed.

Lemma Inv_frame (k : HookKind) (w w' : World) (extra : list Task) :
  killers w' = killers w -> procs w' = procs w ->
  pending w' = pending w ++ extra -> filter (isFor k) extra = [] ->
  Inv k w -> Inv k w'.
Proof.
  intros Hk Hp Hpd Hx. apply Inv_same.
  - unfold slotOf. rewrite Hk. reflexivity.
  - unfold aliveOf. rewrite Hp. reflexivity.
  - unfold pendingFor. rewrite Hpd, filter_app, Hx, app_nil_r. reflexivity.
Qed.

(** A restart of [k] begins while none is in flight. *)
Lemma Inv_trigger (k : HookKind) (w w' : World) (extra : list Task) (t : Task) :
  killers w' = killers w -> procs w' = procs w ->
  pending w' = pending w ++ extra -> filter (isFor k) extra = [t] ->
  match t with
  | AwaitKill _ _ killer | ThenRun _ killer => killer = slotOf k w
  | _ => False
  end ->
  busy k w = false ->
  Inv k w -> Inv k w'.
Proof.
  intros Hk Hp Hpd Hx Ht Hidle [I1 I2 I3 I4].
  pose proof (busy_false_pendingFor k w Hidle) as Enone.
  assert (Epf : pendingFor k w' = [t]).
  { unfold pendingFor in *. rewrite Hpd, filter_app, Hx, Enone. reflexivity. }
  assert (Eal : aliveOf k w' = aliveOf k w).
  { unfold aliveOf. rewrite Hp. reflexivity. }
  assert (Esl : slotOf k w' = slotOf k w).
  { unfold slotOf. rewrite Hk. reflexivity. }
  split; unfold owns, readsSlot; rewrite ?Epf, ?Eal, ?Esl.
  - cbn. lia.
  - assumption.
  - intros i Hi. specialize (I3 i Hi). unfold owns in I3. rewrite Enone in I3.
    destruct t; try assumption. destruct Ht.
  - intros t' [<-|[]]. destruct t; try exact I; exact Ht.
Qed.

(** A hook process exits. *)
Lemma Inv_exit (k : HookKind) (w w' : World) (f : Invocation -> bool) :
  killers w' = killers w -> procs w' = filter f (procs w) ->
  pending w' = pending w ->
  Inv k w -> Inv k w'.
Proof.
  intros Hk Hp Hpd [I1 I2 I3 I4].
  assert (Epf : pendingFor k w' = pendingFor k w).
  { unfold pendingFor. rewrite Hpd. reflexivity. }
  assert (Esl : slotOf k w' = slotOf k w).
  { unfold slotOf. rewrite Hk. reflexivity. }
  assert (Eal : aliveOf k w' = filter f (aliveOf k w)).
  { unfold aliveOf. rewrite Hp. apply filter_swap. }
  split; unfold owns, readsSlot; rewrite ?Epf, ?Eal, ?Esl.
  - assumption.
  - etransitivity; [apply filter_length_le | assumption].
  - intros i Hi. apply filter_In in Hi as [Hi _]. exact (I3 i Hi).
  - assumption.
Qed.

(** Once the kill that a restart of [k] waits for has settled, no
    invocation of [k] is alive. *)
Lemma settled_none_alive (k : HookKind) (w : World) (t : Task)
  (killer : option pid) :
  Inv k w -> In t (pendingFor k w) ->
  (exists h, t = AwaitKill k h killer) \/ t = ThenRun k killer ->
  settled killer w = true ->
  aliveOf k w = [].
Proof.
  intros [I1 I2 I3 I4] Hin Hform Hset.
  destruct (aliveOf k w) as [|i r] eqn:Eal; [reflexivity|exfalso].
  assert (Hi : In i (aliveOf k w)) by (rewrite Eal; left; reflexivity).
  pose proof (I3 i (or_introl eq_refl)) as Hown. pose proof (I4 t Hin) as Hrd.
  assert (Hpf : pendingFor k w = [t]).
  { destruct (pendingFor k w) as [|t1 [|t2 r']]; cbn in I1, Hin.
    - destruct Hin.
    - destruct Hin as [->|[]]. reflexivity.
    - lia. }
  unfold owns in Hown. rewrite Hpf in Hown.
  assert (Hk : killer = Some (inv_pid i)).
  { destruct Hform as [[h ->]| ->]; cbn in Hrd, Hown; congruence. }
  subst killer. cbn in Hset. apply negb_true_iff in Hset.
  unfold aliveOf in Hi. apply filter_In in Hi as [Hi _].
  unfold isAlive in Hset.
  assert (Hex : existsb (fun j => Nat.eqb (inv_pid j) (inv_pid i)) (procs w) = true).
  { apply existsb_exists. exists i. split; [exact Hi | apply Nat.eqb_refl]. }
  congruence.
Qed.

Lemma getKiller_setKiller_same (k : HookKind) (v : option pid) (ks : Killers) :
  getKiller k (setKiller k v ks) = v.
Proof. destruct k; reflexivity. Qed.

Lemma getKiller_setKiller_other (k k' : HookKind) (v : option pid)
  (ks : Killers) :
  HookKind_eqb k' k = false ->
  getKiller k (setKiller k' v ks) = getKiller k ks.
Proof. destruct k, k'; cbn; intros H; try reflexivity; discriminate H. Qed.

Lemma HookKind_eqb_sym (a b : HookKind) : HookKind_eqb a b = HookKind_eqb b a.
Proof. destruct a, b; reflexivity. Qed.

Ltac mgr_fields H :=
  pose proof (f_equal (fun m => fst (fst (fst (fst (fst m))))) H) as Hks;
  pose proof (f_equal (fun m => snd (fst (fst (fst (fst m))))) H) as Hps;
  pose proof (f_equal (fun m => snd (fst (fst (fst m)))) H) as Hnp;
  pose proof (f_equal (fun m => snd (fst (fst m))) H) as Hpd;
  pose proof (f_equal (fun m => snd (fst m)) H) as Hci;
  pose proof (f_equal (fun m => snd m) H) as Hex;
  cbv beta in Hks, Hps, Hnp, Hpd, Hci, Hex;
  unfold mgr, addRestart in Hks, Hps, Hnp, Hpd, Hci, Hex;
  cbn [fst snd] in Hks, Hps, Hnp, Hpd, Hci, Hex;
  clear H.

(** A computation that belongs to another hook, or to none, is resumed. *)
Lemma Inv_resume_other (k : HookKind) (w : World) (n : nat) (t : Task) :
  nth_error (pending w) n = Some t -> isFor k t = false ->
  Inv k w ->
  Inv k (resume cfg t (set_pending (dropNth n (pending w)) w)).
Proof.
  intros Hn Hfor HI.
  set (w1 := set_pending (dropNth n (pending w)) w).
  assert (HI1 : Inv k w1).
  { apply (Inv_same k w w1); try reflexivity; [|exact HI].
    unfold pendingFor, w1. cbn [pending set_pending].
    apply (filter_dropNth_other _ _ _ _ Hn Hfor). }
  pose proof (mgr_resume t w1) as H.
  destruct t as [k' h o|k' p|k' o|ps]; cbn [isFor taskKind] in Hfor.
  - mgr_fields H. apply (Inv_same k w1); [| | |exact HI1].
    + unfold slotOf. rewrite Hks. reflexivity.
    + unfold aliveOf. rewrite Hps, filter_app. cbn [filter inv_kind].
      rewrite Hfor, app_nil_r. reflexivity.
    + unfold pendingFor. rewrite Hpd, filter_app. cbn [filter isFor taskKind].
      rewrite Hfor, app_nil_r. reflexivity.
  - mgr_fields H. apply (Inv_same k w1); [| | |exact HI1].
    + unfold slotOf. rewrite Hks. apply getKiller_setKiller_other. exact Hfor.
    + unfold aliveOf. rewrite Hps. reflexivity.
    + unfold pendingFor. rewrite Hpd. reflexivity.
  - mgr_fields H. apply (Inv_frame k w1 _ _ Hks Hps Hpd); [|exact HI1].
    destruct (command cfg k'); cbn [filter isFor taskKind]; rewrite ?Hfor;
      reflexivity.
  - mgr_fields H. apply (Inv_frame k w1 _ []); try assumption.
    + rewrite app_nil_r. exact Hpd.
    + reflexivity.
Qed.

Lemma isFor_kind (k : HookKind) (t : Task) :
  isFor k t = true -> taskKind t = Some k.
Proof.
  unfold isFor. destruct (taskKind t) as [k'|]; [|discriminate].
  intros H. apply HookKind_eqb_eq in H. subst. reflexivity.
Qed.

(** A computation of a restart of [k] is resumed. *)
Lemma Inv_resume_own (k : HookKind) (w : World) (n : nat) (t : Task) :
  nth_error (pending w) n = Some t -> isFor k t = true ->
  ready t w = true ->
  Inv k w ->
  Inv k (resume cfg t (set_pending (dropNth n (pending w)) w)).
Proof.
  intros Hn Hfor Hready HI.
  set (w1 := set_pending (dropNth n (pending w)) w).
  destruct (filter_dropNth_only (isFor k) (pending w) n t Hn Hfor
              (inv_pending k w HI)) as [Eonly Enone].
  fold (pendingFor k w) in Eonly.
  assert (Hin : In t (pendingFor k w)) by (rewrite Eonly; left; reflexivity).
  assert (Epf1 : pendingFor k w1 = []) by exact Enone.
  pose proof (isFor_kind k t Hfor) as Hkind.
  pose proof (mgr_resume t w1) as H.
  destruct t as [k' h o|k' p|k' o|ps]; cbn [taskKind] in Hkind;
    try discriminate Hkind; injection Hkind as ->; cbn [ready] in Hready.
  - (* the kill has settled: the command is spawned *)
    pose proof (settled_none_alive k w _ o HI Hin
                  (or_introl (ex_intro _ h eq_refl)) Hready) as Enoalive.
    mgr_fields H.
    assert (Epf : pendingFor k (resume cfg (AwaitKill k h o) w1)
                  = [AwaitRestart k (nextPid w1)]).
    { unfold pendingFor in *. rewrite Hpd, filter_app, Epf1.
      cbn [filter isFor taskKind app]. rewrite HookKind_eqb_refl. reflexivity. }
    assert (Eal : aliveOf k (resume cfg (AwaitKill k h o) w1)
                  = [Build_Invocation (nextPid w1) k h]).
    { unfold aliveOf in *. rewrite Hps, filter_app.
      change (procs w1) with (procs w). rewrite Enoalive.
      cbn [filter inv_kind app]. rewrite HookKind_eqb_refl. reflexivity. }
    split; unfold owns, readsSlot; rewrite ?Epf, ?Eal; cbn [length].
    + lia.
    + lia.
    + intros i [<-|[]]. reflexivity.
    + intros t' [<-|[]]. exact I.
  - (* the new killer is stored *)
    mgr_fields H.
    assert (Epf : pendingFor k (resume cfg (AwaitRestart k p) w1) = []).
    { unfold pendingFor in *. rewrite Hpd. exact Epf1. }
    assert (Eal : aliveOf k (resume cfg (AwaitRestart k p) w1) = aliveOf k w).
    { unfold aliveOf. rewrite Hps. reflexivity. }
    assert (Esl : slotOf k (resume cfg (AwaitRestart k p) w1) = Some p).
    { unfold slotOf. rewrite Hks. apply getKiller_setKiller_same. }
    destruct HI as [I1 I2 I3 I4].
    split; unfold owns, readsSlot; rewrite ?Epf, ?Eal, ?Esl; cbn [length].
    + lia.
    + exact I2.
    + intros i Hi. specialize (I3 i Hi). unfold owns in I3.
      rewrite Eonly in I3. congruence.
    + intros t' [].
  - (* the message handler's kill has settled: the hook is run *)
    pose proof (settled_none_alive k w _ o HI Hin (or_intror eq_refl) Hready)
      as Enoalive.
    mgr_fields H.
    assert (Eal : aliveOf k (resume cfg (ThenRun k o) w1) = []).
    { unfold aliveOf in *. rewrite Hps. exact Enoalive. }
    assert (Esl : slotOf k (resume cfg (ThenRun k o) w1) = slotOf k w).
    { unfold slotOf. rewrite Hks. reflexivity. }
    assert (Epf : pendingFor k (resume cfg (ThenRun k o) w1)
                  = match command cfg k with
                    | Some handler => [AwaitKill k handler (slotOf k w)]
                    | None => []
                    end).
    { unfold pendingFor in *. rewrite Hpd, filter_app, Epf1.
      destruct (command cfg k); cbn [filter isFor taskKind app];
        rewrite ?HookKind_eqb_refl; reflexivity. }
    split; unfold owns, readsSlot; rewrite ?Epf, ?Eal, ?Esl; cbn [length].
    + destruct (command cfg k); cbn; lia.
    + lia.
    + intros i [].
    + intros t' Ht'. destruct (command cfg k); [|destruct Ht'].
      destruct Ht' as [<-|[]]. reflexivity.
Qed.

(** Every event keeps the invariant of [k], unless it triggers [k] while a
    restart of [k] is in flight. *)
Lemma Inv_step (k : HookKind) (w w' : World) (e : Event) :
  Inv k w ->
  step cfg ipc listens w e = Some w' ->
  busy k w && existsb (HookKind_eqb k) (triggered cfg ipc listens w e) = false ->
  Inv k w'.
Proof.
  intros HI Hstep Hser. unfold step in Hstep.
  destruct (exited w); [discriminate|].
  destruct e as [state|msg|signal|p|n].
  - (* a line *)
    injection Hstep as <-. pose proof (mgr_onState cfg ipc state w) as H. mgr_fields H.
    cbn [triggered] in Hser.
    pose proof (filter_restarts k w (hooks (trace cfg ipc state w))) as Hf.
    rewrite line_runs_hook_once in Hf.
    destruct (existsb (HookKind_eqb k) (hooks (trace cfg ipc state w))).
    + rewrite andb_true_r in Hser. unfold restarts in Hf. cbn [flat_map] in Hf.
      rewrite app_nil_r in Hf.
      destruct (command cfg k) as [h|].
      * apply (Inv_trigger k w _ _ _ Hks Hps Hpd Hf); [reflexivity|exact Hser|exact HI].
      * apply (Inv_frame k w _ _ Hks Hps Hpd Hf HI).
    + apply (Inv_frame k w _ _ Hks Hps Hpd Hf HI).
  - (* a message *)
    injection Hstep as <-. cbn [triggered] in Hser. unfold when.
    destruct listens; [|exact HI].
    pose proof (mgr_onMessage msg w) as H. mgr_fields H.
    destruct (hookOfMessage msg) as [k'|].
    + cbn [existsb] in Hser. rewrite orb_false_r in Hser.
      destruct (HookKind_eqb k k') eqn:E.
      * apply HookKind_eqb_eq in E. subst k'. rewrite andb_true_r in Hser.
        apply (Inv_trigger k w _ _ (ThenRun k (slotOf k w)) Hks Hps Hpd);
          [|reflexivity|exact Hser|exact HI].
        cbn [filter isFor taskKind]. rewrite HookKind_eqb_refl. reflexivity.
      * apply (Inv_frame k w _ _ Hks Hps Hpd); [|exact HI].
        cbn [filter isFor taskKind]. rewrite HookKind_eqb_sym, E. reflexivity.
    + apply (Inv_frame k w _ _ Hks Hps Hpd); [reflexivity|exact HI].
  - (* a signal *)
    destruct (cleanupInstalled w); injection Hstep as <-.
    + pose proof (mgr_cleanupHandler (Some signal) w) as H. mgr_fields H.
      apply (Inv_frame k w _ _ Hks Hps Hpd); [reflexivity|exact HI].
    + apply (Inv_same k w); [reflexivity..|exact HI].
  - (* a hook process exits *)
    destruct (isAlive p w); [|discriminate]. injection Hstep as <-.
    apply (Inv_exit k w _ (fun i => negb (Nat.eqb (inv_pid i) p)));
      [reflexivity..|exact HI].
  - (* a suspended computation is resumed *)
    destruct (nth_error (pending w) n) as [t|] eqn:Hn; [|discriminate].
    destruct (ready t w) eqn:Hready; [|discriminate]. injection Hstep as <-.
    destruct (isFor k t) eqn:Hfor.
    + apply Inv_resume_own; assumption.
    + apply Inv_resume_other; assumption.
Qed.

Lemma Inv_exec (k : HookKind) (es : list Event) (w w' : World) :
  Inv k w ->
  serial cfg ipc listens k w es = true ->
  exec cfg ipc listens w es = Some w' ->
  Inv k w'.
Proof.
  revert w. induction es as [|e es IH]; intros w HI Hser Hexec.
  - injection Hexec as <-. exact HI.
  - cbn [serial exec] in Hser, Hexec.
    destruct (step cfg ipc listens w e) as [w1|] eqn:Hstep; [|discriminate].
    apply andb_true_iff in Hser as [Hnow Hrest]. apply negb_true_iff in Hnow.
    apply (IH w1); [|exact Hrest|exact Hexec].
    exact (Inv_step k w w1 e HI Hstep Hnow).
Qed.

Lemma serial_firstn (k : HookKind) (es : list Event) (n : nat) (w : World) :
  serial cfg ipc listens k w es = true ->
  serial cfg ipc listens k w (firstn n es) = true.
Proof.
  revert n w. induction es as [|e es IH]; intros n w H.
  - destruct n; reflexivity.
  - destruct n as [|n]; [reflexivity|]. cbn [firstn serial] in H |- *.
    apply andb_true_iff in H as [Hnow Hrest]. rewrite Hnow. cbn [andb].
    destruct (step cfg ipc listens w e); [|reflexivity].
    apply IH. exact Hrest.
Qed.

(** C4, as the code has it.  In a run in which no trigger of [k], from a
    line or from a message, arrives while a restart of [k] is in flight, at
    most one invocation of the command of [k] is alive after every prefix
    of the run; and a restart spawns only when the invocation it asked to
    terminate is gone. *)
Theorem one_invocation_when_restarts_do_not_overlap (k : HookKind)
  (es : list Event) :
  serial cfg ipc listens k initial es = true ->
  (forall n w,
      exec cfg ipc listens initial (firstn n es) = Some w ->
      length (aliveOf k w) <= 1)
  /\ (forall w w' n h p,
        nth_error (pending w) n = Some (AwaitKill k h (Some p)) ->
        step cfg ipc listens w (Resume n) = Some w' ->
        isAlive p w = false).
Proof.
  intros Hser. split.
  - intros n w Hexec. apply inv_alive.
    apply (Inv_exec k (firstn n es) initial w (Inv_initial k)
             (serial_firstn k es n initial Hser) Hexec).
  - intros w w' n h p Hn Hstep. unfold step in Hstep.
    destruct (exited w); [discriminate|]. rewrite Hn in Hstep.
    cbn [ready settled] in Hstep.
    destruct (isAlive p w); [discriminate|reflexivity].
Qed.

(** *** The messages of a run *)

Lemma lineCalls_events (ft flag : bool) (state : DetectedState) :
  Forall isEventMessage (events (lineCalls ft flag state)).
Proof.
  destruct state as [s e c f]. unfold lineCalls, fileCalls, outcomeCalls.
  cbn [compilationStarted compilationError compilationComplete fileEmitted].
  unfold isEventMessage.
  destruct ft, flag, s, e, c, f as [path|]; cbn;
    repeat (constructor; [solve [eauto 6]|]); constructor.
Qed.

Lemma events_killReqs (promises : list (option pid)) :
  events (flat_map killReqs promises) = [].
Proof.
  induction promises as [|[p|] r IH]; cbn; [reflexivity| exact IH | exact IH].
Qed.

(** What a step adds to the event messages and to the channel. *)
Lemma step_messages (w w' : World) (e : Event) :
  step cfg ipc listens w e = Some w' ->
  exists d,
    Forall isEventMessage d
    /\ events (journal w') = events (journal w) ++ d
    /\ channel w' = channel w ++ (if ipc then d else []).
Proof.
  intros Hstep. unfold step in Hstep. destruct (exited w); [discriminate|].
  assert (Hnone : forall v : World,
             events (journal v) = events (journal w) -> channel v = channel w ->
             exists d, Forall isEventMessage d
                       /\ events (journal v) = events (journal w) ++ d
                       /\ channel v = channel w ++ (if ipc then d else [])).
  { intros v Hj Hc. exists []. rewrite Hj, Hc, !app_nil_r.
    destruct ipc; rewrite ?app_nil_r; repeat split; constructor. }
  destruct e as [state|msg|signal|p|n].
  - injection Hstep as <-. exists (events (trace cfg ipc state w)).
    split; [rewrite trace_lineCalls; apply lineCalls_events|]. split.
    + rewrite <- (events_calls (journal (onState _ _ _ _))), calls_onState,
        events_app, events_calls. reflexivity.
    + apply channel_onState.
  - injection Hstep as <-. unfold when. destruct listens.
    + destruct (view_onMessage msg w) as [Hj Hc]. exact (Hnone _ Hj Hc).
    + apply Hnone; reflexivity.
  - destruct (cleanupInstalled w); injection Hstep as <-.
    + apply Hnone; [|apply channel_cleanupHandler].
      rewrite journal_cleanupHandler, events_app. cbn [events flat_map app].
      fold (events (flat_map killReqs (promisesOf true (killers w)) ++ [Uninstall])).
      rewrite events_app, events_killReqs. cbn. rewrite app_nil_r. reflexivity.
    + apply Hnone; reflexivity.
  - destruct (isAlive p w); [|discriminate]. injection Hstep as <-.
    apply Hnone; reflexivity.
  - destruct (nth_error (pending w) n) as [t|]; [|discriminate].
    destruct (ready t w); [|discriminate]. injection Hstep as <-.
    destruct (view_resume t (set_pending (dropNth n (pending w)) w))
      as [Hj Hc].
    exact (Hnone _ Hj Hc).
Qed.

Lemma exec_messages (es : list Event) (w w' : World) :
  exec cfg ipc listens w es = Some w' ->
  exists d,
    Forall isEventMessage d
    /\ events (journal w') = events (journal w) ++ d
    /\ channel w' = channel w ++ (if ipc then d else []).
Proof.
  revert w. induction es as [|e es IH]; intros w Hexec.
  - injection Hexec as <-. exists []. rewrite !app_nil_r.
    destruct ipc; rewrite ?app_nil_r; repeat split; constructor.
  - cbn [exec] in Hexec.
    destruct (step cfg ipc listens w e) as [w1|] eqn:Hstep; [|discriminate].
    destruct (step_messages w w1 e Hstep) as (d1 & F1 & J1 & C1).
    destruct (IH w1 Hexec) as (d2 & F2 & J2 & C2).
    exists (d1 ++ d2). split; [apply Forall_app; split; assumption|].
    rewrite J2, J1, C2, C1. destruct ipc; rewrite <- ?app_assoc, ?app_nil_r;
      split; reflexivity.
Qed.

(** C9.  Every event message of a run, and everything handed to
    [process.send], is one of the five payloads, and each of the five is
    sent by some line.  Without a channel nothing is handed over: [send]
    does nothing but is noted in the journal. *)
Theorem event_messages_are_the_five_payloads (es : list Event) (w : World) :
  exec cfg ipc listens initial es = Some w ->
  Forall isEventMessage (events (journal w))
  /\ Forall isEventMessage (channel w)
  /\ (ipc = false -> channel w = [])
  /\ (forall payload w0, Signal.send false payload w0 = record (Emit payload) w0)
  /\ (forall s, isEventMessage s ->
       exists state, In s (channel (onState cfg true state initial))).
Proof.
  intros Hexec. destruct (exec_messages es initial w Hexec) as (d & F & J & C).
  cbn [initial journal channel events flat_map app] in J, C.
  split; [rewrite J; exact F|]. split; [rewrite C; destruct ipc; [exact F|constructor]|].
  split; [intros ->; exact C|]. split; [reflexivity|].
  intros s Hs.
  assert (Hline : forall state,
             In s (events (lineCalls true false state)) ->
             In s (channel (onState cfg true state initial))).
  { intros state Hin. rewrite channel_onState, trace_lineCalls. exact Hin. }
  destruct Hs as [->|[->|[->|[->|[path ->]]]]].
  - exists (Build_DetectedState true false false None). apply Hline. cbn. auto.
  - exists (Build_DetectedState false false true None). apply Hline. cbn. auto.
  - exists (Build_DetectedState false false true None). apply Hline. cbn. auto.
  - exists (Build_DetectedState false true true None). apply Hline. cbn. auto.
  - exists (Build_DetectedState false false false (Some path)). apply Hline.
    cbn. auto.
Qed.

(** *** The first success in any run *)

Lemma tracker_view_onMessage (msg : string) (w : World) :
  view (onMessage msg w) = view w.
Proof.
  unfold view, onMessage, andThen, callKiller, suspend, record, skip.
  destruct (hookOfMessage msg) as [k|]; cbn -[calls].
  - destruct (getKiller k (killers w)); cbn -[calls];
      rewrite ?calls_app; cbn; rewrite ?app_nil_r; reflexivity.
  - rewrite calls_app. cbn. rewrite app_nil_r. reflexivity.
Qed.

Lemma calls_killReqs (promises : list (option pid)) :
  calls (flat_map killReqs promises) = [].
Proof.
  induction promises as [|[p|] r IH]; cbn; [reflexivity| exact IH | exact IH].
Qed.

Lemma tracker_view_cleanupHandler (signal : option string) (w : World) :
  view (cleanupHandler signal w) = view w.
Proof.
  unfold view. rewrite journal_cleanupHandler, channel_cleanupHandler.
  change (KillTsc signal
            :: flat_map killReqs (promisesOf true (killers w)) ++ [Uninstall])
    with ([KillTsc signal]
            ++ flat_map killReqs (promisesOf true (killers w)) ++ [Uninstall]).
  rewrite !calls_app, calls_killReqs. cbn [calls filter app].
  rewrite app_nil_r.
  destruct w as [ft fl [a b c d e] ps np pd ch j ci ex].
  destruct a, b, c, d, e; reflexivity.
Qed.

Lemma tracker_view_resume (t : Task) (w : World) :
  view (resume cfg t w)
  = (firstTime w, compilationErrorSinceStart w,
     calls (journal w) ++ match t with
                          | ThenRun k _ => [RunHook k]
                          | _ => []
                          end,
     channel w).
Proof.
  destruct t as [k h o|k p|k o|ps]; cbn [resume].
  - unfold view, andThen, run, suspend, record. cbn -[calls].
    rewrite calls_app. reflexivity.
  - unfold view. cbn -[calls]. rewrite app_nil_r. reflexivity.
  - apply view_runOn.
  - unfold view, process_exit, andThen, record. cbn -[calls].
    rewrite calls_app. reflexivity.
Qed.

(** Of all events, only a line and a resumed manual retrigger are visible
    to the tracker. *)
Lemma step_view (w w' : World) (e : Event) :
  step cfg ipc listens w e = Some w' ->
  view w'
  = match e with
    | Line state => view (onState cfg ipc state w)
    | Resume n =>
        match nth_error (pending w) n with
        | Some (ThenRun k _) =>
            (firstTime w, compilationErrorSinceStart w,
             calls (journal w) ++ [RunHook k], channel w)
        | _ => view w
        end
    | _ => view w
    end.
Proof.
  intros Hstep. unfold step in Hstep. destruct (exited w); [discriminate|].
  destruct e as [state|msg|signal|p|n].
  - injection Hstep as <-. reflexivity.
  - injection Hstep as <-. unfold when.
    destruct listens; [apply tracker_view_onMessage|reflexivity].
  - destruct (cleanupInstalled w); injection Hstep as <-;
      [apply tracker_view_cleanupHandler|reflexivity].
  - destruct (isAlive p w); [|discriminate]. injection Hstep as <-. reflexivity.
  - destruct (nth_error (pending w) n) as [t|]; [|discriminate].
    destruct (ready t w); [|discriminate]. injection Hstep as <-.
    rewrite tracker_view_resume. unfold view.
    cbn [firstTime compilationErrorSinceStart journal channel set_pending].
    destruct t; rewrite ?app_nil_r; reflexivity.
Qed.

Lemma forallb_dropNth {A : Type} (P : A -> bool) (l : list A) (n : nat) :
  forallb P l = true -> forallb P (dropNth n l) = true.
Proof.
  revert n. induction l as [|x r IH]; intros n H; [destruct n; reflexivity|].
  cbn in H. apply andb_true_iff in H as [Hx Hr].
  destruct n as [|m]; cbn; [exact Hr|]. rewrite Hx, (IH m Hr). reflexivity.
Qed.

Lemma restarts_not_manual (w : World) (ks : list HookKind) :
  forallb (fun t => negb (isManualFirstSuccess t)) (restarts cfg w ks) = true.
Proof.
  unfold restarts. induction ks as [|k ks IH]; [reflexivity|].
  cbn [flat_map]. rewrite forallb_app, IH, andb_true_r.
  destruct (command cfg k); reflexivity.
Qed.

(** Without a message that asks for it, no manual retrigger of the
    first-success hook is ever suspended. *)
Lemma step_no_manual_first_success (w w' : World) (e : Event) :
  step cfg ipc listens w e = Some w' ->
  manualFirstSuccess e = false ->
  forallb (fun t => negb (isManualFirstSuccess t)) (pending w) = true ->
  forallb (fun t => negb (isManualFirstSuccess t)) (pending w') = true.
Proof.
  intros Hstep He Hw. unfold step in Hstep. destruct (exited w); [discriminate|].
  destruct e as [state|msg|signal|p|n].
  - injection Hstep as <-. pose proof (mgr_onState cfg ipc state w) as H.
    mgr_fields H. rewrite Hpd, forallb_app, Hw. apply restarts_not_manual.
  - injection Hstep as <-. unfold when. destruct listens; [|exact Hw].
    pose proof (mgr_onMessage msg w) as H. mgr_fields H.
    rewrite Hpd, forallb_app, Hw. cbn [andb manualFirstSuccess] in He |- *.
    destruct (hookOfMessage msg) as [[]|]; try reflexivity. discriminate He.
  - destruct (cleanupInstalled w); injection Hstep as <-; [|exact Hw].
    pose proof (mgr_cleanupHandler (Some signal) w) as H. mgr_fields H.
    rewrite Hpd, forallb_app, Hw. reflexivity.
  - destruct (isAlive p w); [|discriminate]. injection Hstep as <-. exact Hw.
  - destruct (nth_error (pending w) n) as [t|]; [|discriminate].
    destruct (ready t w); [|discriminate]. injection Hstep as <-.
    pose proof (forallb_dropNth _ _ n Hw) as Hd.
    pose proof (mgr_resume t (set_pending (dropNth n (pending w)) w)) as H.
    destruct t as [k h o|k q|k o|ps]; mgr_fields H; rewrite Hpd;
      cbn [pending set_pending]; rewrite ?forallb_app, ?Hd; try reflexivity.
    destruct (command cfg k); reflexivity.
Qed.

(** The bound that the one-shot guard puts on the first success. *)
Lemma first_success_in_any_run (es : list Event) (w w' : World) :
  exec cfg ipc listens w es = Some w' ->
  let guard := fun v : World => if firstTime v then 0 else 1 in
  (occ "first_success" (events (journal w)) <= guard w ->
   occ "first_success" (events (journal w')) <= guard w')
  /\ (existsb manualFirstSuccess es = false ->
      forallb (fun t => negb (isManualFirstSuccess t)) (pending w) = true ->
      hookOcc FirstSuccess (hooks (journal w)) <= guard w ->
      hookOcc FirstSuccess (hooks (journal w')) <= guard w').
Proof.
  cbv zeta. revert w. induction es as [|e es IH]; intros w Hexec.
  - injection Hexec as <-. split; auto.
  - cbn [exec] in Hexec.
    destruct (step cfg ipc listens w e) as [w1|] eqn:Hstep; [|discriminate].
    destruct (IH w1 Hexec) as [IHe IHh].
    pose proof (step_view w w1 e Hstep) as Hv.
    assert (Hline : forall state,
               view w1 = view (onState cfg ipc state w) ->
               (occ "first_success" (events (journal w))
                <= (if firstTime w then 0 else 1) ->
                occ "first_success" (events (journal w1))
                <= (if firstTime w1 then 0 else 1))
               /\ (hookOcc FirstSuccess (hooks (journal w))
                   <= (if firstTime w then 0 else 1) ->
                   hookOcc FirstSuccess (hooks (journal w1))
                   <= (if firstTime w1 then 0 else 1))).
    { intros state Hs. unfold view in Hs.
      assert (Hft : firstTime w1 = firstTime (onState cfg ipc state w))
        by congruence.
      assert (Hcl : calls (journal w1) = calls (journal (onState cfg ipc state w)))
        by congruence.
      rewrite firstTime_onState in Hft. rewrite calls_onState in Hcl.
      destruct (outcome_counts cfg ipc state w) as (E1 & E2 & _ & _).
      rewrite <- (events_calls (journal w1)), <- (hooks_calls (journal w1)), Hcl,
        events_app, hooks_app, occ_app, hookOcc_app, events_calls, hooks_calls,
        E1, E2, Hft.
      destruct (firstTime w), (errorFree cfg ipc w state); cbn [andb negb];
        split; lia. }
    assert (Hsame : view w1 = view w ->
               firstTime w1 = firstTime w
               /\ events (journal w1) = events (journal w)
               /\ hooks (journal w1) = hooks (journal w)).
    { intros Hs. unfold view in Hs.
      assert (Hcl : calls (journal w1) = calls (journal w)) by congruence.
      split; [congruence|].
      rewrite <- (events_calls (journal w1)), <- (hooks_calls (journal w1)), Hcl,
        events_calls, hooks_calls. split; reflexivity. }
    split.
    + intros Hw. apply IHe.
      destruct e as [state|msg|signal|p|n].
      * exact (proj1 (Hline state Hv) Hw).
      * destruct (Hsame Hv) as (F & E & _). rewrite F, E. exact Hw.
      * destruct (Hsame Hv) as (F & E & _). rewrite F, E. exact Hw.
      * destruct (Hsame Hv) as (F & E & _). rewrite F, E. exact Hw.
      * destruct (nth_error (pending w) n) as [[k h o|k q|k o|ps]|];
          try (destruct (Hsame Hv) as (F & E & _); rewrite F, E; exact Hw).
        unfold view in Hv.
        assert (F : firstTime w1 = firstTime w) by congruence.
        assert (Hcl : calls (journal w1) = calls (journal w) ++ [RunHook k])
          by congruence.
        rewrite <- (events_calls (journal w1)), Hcl, events_app, events_calls, F.
        cbn. rewrite app_nil_r. exact Hw.
    + intros Hno Hpend Hw. cbn [existsb] in Hno.
      apply orb_false_elim in Hno as [He Hrest].
      apply IHh; [exact Hrest
                 |exact (step_no_manual_first_success w w1 e Hstep He Hpend)|].
      destruct e as [state|msg|signal|p|n].
      * exact (proj2 (Hline state Hv) Hw).
      * destruct (Hsame Hv) as (F & _ & E). rewrite F, E. exact Hw.
      * destruct (Hsame Hv) as (F & _ & E). rewrite F, E. exact Hw.
      * destruct (Hsame Hv) as (F & _ & E). rewrite F, E. exact Hw.
      * destruct (nth_error (pending w) n) as [[k h o|k q|k o|ps]|] eqn:Hn;
          try (destruct (Hsame Hv) as (F & _ & E); rewrite F, E; exact Hw).
        unfold view in Hv.
        assert (F : firstTime w1 = firstTime w) by congruence.
        assert (Hcl : calls (journal w1) = calls (journal w) ++ [RunHook k])
          by congruence.
        rewrite <- (hooks_calls (journal w1)), Hcl, hooks_app, hookOcc_app,
          hooks_calls, F.
        assert (Hk : isManualFirstSuccess (ThenRun k o) = false).
        { apply nth_error_In in Hn.
          pose proof (proj1 (forallb_forall _ _) Hpend _ Hn) as Hk.
          apply negb_true_iff in Hk. exact Hk. }
        destruct k; try discriminate Hk; cbn; lia.
Qed.

(** C3.  Over any sequence of lines the message [first_success] is sent
    at most once and the first-success hook is run at most once: at the
    first completion found free of errors; every later such completion
    sends [success] and runs the success hook only.  The bound holds in
    every run of the script, whatever else happens between the lines, as
    long as no message asks for the hook to be run again. *)
Theorem first_success_at_most_once (lines : list DetectedState) :
  let j := journal (processLines cfg ipc initial lines) in
  occ "first_success" (events j) <= 1
  /\ hookOcc FirstSuccess (hooks j) <= 1
  /\ (forall before state after,
        lines = before ++ state :: after ->
        let w := processLines cfg ipc initial before in
        let t := trace cfg ipc state w in
        errorFree cfg ipc w state = true ->
        occ "success" (events t) = 1
        /\ hookOcc Success (hooks t) = 1
        /\ if anyErrorFree cfg ipc initial before then
             occ "first_success" (events t) = 0
             /\ hookOcc FirstSuccess (hooks t) = 0
           else
             occ "first_success" (events t) = 1
             /\ hookOcc FirstSuccess (hooks t) = 1)
  /\ (forall es w,
        exec cfg ipc listens initial es = Some w ->
        occ "first_success" (events (journal w)) <= 1
        /\ (existsb manualFirstSuccess es = false ->
            hookOcc FirstSuccess (hooks (journal w)) <= 1)).
Proof.
  cbv zeta.
  destruct (first_success_over_lines cfg ipc lines) as (L1 & L2 & L3).
  split; [exact L1|]. split; [exact L2|]. split; [exact L3|].
  intros es w Hexec.
  destruct (first_success_in_any_run es initial w Hexec) as [He Hh].
  cbn [initial firstTime journal events hooks flat_map pending forallb] in He, Hh.
  split.
  - specialize (He (le_n 0)). destruct (firstTime w); lia.
  - intros Hno. specialize (Hh Hno eq_refl (le_n 0)). destruct (firstTime w); lia.
Qed.

(** *** Shutdown *)

Lemma shutdowns_onMessage (msg : string) (w : World) :
  shutdowns (journal (onMessage msg w)) = shutdowns (journal w).
Proof.
  unfold onMessage, andThen, callKiller, suspend, record, skip.
  destruct (hookOfMessage msg) as [k|];
    cbn [journal set_journal set_pending].
  - destruct (getKiller k (killers w)); cbn [journal set_journal set_pending];
      rewrite ?shutdowns_app; cbn; lia.
  - rewrite shutdowns_app. cbn. lia.
Qed.

Lemma shutdowns_resume (t : Task) (w : World) :
  shutdowns (journal (resume cfg t w)) = shutdowns (journal w).
Proof.
  destruct t as [k h o|k p|k o|ps]; cbn [resume].
  - unfold andThen, run, suspend, record.
    cbn -[shutdowns]. rewrite shutdowns_app. cbn. lia.
  - reflexivity.
  - apply shutdowns_runOn.
  - unfold process_exit, andThen, record.
    cbn -[shutdowns]. rewrite shutdowns_app. cbn. lia.
Qed.

(** A step runs the cleanup handler only while it is installed, and the
    handler uninstalls itself. *)
Lemma step_shutdowns (w w' : World) (e : Event) :
  step cfg ipc listens w e = Some w' ->
  (cleanupInstalled w' = cleanupInstalled w
   /\ shutdowns (journal w') = shutdowns (journal w))
  \/ (cleanupInstalled w = true /\ cleanupInstalled w' = false
      /\ shutdowns (journal w') = S (shutdowns (journal w))).
Proof.
  intros Hstep. unfold step in Hstep. destruct (exited w); [discriminate|].
  destruct e as [state|msg|signal|p|n].
  - injection Hstep as <-. left. split; [|apply shutdowns_onState].
    pose proof (mgr_onState cfg ipc state w) as H. mgr_fields H. exact Hci.
  - injection Hstep as <-. left. unfold when. destruct listens.
    + split; [|apply shutdowns_onMessage].
      pose proof (mgr_onMessage msg w) as H. mgr_fields H. exact Hci.
    + split; reflexivity.
  - destruct (cleanupInstalled w) eqn:Eci; injection Hstep as <-.
    + right. split; [reflexivity|].
      pose proof (mgr_cleanupHandler (Some signal) w) as H. mgr_fields H.
      split; [exact Hci|].
      rewrite journal_cleanupHandler, shutdowns_app.
      change (KillTsc (Some signal)
                :: flat_map killReqs (promisesOf true (killers w)) ++ [Uninstall])
        with ([KillTsc (Some signal)]
                ++ flat_map killReqs (promisesOf true (killers w)) ++ [Uninstall]).
      rewrite !shutdowns_app, shutdowns_killReqs. cbn. lia.
    + left. split; [exact Eci|reflexivity].
  - destruct (isAlive p w); [|discriminate]. injection Hstep as <-.
    left. split; reflexivity.
  - destruct (nth_error (pending w) n) as [t|]; [|discriminate].
    destruct (ready t w); [|discriminate]. injection Hstep as <-.
    left. rewrite shutdowns_resume. split; [|reflexivity].
    pose proof (mgr_resume t (set_pending (dropNth n (pending w)) w)) as H.
    destruct t; mgr_fields H; exact Hci.
Qed.

Lemma cleanup_runs_at_most_once (es : list Event) (w w' : World) :
  (if cleanupInstalled w then shutdowns (journal w) = 0
   else shutdowns (journal w) <= 1) ->
  exec cfg ipc listens w es = Some w' ->
  shutdowns (journal w') <= 1.
Proof.
  revert w. induction es as [|e es IH]; intros w Hw Hexec.
  - injection Hexec as <-. destruct (cleanupInstalled w); lia.
  - cbn [exec] in Hexec.
    destruct (step cfg ipc listens w e) as [w1|] eqn:Hstep; [|discriminate].
    apply (IH w1); [|exact Hexec].
    destruct (step_shutdowns w w1 e Hstep) as [[E1 E2]|(E0 & E1 & E2)].
    + rewrite E1, E2. exact Hw.
    + rewrite E0 in Hw. rewrite E1, E2, Hw. lia.
Qed.

(** C6, as the code has it.  On a signal, while the handler is installed,
    the script first terminates the compiler with that signal, then asks
    the invocation held by each of the five hook variables to terminate,
    then uninstalls the handler.  It exits when all these kills have
    settled.  A later signal does not run the handler again, and no run
    terminates the compiler twice. *)
Theorem shutdown_terminates_compiler_then_hooks (w : World) (signal : string) :
  exited w = false ->
  cleanupInstalled w = true ->
  exists w1,
    step cfg ipc listens w (Signalled signal) = Some w1
    /\ journal w1
       = journal w
           ++ KillTsc (Some signal)
           :: flat_map killReqs
                [firstSuccessKiller (killers w); successKiller (killers w);
                 failureKiller (killers w); compilationStartedKiller (killers w);
                 compilationCompleteKiller (killers w)]
           ++ [Uninstall]
    /\ pending w1 = pending w ++ [ThenExit (promisesOf true (killers w))]
    /\ cleanupInstalled w1 = false
    /\ exited w1 = false
    /\ (forall w2 w3 n promises,
          nth_error (pending w2) n = Some (ThenExit promises) ->
          step cfg ipc listens w2 (Resume n) = Some w3 ->
          settledAll promises w2 = true /\ exited w3 = true)
    /\ (forall w2 w3 again,
          cleanupInstalled w2 = false ->
          step cfg ipc listens w2 (Signalled again) = Some w3 ->
          journal w3 = journal w2 /\ pending w3 = pending w2)
    /\ (forall es w2,
          exec cfg ipc listens initial es = Some w2 ->
          shutdowns (journal w2) <= 1).
Proof.
  intros Hrunning Hinstalled. exists (cleanupHandler (Some signal) w).
  unfold step. rewrite Hrunning, Hinstalled. split; [reflexivity|].
  split; [apply journal_cleanupHandler|].
  pose proof (mgr_cleanupHandler (Some signal) w) as H. mgr_fields H.
  rewrite Hrunning in Hex.
  split; [exact Hpd|]. split; [exact Hci|]. split; [exact Hex|].
  split; [|split].
  - intros w2 w3 n promises Hn Hstep.
    destruct (exited w2); [discriminate|]. rewrite Hn in Hstep.
    cbn [ready] in Hstep.
    destruct (settledAll promises w2); [|discriminate].
    injection Hstep as <-. split; reflexivity.
  - intros w2 w3 again Hci2 Hstep.
    destruct (exited w2); [discriminate|]. rewrite Hci2 in Hstep.
    injection Hstep as <-. split; reflexivity.
  - intros es w2 Hexec.
    apply (cleanup_runs_at_most_once es initial w2); [reflexivity|exact Hexec].
Qed.

End Manager.

(** ** The line handler as a whole *)

Section LineHandler.

Variable cfg : Args.
Variable ipc : bool.
Variables deleteClear manipulate : string -> string.
Variable detectState : string -> DetectedState.

(** Lines 111-118 only choose the text that is classified and print it:
    what the tracker does on a line of input is what it does on the
    classification of the cleaned text. *)
Lemma onLine_tracks_classification (input : string) (w : World) :
  let state :=
    detectState (manipulate (if noClear cfg then deleteClear input else input))
  in
  view (onLine cfg ipc deleteClear manipulate detectState input w)
  = view (onState cfg ipc state w)
  /\ mgr (onLine cfg ipc deleteClear manipulate detectState input w)
     = mgr (onState cfg ipc state w).
Proof.
  cbv zeta. unfold onLine, andThen, when, skip.
  set (state := detectState _).
  destruct (silent cfg); cbn [negb]; [split; reflexivity|].
  set (w1 := record _ w).
  assert (Hv : view w1 = view w).
  { unfold view, w1, record. cbn [firstTime compilationErrorSinceStart journal
                                    channel set_journal].
    rewrite calls_app. cbn. rewrite app_nil_r. reflexivity. }
  assert (Hm : mgr w1 = mgr w) by reflexivity.
  unfold view in Hv.
  assert (Hft : firstTime w1 = firstTime w) by congruence.
  assert (Hfl : compilationErrorSinceStart w1 = compilationErrorSinceStart w)
    by congruence.
  assert (Hcl : calls (journal w1) = calls (journal w)) by congruence.
  assert (Hch : channel w1 = channel w) by congruence.
  split.
  - rewrite !view_onState, Hft, Hfl, Hcl, Hch. reflexivity.
  - rewrite !mgr_onState, !trace_lineCalls, Hft, Hfl. unfold restarts, slotOf.
    reflexivity.
Qed.

End LineHandler.

(** ** Start-up *)

(** C8, as the code has it.  When the compiler cannot be resolved because
    the module is missing, the message is printed and the script exits
    with status 9: the compiler is not spawned and no handler is
    registered.  A resolution error of another kind is thrown on and halts
    the start-up as well, with nothing printed by the script.  Start-up
    halts in no other case. *)
Theorem startup_halts_when_resolution_fails (resolve : string -> ResolveResult)
  (cfg : Args) (listens : bool) :
  match resolve (compiler cfg) with
  | ResolveError code message =>
      if code =? "MODULE_NOT_FOUND" then
        main resolve cfg listens = ([ConsoleError message], Exits 9)
      else
        main resolve cfg listens = ([], Throws code message)
  | Resolved tscBin =>
      exists params,
        main resolve cfg listens
        = (SpawnNode params :: CreateInterface :: ListenLine
             :: (if listens then [ListenMessage] else []) ++ [InstallCleanup],
           Returned initial)
        /\ In tscBin params
  end
  /\ (halted (snd (main resolve cfg listens)) = true
      <-> exists code message, resolve (compiler cfg) = ResolveError code message).
Proof.
  unfold main, buildNodeParams.
  destruct (resolve (compiler cfg)) as [tscBin|code message].
  - split.
    + eexists. split; [reflexivity|]. apply in_or_app. right. left. reflexivity.
    + cbn. split; [discriminate|]. intros (code & message & H). discriminate H.
  - destruct (code =? "MODULE_NOT_FOUND"); cbn; (split; [reflexivity|]);
      (split; [intros _; eauto | reflexivity]).
Qed.

(** ** The properties on sample runs *)

Lemma completion_has_one_outcome_witness :
  exists before outcome,
    trace serverArgs true doneLine
      (processLines serverArgs true initial [startLine; errorLine])
    = before ++ RunHook CompilationComplete :: outcome
    /\ outcome = [Emit "compile_errors"; RunHook Failure].
Proof.
  destruct (completion_has_one_outcome serverArgs true [startLine; errorLine]
              doneLine initial eq_refl eq_refl)
    as (before & outcome & Ht & _ & _ & _ & Hout).
  exists before, outcome. split; [exact Ht|].
  change (compilationErrorSinceStart
            (onState serverArgs true doneLine
               (processLines serverArgs true initial [startLine; errorLine])))
    with true in Hout.
  exact (proj1 Hout).
Defined.

Lemma completion_without_start_witness :
  events (trace serverArgs true doneLine
            (processLines serverArgs true initial [emitLine]))
  = ["first_success"; "success"].
Proof.
  destruct (completion_without_start serverArgs true doneLine initial
              eq_refl eq_refl) as (_ & _ & H).
  exact (proj1 (H [emitLine] eq_refl eq_refl)).
Defined.

Lemma events_follow_line_order_witness :
  channel (processLines serverArgs true initial
             [startLine; emitLine; errorLine; doneLine])
  = ["started"; "file_emitted:dist/a.js"; "compile_errors"].
Proof.
  refine (proj2 (events_follow_line_order serverArgs true
                   [startLine; emitLine; errorLine; doneLine] initial _)).
  repeat constructor.
Defined.

Lemma start_and_completion_on_one_line_witness :
  compilationErrorSinceStart
    (onState serverArgs true startDoneLine
       (worldAfter serverArgs [Line startLine; Line errorLine]))
  = false.
Proof.
  exact (proj1 (start_and_completion_on_one_line serverArgs true startDoneLine
                  (worldAfter serverArgs [Line startLine; Line errorLine])
                  eq_refl eq_refl)).
Defined.

Lemma rapidRuns_possible :
  exec serverArgs true true initial rapidRuns
  = Some (worldAfter serverArgs rapidRuns).
Proof. vm_compute. reflexivity. Qed.

Lemma firstRun_possible :
  exec serverArgs true true initial firstRun
  = Some (worldAfter serverArgs firstRun).
Proof. vm_compute. reflexivity. Qed.

Lemma firstRun_then_signal :
  step serverArgs true true (worldAfter serverArgs firstRun) (Signalled "SIGINT")
  = Some (worldAfter serverArgs (firstRun ++ [Signalled "SIGINT"])).
Proof. vm_compute. reflexivity. Qed.

Lemma firstRun_running :
  exited (worldAfter serverArgs firstRun) = false
  /\ cleanupInstalled (worldAfter serverArgs firstRun) = true.
Proof. vm_compute. split; reflexivity. Qed.

Lemma calmRuns_serial :
  serial serverArgs true true Success initial calmRuns = true.
Proof. vm_compute. reflexivity. Qed.

Lemma event_messages_witness :
  Forall isEventMessage (channel (worldAfter serverArgs rapidRuns)).
Proof.
  exact (proj1 (proj2 (event_messages_are_the_five_payloads serverArgs true true
                         rapidRuns (worldAfter serverArgs rapidRuns)
                         rapidRuns_possible))).
Defined.

(** The sample run with overlapping restarts ends with nothing suspended,
    two servers alive, and only the second of them known to the script. *)
Example rapid_runs_end :
  let w := worldAfter serverArgs rapidRuns in
  exec serverArgs true true initial rapidRuns = Some w
  /\ pending w = []
  /\ map inv_pid (aliveOf Success w) = [1; 2]
  /\ successKiller (killers w) = Some 2.
Proof. vm_compute. repeat split. Qed.

(** C4 as stated fails: restarts of one hook do overlap, and then two
    invocations of its command are alive. *)
Lemma overlapping_restarts_leave_two_alive :
  ~ (forall cfg ipc listens k es w,
        exec cfg ipc listens initial es = Some w ->
        length (aliveOf k w) <= 1).
Proof.
  intros H.
  specialize (H serverArgs true true Success rapidRuns
                (worldAfter serverArgs rapidRuns) rapidRuns_possible).
  vm_compute in H. lia.
Qed.

Lemma calmRuns_possible :
  exec serverArgs true true initial (firstn 14 calmRuns)
  = Some (worldAfter serverArgs calmRuns).
Proof. vm_compute. reflexivity. Qed.

Lemma one_invocation_witness :
  length (aliveOf Success (worldAfter serverArgs calmRuns)) <= 1.
Proof.
  exact (proj1 (one_invocation_when_restarts_do_not_overlap serverArgs true true
                  Success calmRuns calmRuns_serial)
           14 (worldAfter serverArgs calmRuns) calmRuns_possible).
Defined.

(** C6 as stated fails: the compiler is terminated before the hooks are
    asked to. *)
Lemma compiler_is_terminated_before_hooks :
  ~ (forall cfg ipc listens es w signal w1,
        exec cfg ipc listens initial es = Some w ->
        step cfg ipc listens w (Signalled signal) = Some w1 ->
        hooksKilledFirst (journal w1) = true).
Proof.
  intros H.
  specialize (H serverArgs true true firstRun (worldAfter serverArgs firstRun)
                "SIGINT" _ firstRun_possible firstRun_then_signal).
  vm_compute in H. discriminate H.
Qed.

Lemma shutdown_witness :
  exists w1,
    step serverArgs true true (worldAfter serverArgs firstRun)
      (Signalled "SIGINT") = Some w1
    /\ skipn 8 (journal w1) = [KillTsc (Some "SIGINT"); KillReq 0; Uninstall].
Proof.
  destruct (shutdown_terminates_compiler_then_hooks serverArgs true true
              (worldAfter serverArgs firstRun) "SIGINT"
              (proj1 firstRun_running) (proj2 firstRun_running))
    as (w1 & Hstep & Hj & _).
  exists w1. split; [exact Hstep|]. rewrite Hj. vm_compute. reflexivity.
Defined.

(** C8 as stated fails: a resolution error that is not a missing module
    halts the start-up without the message and without status 9. *)
Lemma other_resolution_errors_halt_too :
  ~ (forall resolve cfg listens,
        halted (snd (main resolve cfg listens)) = true ->
        exists message,
          main resolve cfg listens = ([ConsoleError message], Exits 9)).
Proof.
  intros H.
  destruct (H resolveNotExported serverArgs true eq_refl) as [message Hm].
  discriminate Hm.
Qed.

Example startup_with_missing_compiler :
  main resolveMissing serverArgs true
  = ([ConsoleError "Cannot find module 'typescript/bin/tsc'"], Exits 9).
Proof. reflexivity. Qed.

(** The example of the specification's section 8: a completion before any
    start, then a failed compilation.  The first completion also sends
    [first_success]. *)
Example messages_of_the_example_lines :
  channel (processLines serverArgs true initial
             [doneLine; startLine; errorLine; doneLine])
  = ["first_success"; "success"; "started"; "compile_errors"]
  /\ hooks (journal (processLines serverArgs true initial
                       [doneLine; startLine; errorLine; doneLine]))
     = [CompilationComplete; FirstSuccess; Success; CompilationStarted;
        CompilationComplete; Failure].
Proof. vm_compute. split; reflexivity. Qed.

(** Two completions in one chunk of output, before any server runs: both
    restarts find the variable empty and both spawn. *)
Example two_completions_at_once :
  let w := worldAfter serverArgs
             [Line doneLine; Line doneLine; Resume 0; Resume 0; Resume 0;
              Resume 0] in
  map inv_pid (aliveOf Success w) = [0; 1]
  /\ successKiller (killers w) = Some 1
  /\ pending w = [].
Proof. vm_compute. repeat split. Qed.

(** * Further properties of the script *)

(** ** The tracker *)

Section MoreTracker.

Variable cfg : Args.
Variable ipc : bool.

(** X1.  A line that matches no pattern changes nothing at all: no flag,
    no message, no hook, no journal entry; so does any sequence of such
    lines. *)
Theorem unmarked_lines_change_nothing (lines : list DetectedState) (w : World) :
  forallb unmarked lines = true ->
  processLines cfg ipc w lines = w.
Proof.
  induction lines as [|state rest IH]; intros H; [reflexivity|].
  cbn [forallb] in H. apply andb_true_iff in H as [Hs Hrest].
  rewrite processLines_cons.
  assert (Hone : onState cfg ipc state w = w).
  { destruct state as [s e c f]. unfold unmarked, unremarkable in Hs.
    cbn in Hs. destruct s, e, c, f; try discriminate Hs.
    destruct w as [ft fl ks ps np pd ch j ci ex]. destruct fl; reflexivity. }
  rewrite Hone. exact (IH Hrest).
Qed.

Lemma view_processLines_congr (cfg1 cfg2 : Args) (lines : list DetectedState)
  (w1 w2 : World) :
  view w1 = view w2 ->
  view (processLines cfg1 ipc w1 lines) = view (processLines cfg2 ipc w2 lines).
Proof.
  revert w1 w2. induction lines as [|state rest IH]; intros w1 w2 H;
    [exact H|].
  rewrite !processLines_cons. apply IH. rewrite !view_onState.
  unfold view in H.
  assert (H1 : firstTime w1 = firstTime w2) by congruence.
  assert (H2 : compilationErrorSinceStart w1 = compilationErrorSinceStart w2)
    by congruence.
  assert (H3 : calls (journal w1) = calls (journal w2)) by congruence.
  assert (H4 : channel w1 = channel w2) by congruence.
  rewrite H1, H2, H3, H4. reflexivity.
Qed.

(** X2.  The flags, the messages sent and the hooks triggered by a
    sequence of lines are the same whatever commands are configured. *)
Theorem tracking_does_not_depend_on_commands (cfg1 cfg2 : Args)
  (lines : list DetectedState) :
  view (processLines cfg1 ipc initial lines)
  = view (processLines cfg2 ipc initial lines)
  /\ events (journal (processLines cfg1 ipc initial lines))
     = events (journal (processLines cfg2 ipc initial lines))
  /\ hooks (journal (processLines cfg1 ipc initial lines))
     = hooks (journal (processLines cfg2 ipc initial lines)).
Proof.
  pose proof (view_processLines_congr cfg1 cfg2 lines initial initial eq_refl)
    as H.
  split; [exact H|]. unfold view in H.
  assert (Hc : calls (journal (processLines cfg1 ipc initial lines))
               = calls (journal (processLines cfg2 ipc initial lines)))
    by congruence.
  rewrite <- !(events_calls (journal (processLines _ _ _ _))),
    <- !(hooks_calls (journal (processLines _ _ _ _))), Hc.
  split; reflexivity.
Qed.

Ltac count_messages :=
  unfold hookOcc; cbn [events hooks flat_map app count_occ];
  repeat (rewrite occ_cons; cbn [String.eqb Ascii.eqb Bool.eqb]);
  rewrite ?occ_nil; cbn.

Lemma marker_counts_of_line (state : DetectedState) (w : World) :
  let t := trace cfg ipc state w in
  let b := fun x : bool => if x then 1 else 0 in
  occ "success" (events t) + occ "compile_errors" (events t)
  = b (compilationComplete state)
  /\ occ "started" (events t) = b (compilationStarted state)
  /\ hookOcc CompilationComplete (hooks t) = b (compilationComplete state)
  /\ hookOcc CompilationStarted (hooks t) = b (compilationStarted state)
  /\ hookOcc Success (hooks t) = occ "success" (events t)
  /\ hookOcc Failure (hooks t) = occ "compile_errors" (events t).
Proof.
  cbv zeta. rewrite trace_lineCalls. destruct state as [s e c f].
  unfold lineCalls, fileCalls, outcomeCalls.
  cbn [compilationStarted compilationError compilationComplete fileEmitted].
  destruct (firstTime w), (compilationErrorSinceStart w), s, e, c, f as [path|];
    cbn [negb andb orb app]; repeat split; count_messages; reflexivity.
Qed.

(** X3.  Over any sequence of lines, every completion line is reported by
    exactly one of [success] and [compile_errors], every start line by one
    [started]; each of these goes with one trigger of the matching hook, and
    the compilationComplete and compilationStarted hooks are triggered once
    per such line. *)
Theorem every_marker_is_reported_once (lines : list DetectedState) :
  let j := journal (processLines cfg ipc initial lines) in
  occ "success" (events j) + occ "compile_errors" (events j)
  = length (filter compilationComplete lines)
  /\ occ "started" (events j) = length (filter compilationStarted lines)
  /\ hookOcc CompilationComplete (hooks j)
     = length (filter compilationComplete lines)
  /\ hookOcc CompilationStarted (hooks j)
     = length (filter compilationStarted lines)
  /\ hookOcc Success (hooks j) = occ "success" (events j)
  /\ hookOcc Failure (hooks j) = occ "compile_errors" (events j).
Proof.
  cbv zeta.
  rewrite <- (events_calls (journal _)), <- (hooks_calls (journal _)),
    calls_processLines.
  cbn [initial journal calls filter app].
  generalize initial as w.
  induction lines as [|state rest IH]; intros w.
  - repeat split; reflexivity.
  - cbn [perLineCalls concat filter].
    rewrite events_app, hooks_app, !occ_app, !hookOcc_app.
    destruct (marker_counts_of_line state w) as (M1 & M2 & M3 & M4 & M5 & M6).
    destruct (IH (onState cfg ipc state w)) as (I1 & I2 & I3 & I4 & I5 & I6).
    rewrite M2, M3, M4, M5, M6, I2, I3, I4, I5, I6.
    destruct (compilationComplete state), (compilationStarted state);
      cbn [length]; repeat split; lia.
Qed.

End MoreTracker.

(** ** Lines, messages and what is printed *)

Section MoreHandlers.

Variable cfg : Args.
Variable ipc : bool.
Variable listens : bool.

(** X4.  Of all events only a line changes the tracker's flags, sends a
    message or reaches the channel: messages from the parent, signals,
    exits of hook processes and resumed restarts leave all of it as it
    is. *)
Theorem only_lines_reach_the_tracker (w w' : World) (e : Event) :
  step cfg ipc listens w e = Some w' ->
  (forall state, e <> Line state) ->
  firstTime w' = firstTime w
  /\ compilationErrorSinceStart w' = compilationErrorSinceStart w
  /\ events (journal w') = events (journal w)
  /\ channel w' = channel w.
Proof.
  intros Hstep Hnot. pose proof (step_view cfg ipc listens w w' e Hstep) as Hv.
  assert (Hsame : forall extra,
             view w' = (firstTime w, compilationErrorSinceStart w,
                        calls (journal w) ++ extra, channel w) ->
             events extra = [] ->
             firstTime w' = firstTime w
             /\ compilationErrorSinceStart w' = compilationErrorSinceStart w
             /\ events (journal w') = events (journal w)
             /\ channel w' = channel w).
  { intros extra H Hx. unfold view in H.
    assert (Hc : calls (journal w') = calls (journal w) ++ extra) by congruence.
    repeat split; try congruence.
    rewrite <- (events_calls (journal w')), Hc, events_app, Hx, app_nil_r.
    apply events_calls. }
  assert (Hnil : view w' = view w ->
             firstTime w' = firstTime w
             /\ compilationErrorSinceStart w' = compilationErrorSinceStart w
             /\ events (journal w') = events (journal w)
             /\ channel w' = channel w).
  { intros H. apply (Hsame []); [|reflexivity].
    rewrite app_nil_r. exact H. }
  destruct e as [state|msg|signal|p|n]; try (apply Hnil; exact Hv).
  - exfalso. exact (Hnot state eq_refl).
  - destruct (nth_error (pending w) n) as [[k h o|k q|k o|ps]|];
      try (apply Hnil; exact Hv).
    apply (Hsame [RunHook k]); [exact Hv|reflexivity].
Qed.

(** X5.  Each of the five hooks is named by exactly one message token.
    Any other message touches no hook and no flag; it is only logged. *)
Theorem message_tokens_name_the_hooks :
  (forall k, exists msg, hookOfMessage msg = Some k)
  /\ (forall m1 m2 k,
        hookOfMessage m1 = Some k -> hookOfMessage m2 = Some k -> m1 = m2)
  /\ (forall msg w,
        hookOfMessage msg = None ->
        mgr (onMessage msg w) = mgr w
        /\ view (onMessage msg w) = view w
        /\ journal (onMessage msg w)
           = journal w ++ [ConsoleLog "Unknown message" msg]).
Proof.
  split; [|split].
  - intros [].
    + exists "run-on-first-success-command". reflexivity.
    + exists "run-on-success-command". reflexivity.
    + exists "run-on-failure-command". reflexivity.
    + exists "run-on-compilation-started-command". reflexivity.
    + exists "run-on-compilation-complete-command". reflexivity.
  - intros m1 m2 k H1 H2. unfold hookOfMessage in H1, H2.
    repeat match goal with
           | H : context [String.eqb ?m ?t] |- _ =>
               destruct (String.eqb_spec m t)
           end; subst; congruence.
  - intros msg w Hnone. pose proof (mgr_onMessage msg w) as Hm.
    rewrite Hnone, app_nil_r in Hm.
    split; [exact Hm|]. split; [apply tracker_view_onMessage|].
    unfold onMessage. rewrite Hnone. reflexivity.
Qed.

Lemma appends_skip : appends skip.
Proof. intros w. exists []. rewrite app_nil_r. split; reflexivity. Qed.

Lemma appends_andThen (a b : Act) : appends a -> appends b -> appends (a ;; b).
Proof.
  intros Ha Hb w. unfold andThen.
  destruct (Ha w) as (d1 & E1 & F1). destruct (Hb (a w)) as (d2 & E2 & F2).
  exists (d1 ++ d2). rewrite E2, E1, <- app_assoc, forallb_app, F1, F2.
  split; reflexivity.
Qed.

Lemma appends_when (c : bool) (a : Act) : appends a -> appends (when c a).
Proof. intros Ha. destruct c; [exact Ha|exact appends_skip]. Qed.

Lemma appends_test (f : World -> bool) (a b : Act) :
  appends a -> appends b -> appends (fun w => if f w then a w else b w).
Proof. intros Ha Hb w. destruct (f w); [apply Ha|apply Hb]. Qed.

Lemma appends_send (s : string) : appends (Signal.send ipc s).
Proof.
  intros w. exists [Emit s]. unfold Signal.send, andThen, record, skip.
  destruct ipc; split; reflexivity.
Qed.

Lemma appends_runOn (k : HookKind) : appends (runOn cfg k).
Proof.
  intros w. rewrite journal_runOn. eexists. split; [reflexivity|].
  destruct (command cfg k); [destruct (slotOf k w)|]; reflexivity.
Qed.

Lemma appends_onState (state : DetectedState) : appends (onState cfg ipc state).
Proof.
  unfold onState, runOnCompilationStarted, runOnCompilationComplete,
    runOnFailureCommand, runOnFirstSuccessCommand, runOnSuccessCommand,
    Signal.emitFile, Signal.emitStarted, Signal.emitFail,
    Signal.emitFirstSuccess, Signal.emitSuccess.
  apply appends_andThen.
  { intros w. exists []. rewrite app_nil_r. split; reflexivity. }
  apply appends_andThen.
  { destruct (fileEmitted state); [apply appends_send|apply appends_skip]. }
  apply appends_andThen.
  { apply appends_when, appends_andThen; [apply appends_runOn|apply appends_send]. }
  apply appends_when, appends_andThen; [apply appends_runOn|].
  apply (appends_test compilationErrorSinceStart).
  - apply appends_andThen; [apply appends_send|apply appends_runOn].
  - apply appends_andThen.
    + apply (appends_test firstTime
               (set_firstTime false ;; Signal.send ipc "first_success"
                  ;; runOn cfg FirstSuccess) (fun w => w)).
      * apply appends_andThen.
        { intros w. exists []. rewrite app_nil_r. split; reflexivity. }
        apply appends_andThen; [apply appends_send|apply appends_runOn].
      * exact appends_skip.
    + apply appends_andThen; [apply appends_send|apply appends_runOn].
Qed.

Lemma printed_app (a b : list Effect) : printed (a ++ b) = printed a ++ printed b.
Proof. apply flat_map_app. Qed.

Lemma printed_handlerEffects (d : list Effect) :
  forallb handlerEffect d = true -> printed d = [].
Proof.
  induction d as [|e d IH]; [reflexivity|]. cbn [forallb]. intros H.
  apply andb_true_iff in H as [He Hd].
  destruct e; try discriminate He; exact (IH Hd).
Qed.

Section Printing.

Variables deleteClear manipulate : string -> string.
Variable detectState : string -> DetectedState.

(** X6.  A line of output is printed once, before anything it causes, as
    the text cleaned by [deleteClear] (under noClear) and [manipulate];
    under silent it is not printed.  The display options change nothing
    else: flags, messages, hook triggers and suspended restarts are those
    of the classification of the cleaned text. *)
Theorem line_is_printed_then_tracked (input : string) (w : World) :
  let line := manipulate (if noClear cfg then deleteClear input else input) in
  let w' := onLine cfg ipc deleteClear manipulate detectState input w in
  (exists d,
      journal w'
      = journal w
          ++ (if silent cfg then []
              else [PrintLine (noColors cfg) (noClear cfg) line])
          ++ d
      /\ forallb handlerEffect d = true)
  /\ printed (journal w')
     = printed (journal w) ++ (if silent cfg then [] else [line])
  /\ view w' = view (onState cfg ipc (detectState line) w)
  /\ mgr w' = mgr (onState cfg ipc (detectState line) w).
Proof.
  cbv zeta.
  set (line := manipulate (if noClear cfg then deleteClear input else input)).
  assert (Hj : exists d,
             journal (onLine cfg ipc deleteClear manipulate detectState input w)
             = journal w
                 ++ (if silent cfg then []
                     else [PrintLine (noColors cfg) (noClear cfg) line])
                 ++ d
             /\ forallb handlerEffect d = true).
  { unfold onLine, andThen, when, skip. fold line.
    destruct (silent cfg); cbn [negb].
    - apply appends_onState.
    - destruct (appends_onState (detectState line)
                  (record (PrintLine (noColors cfg) (noClear cfg) line) w))
        as (d & E & F).
      exists d. split; [|exact F]. rewrite E. unfold record.
      cbn [journal set_journal]. rewrite <- app_assoc. reflexivity. }
  split; [exact Hj|]. split.
  - destruct Hj as (d & E & F). rewrite E, !printed_app,
      (printed_handlerEffects d F), app_nil_r.
    destruct (silent cfg); reflexivity.
  - exact (onLine_tracks_classification cfg ipc deleteClear manipulate
             detectState input w).
Qed.

End Printing.

End MoreHandlers.

(** ** What is spawned *)

(** The six fields of an equation between manager views. *)
Ltac mgr_fields H :=
  pose proof (f_equal (fun m => fst (fst (fst (fst (fst m))))) H) as Hks;
  pose proof (f_equal (fun m => snd (fst (fst (fst (fst m))))) H) as Hps;
  pose proof (f_equal (fun m => snd (fst (fst (fst m)))) H) as Hnp;
  pose proof (f_equal (fun m => snd (fst (fst m))) H) as Hpd;
  pose proof (f_equal (fun m => snd (fst m)) H) as Hci;
  pose proof (f_equal (fun m => snd m) H) as Hex;
  cbv beta in Hks, Hps, Hnp, Hpd, Hci, Hex;
  unfold mgr, addRestart in Hks, Hps, Hnp, Hpd, Hci, Hex;
  cbn [fst snd] in Hks, Hps, Hnp, Hpd, Hci, Hex;
  clear H.

Section MoreSpawning.

Variable cfg : Args.
Variable ipc : bool.
Variable listens : bool.

(** The cases of [step]. *)
Lemma step_cases (w w' : World) (e : Event) :
  step cfg ipc listens w e = Some w' ->
  exited w = false
  /\ match e with
     | Line state => w' = onState cfg ipc state w
     | Message msg => w' = when listens (onMessage msg) w
     | Signalled signal =>
         w' = if cleanupInstalled w then cleanupHandler (Some signal) w
              else set_exited true w
     | ProcExit p =>
         isAlive p w = true
         /\ w' = set_procs
                   (filter (fun i => negb (Nat.eqb (inv_pid i) p)) (procs w)) w
     | Resume n =>
         exists t,
           nth_error (pending w) n = Some t /\ ready t w = true
           /\ w' = resume cfg t (set_pending (dropNth n (pending w)) w)
     end.
Proof.
  unfold step. destruct (exited w); [discriminate|]. intros H.
  split; [reflexivity|].
  destruct e as [state|msg|signal|p|n].
  - congruence.
  - congruence.
  - destruct (cleanupInstalled w); congruence.
  - destruct (isAlive p w); [split; congruence|discriminate].
  - destruct (nth_error (pending w) n) as [t|]; [|discriminate].
    destruct (ready t w) eqn:Hr; [|discriminate].
    exists t. repeat split; congruence.
Qed.

Lemma In_dropNth {A : Type} (x : A) (l : list A) (n : nat) :
  In x (dropNth n l) -> In x l.
Proof.
  revert n. induction l as [|y r IH]; intros n H; [destruct n; exact H|].
  destruct n as [|m]; cbn in H; [right; exact H|].
  destruct H as [->|H]; [left; reflexivity|right; exact (IH m H)].
Qed.

Lemma in_restarts (w : World) (ks : list HookKind) (t : Task) :
  In t (restarts cfg w ks) ->
  exists k h, t = AwaitKill k h (slotOf k w) /\ command cfg k = Some h.
Proof.
  unfold restarts. intros H. apply in_flat_map in H as (k & _ & H).
  destruct (command cfg k) as [h|] eqn:E; [|destruct H].
  destruct H as [<-|[]]. exists k, h. split; [reflexivity|exact E].
Qed.

Lemma Configured_initial : Configured cfg initial.
Proof.
  split; cbn.
  - intros i [].
  - intros k h o [].
  - intros k p [].
  - intros k p. destruct k; discriminate.
Qed.

(** The pending computations grow by [extra]; nothing else changes. *)
Lemma Configured_grow (w w' : World) (extra : list Task) :
  killers w' = killers w -> procs w' = procs w ->
  pending w' = pending w ++ extra ->
  (forall t, In t extra ->
             match t with
             | AwaitKill k h _ => command cfg k = Some h
             | AwaitRestart k _ => command cfg k <> None
             | _ => True
             end) ->
  Configured cfg w -> Configured cfg w'.
Proof.
  intros Hk Hp Hpd Hx [C1 C2 C3 C4]. split.
  - rewrite Hp. exact C1.
  - intros k h o Hin. rewrite Hpd in Hin. apply in_app_or in Hin as [Hin|Hin].
    + exact (C2 k h o Hin).
    + exact (Hx _ Hin).
  - intros k p Hin. rewrite Hpd in Hin. apply in_app_or in Hin as [Hin|Hin].
    + exact (C3 k p Hin).
    + exact (Hx _ Hin).
  - intros k p. unfold slotOf. rewrite Hk. exact (C4 k p).
Qed.

Lemma Configured_step (w w' : World) (e : Event) :
  step cfg ipc listens w e = Some w' ->
  Configured cfg w -> Configured cfg w'.
Proof.
  intros Hstep HC. destruct (step_cases w w' e Hstep) as [_ Hcase].
  destruct e as [state|msg|signal|p|n].
  - subst w'. pose proof (mgr_onState cfg ipc state w) as H. mgr_fields H.
    apply (Configured_grow w _ _ Hks Hps Hpd); [|exact HC].
    intros t Hin. destruct (in_restarts w _ t Hin) as (k & h & -> & E). exact E.
  - subst w'. unfold when. destruct listens; [|exact HC].
    pose proof (mgr_onMessage msg w) as H. mgr_fields H.
    apply (Configured_grow w _ _ Hks Hps Hpd); [|exact HC].
    intros t Hin. destruct (hookOfMessage msg); [|destruct Hin].
    destruct Hin as [<-|[]]. exact I.
  - subst w'. destruct (cleanupInstalled w).
    + pose proof (mgr_cleanupHandler (Some signal) w) as H. mgr_fields H.
      apply (Configured_grow w _ _ Hks Hps Hpd); [|exact HC].
      intros t [<-|[]]. exact I.
    + apply (Configured_grow w _ []); try reflexivity; [|intros t []|exact HC].
      cbn. rewrite app_nil_r. reflexivity.
  - destruct Hcase as [_ ->]. destruct HC as [C1 C2 C3 C4].
    split; cbn [procs pending set_procs]; try assumption.
    intros i Hi. apply filter_In in Hi as [Hi _]. exact (C1 i Hi).
  - destruct Hcase as (t & Hn & _ & ->).
    set (w1 := set_pending (dropNth n (pending w)) w).
    assert (HC1 : Configured cfg w1).
    { destruct HC as [C1 C2 C3 C4]. split; cbn [procs pending set_pending w1].
      - exact C1.
      - intros k h o Hin. exact (C2 k h o (In_dropNth _ _ _ Hin)).
      - intros k p Hin. exact (C3 k p (In_dropNth _ _ _ Hin)).
      - exact C4. }
    pose proof (nth_error_In _ _ Hn) as Hin.
    pose proof (mgr_resume cfg t w1) as H.
    destruct t as [k h o|k p|k o|ps]; mgr_fields H.
    + destruct HC1 as [C1 C2 C3 C4].
      pose proof (cfg_waiting cfg w HC k h o Hin) as Ecmd.
      split.
      * rewrite Hps. intros i Hi. apply in_app_or in Hi as [Hi|[<-|[]]].
        -- exact (C1 i Hi).
        -- exact Ecmd.
      * rewrite Hpd. intros k' h' o' Hi. apply in_app_or in Hi as [Hi|[Hi|[]]].
        -- exact (C2 k' h' o' Hi).
        -- discriminate Hi.
      * rewrite Hpd. intros k' p' Hi. apply in_app_or in Hi as [Hi|[Hi|[]]].
        -- exact (C3 k' p' Hi).
        -- injection Hi as <- _. rewrite Ecmd. discriminate.
      * intros k' p'. unfold slotOf. rewrite Hks. exact (C4 k' p').
    + destruct HC1 as [C1 C2 C3 C4].
      pose proof (cfg_storing cfg w HC k p Hin) as Ecmd.
      split.
      * rewrite Hps. exact C1.
      * rewrite Hpd. exact C2.
      * rewrite Hpd. exact C3.
      * intros k' p'. unfold slotOf. rewrite Hks.
        destruct (HookKind_eqb k k') eqn:E.
        -- apply HookKind_eqb_eq in E. subst k'. intros _. exact Ecmd.
        -- rewrite (getKiller_setKiller_other k' k _ _ E). exact (C4 k' p').
    + apply (Configured_grow w1 _ _ Hks Hps Hpd); [|exact HC1].
      intros t Ht. destruct (command cfg k) as [h|] eqn:E; [|destruct Ht].
      destruct Ht as [<-|[]]. exact E.
    + apply (Configured_grow w1 _ []); try assumption; [|intros t []].
      rewrite app_nil_r. exact Hpd.
Qed.

Lemma Configured_exec (es : list Event) (w w' : World) :
  exec cfg ipc listens w es = Some w' ->
  Configured cfg w -> Configured cfg w'.
Proof.
  revert w. induction es as [|e es IH]; intros w Hexec HC.
  - injection Hexec as <-. exact HC.
  - cbn [exec] in Hexec.
    destruct (step cfg ipc listens w e) as [w1|] eqn:Hstep; [|discriminate].
    exact (IH w1 Hexec (Configured_step w w1 e Hstep HC)).
Qed.

(** X7.  Whatever happens, every hook process alive runs the command
    configured for its hook; a hook without a command has no invocation
    alive and its killer variable stays empty, also when a message asks
    for it to be run. *)
Theorem only_configured_commands_run (es : list Event) (w : World) :
  exec cfg ipc listens initial es = Some w ->
  (forall i, In i (procs w) -> command cfg (inv_kind i) = Some (inv_cmd i))
  /\ (forall k, command cfg k = None ->
                aliveOf k w = [] /\ slotOf k w = None).
Proof.
  intros Hexec.
  pose proof (Configured_exec es initial w Hexec Configured_initial)
    as [C1 C2 C3 C4].
  split; [exact C1|]. intros k Hnone. split.
  - unfold aliveOf. destruct (filter _ (procs w)) as [|i r] eqn:E;
      [reflexivity|exfalso].
    assert (Hi : In i (filter (fun i => HookKind_eqb (inv_kind i) k) (procs w)))
      by (rewrite E; left; reflexivity).
    apply filter_In in Hi as [Hi Hk]. apply HookKind_eqb_eq in Hk.
    specialize (C1 i Hi). rewrite Hk, Hnone in C1. discriminate C1.
  - destruct (slotOf k w) as [p|] eqn:E; [|reflexivity].
    exfalso. exact (C4 k p E Hnone).
Qed.

End MoreSpawning.

(** ** Triggers and spawns *)

Section MoreAccounting.

Variable cfg : Args.
Variable ipc : bool.
Variable listens : bool.

Lemma noSpawn_handlerEffects (d : list Effect) :
  forallb handlerEffect d = true -> noSpawn d = true.
Proof.
  unfold noSpawn. induction d as [|e d IH]; [reflexivity|]. cbn [forallb].
  intros H. apply andb_true_iff in H as [He Hd]. rewrite (IH Hd).
  destruct e; try discriminate He; reflexivity.
Qed.

Lemma noSpawn_killReqs (promises : list (option pid)) :
  noSpawn (flat_map killReqs promises) = true.
Proof.
  induction promises as [|[p|] r IH]; cbn; [reflexivity| exact IH | exact IH].
Qed.

Lemma spawnsOf_app (k : HookKind) (a b : list Effect) :
  spawnsOf k (a ++ b) = spawnsOf k a + spawnsOf k b.
Proof. unfold spawnsOf. rewrite filter_app. apply length_app. Qed.

Lemma spawnsOf_noSpawn (k : HookKind) (d : list Effect) :
  noSpawn d = true -> spawnsOf k d = 0.
Proof.
  unfold noSpawn, spawnsOf. induction d as [|e d IH]; [reflexivity|].
  cbn [forallb filter]. intros H. apply andb_true_iff in H as [He Hd].
  destruct e; try discriminate He; exact (IH Hd).
Qed.

(** What a step writes to the journal: a spawn exactly when a restart
    that waited for its kill is resumed, and no spawn otherwise. *)
Lemma step_journal (w w' : World) (e : Event) :
  step cfg ipc listens w e = Some w' ->
  exists d,
    journal w' = journal w ++ d
    /\ match e with
       | Resume n =>
           match nth_error (pending w) n with
           | Some (AwaitKill k h _) => d = [Spawn (nextPid w) k h]
           | _ => noSpawn d = true
           end
       | _ => noSpawn d = true
       end.
Proof.
  intros Hstep. destruct (step_cases cfg ipc listens w w' e Hstep) as [_ Hcase].
  destruct e as [state|msg|signal|p|n].
  - subst w'. destruct (appends_onState cfg ipc state w) as (d & E & F).
    exists d. split; [exact E|exact (noSpawn_handlerEffects d F)].
  - subst w'. unfold when. destruct listens.
    + unfold onMessage, andThen, callKiller, suspend, record, skip.
      destruct (hookOfMessage msg) as [k|]; cbn [journal set_journal set_pending].
      * destruct (getKiller k (killers w)); cbn [journal set_journal set_pending].
        -- eexists. split; reflexivity.
        -- exists []. rewrite app_nil_r. split; reflexivity.
      * eexists. split; reflexivity.
    + exists []. rewrite app_nil_r. split; reflexivity.
  - subst w'. destruct (cleanupInstalled w).
    + rewrite journal_cleanupHandler. eexists. split; [reflexivity|].
      unfold noSpawn. cbn [forallb]. rewrite forallb_app.
      fold (noSpawn (flat_map killReqs (promisesOf true (killers w)))).
      rewrite noSpawn_killReqs. reflexivity.
    + exists []. rewrite app_nil_r. split; reflexivity.
  - destruct Hcase as [_ ->]. exists []. rewrite app_nil_r. split; reflexivity.
  - destruct Hcase as (t & Hn & _ & ->). rewrite Hn.
    destruct t as [k h o|k p|k o|ps]; cbn [resume].
    + eexists. split; reflexivity.
    + exists []. rewrite app_nil_r. split; reflexivity.
    + rewrite journal_runOn. cbn [journal set_pending]. eexists.
      split; [reflexivity|].
      destruct (command cfg k); [|reflexivity].
      destruct (slotOf k (set_pending (dropNth n (pending w)) w)); reflexivity.
    + eexists. split; reflexivity.
Qed.

(** The hooks a step triggers. *)
Lemma step_hooks (w w' : World) (e : Event) :
  step cfg ipc listens w e = Some w' ->
  hooks (journal w')
  = hooks (journal w)
      ++ match e with
         | Line state => hooks (trace cfg ipc state w)
         | Resume n =>
             match nth_error (pending w) n with
             | Some (ThenRun k _) => [k]
             | _ => []
             end
         | _ => []
         end.
Proof.
  intros Hstep. pose proof (step_view cfg ipc listens w w' e Hstep) as Hv.
  assert (Hx : forall extra,
             view w' = (firstTime w, compilationErrorSinceStart w,
                        calls (journal w) ++ extra, channel w) ->
             hooks (journal w') = hooks (journal w) ++ hooks extra).
  { intros extra H. unfold view in H.
    assert (Hc : calls (journal w') = calls (journal w) ++ extra) by congruence.
    rewrite <- (hooks_calls (journal w')), Hc, hooks_app, hooks_calls.
    reflexivity. }
  assert (Hnil : view w' = view w -> hooks (journal w') = hooks (journal w) ++ []).
  { intros H. apply (Hx []). rewrite app_nil_r. exact H. }
  destruct e as [state|msg|signal|p|n]; try (apply Hnil; exact Hv).
  - unfold view in Hv.
    assert (Hc : calls (journal w') = calls (journal (onState cfg ipc state w)))
      by congruence.
    rewrite <- (hooks_calls (journal w')), Hc, calls_onState, hooks_app,
      hooks_calls.
    reflexivity.
  - destruct (nth_error (pending w) n) as [[k h o|k q|k o|ps]|];
      try (apply Hnil; exact Hv).
    exact (Hx [RunHook k] Hv).
Qed.

Lemma hookOcc_cons (k k' : HookKind) (ks : list HookKind) :
  hookOcc k (k' :: ks) = (if HookKind_eqb k' k then 1 else 0) + hookOcc k ks.
Proof.
  unfold hookOcc. cbn. destruct (HookKind_dec k' k) as [E|E].
  - subst. rewrite HookKind_eqb_refl. reflexivity.
  - destruct (HookKind_eqb k' k) eqn:B; [|reflexivity].
    apply HookKind_eqb_eq in B. contradiction.
Qed.

Lemma waiting_restarts (k : HookKind) (w : World) (ks : list HookKind) :
  length (filter (isAwaitKill k) (restarts cfg w ks))
  = match command cfg k with
    | Some _ => hookOcc k ks
    | None => 0
    end.
Proof.
  unfold restarts. induction ks as [|k' ks IH].
  - destruct (command cfg k); reflexivity.
  - cbn [flat_map]. rewrite filter_app, length_app, IH, hookOcc_cons.
    destruct (HookKind_eqb k' k) eqn:B.
    + apply HookKind_eqb_eq in B. subst k'.
      destruct (command cfg k); cbn [filter isAwaitKill length];
        rewrite ?HookKind_eqb_refl; reflexivity.
    + destruct (command cfg k'), (command cfg k);
        cbn [filter isAwaitKill length]; rewrite ?B; reflexivity.
Qed.

Lemma length_filter_dropNth {A : Type} (P : A -> bool) (l : list A) (n : nat)
  (t : A) :
  nth_error l n = Some t ->
  length (filter P l)
  = (if P t then 1 else 0) + length (filter P (dropNth n l)).
Proof.
  revert n. induction l as [|x r IH]; intros n Hn; [destruct n; discriminate|].
  destruct n as [|m]; cbn [nth_error dropNth filter] in Hn |- *.
  - injection Hn as ->. destruct (P t); reflexivity.
  - pose proof (IH m Hn) as E. destruct (P x), (P t); cbn [length] in *; lia.
Qed.

(** The balance of a hook: spawns and restarts still waiting, against
    triggers. *)
Lemma balance_step (k : HookKind) (w w' : World) (e : Event) :
  step cfg ipc listens w e = Some w' ->
  Configured cfg w ->
  let due := fun v : World =>
               match command cfg k with
               | Some _ => hookOcc k (hooks (journal v))
               | None => 0
               end in
  spawnsOf k (journal w) + length (filter (isAwaitKill k) (pending w)) = due w ->
  spawnsOf k (journal w') + length (filter (isAwaitKill k) (pending w')) = due w'.
Proof.
  intros Hstep HC due Hw. subst due. cbv beta in Hw |- *.
  destruct (step_cases cfg ipc listens w w' e Hstep) as [_ Hcase].
  destruct (step_journal w w' e Hstep) as (d & Hj & Hd).
  pose proof (step_hooks w w' e Hstep) as Hh.
  rewrite Hh, Hj, spawnsOf_app, hookOcc_app.
  destruct e as [state|msg|signal|p|n].
  - subst w'. pose proof (mgr_onState cfg ipc state w) as H. mgr_fields H.
    rewrite Hpd, filter_app, length_app, waiting_restarts,
      (spawnsOf_noSpawn k d Hd).
    destruct (command cfg k); cbn [length hookOcc count_occ] in *; lia.
  - subst w'. rewrite (spawnsOf_noSpawn k d Hd). unfold when.
    destruct listens.
    + pose proof (mgr_onMessage msg w) as H. mgr_fields H.
      rewrite Hpd, filter_app, length_app.
      destruct (hookOfMessage msg); cbn [filter isAwaitKill length];
        destruct (command cfg k); cbn [length hookOcc count_occ] in *; lia.
    + unfold skip.
      destruct (command cfg k); cbn [length hookOcc count_occ] in *; lia.
  - subst w'. rewrite (spawnsOf_noSpawn k d Hd).
    destruct (cleanupInstalled w).
    + pose proof (mgr_cleanupHandler (Some signal) w) as H. mgr_fields H.
      rewrite Hpd, filter_app, length_app. cbn [filter isAwaitKill length].
      destruct (command cfg k); cbn [length hookOcc count_occ] in *; lia.
    + cbn [pending set_exited]. destruct (command cfg k); cbn [length hookOcc count_occ] in *; lia.
  - destruct Hcase as [_ ->]. rewrite (spawnsOf_noSpawn k d Hd).
    cbn [pending set_procs]. destruct (command cfg k); cbn [length hookOcc count_occ] in *; lia.
  - destruct Hcase as (t & Hn & _ & ->). rewrite Hn in Hd |- *.
    pose proof (length_filter_dropNth (isAwaitKill k) (pending w) n t Hn) as Hl.
    pose proof (nth_error_In _ _ Hn) as Hin.
    pose proof (mgr_resume cfg t (set_pending (dropNth n (pending w)) w)) as H.
    destruct t as [k' h o|k' q|k' o|ps]; mgr_fields H;
      cbn [pending set_pending killers procs] in Hpd;
      rewrite Hpd, ?filter_app, ?length_app; cbn [isAwaitKill] in Hl.
    + subst d. unfold spawnsOf at 2. cbn [filter length isAwaitKill].
      pose proof (cfg_waiting cfg w HC k' h o Hin) as Ecmd.
      destruct (HookKind_eqb k' k) eqn:B.
      * apply HookKind_eqb_eq in B. subst k'. rewrite Ecmd in Hw |- *.
        cbn [length hookOcc count_occ] in *. lia.
      * destruct (command cfg k); cbn [length hookOcc count_occ] in *; lia.
    + rewrite (spawnsOf_noSpawn k d Hd).
      destruct (command cfg k); cbn [length hookOcc count_occ] in *; lia.
    + rewrite (spawnsOf_noSpawn k d Hd).
      destruct (HookKind_eqb k' k) eqn:B.
      * apply HookKind_eqb_eq in B. subst k'.
        destruct (command cfg k); cbn [filter isAwaitKill length];
          rewrite ?HookKind_eqb_refl, ?hookOcc_cons, ?HookKind_eqb_refl;
          cbn [length hookOcc count_occ] in *; lia.
      * destruct (command cfg k'), (command cfg k);
          cbn [filter isAwaitKill length];
          rewrite ?B, ?hookOcc_cons, ?B;
          cbn [length hookOcc count_occ] in *; lia.
    + rewrite (spawnsOf_noSpawn k d Hd).
      destruct (command cfg k); cbn [length hookOcc count_occ] in *; lia.
Qed.

(** X8.  In every run the spawns of a hook's command and its restarts
    still waiting for their kill add up to the triggers of the hook: each
    trigger of a hook that has a command leads to exactly one spawn, once
    its kill has settled, and nothing else spawns.  For a hook without a
    command nothing is spawned and nothing waits. *)
Theorem every_trigger_spawns_once (k : HookKind) (es : list Event) (w : World) :
  exec cfg ipc listens initial es = Some w ->
  spawnsOf k (journal w) + length (filter (isAwaitKill k) (pending w))
  = match command cfg k with
    | Some _ => hookOcc k (hooks (journal w))
    | None => 0
    end.
Proof.
  assert (G : forall es v v',
             exec cfg ipc listens v es = Some v' ->
             Configured cfg v ->
             spawnsOf k (journal v) + length (filter (isAwaitKill k) (pending v))
             = match command cfg k with
               | Some _ => hookOcc k (hooks (journal v))
               | None => 0
               end ->
             spawnsOf k (journal v') + length (filter (isAwaitKill k) (pending v'))
             = match command cfg k with
               | Some _ => hookOcc k (hooks (journal v'))
               | None => 0
               end).
  { clear es w. induction es as [|e es IH]; intros v v' Hexec HC Hv.
    - injection Hexec as <-. exact Hv.
    - cbn [exec] in Hexec.
      destruct (step cfg ipc listens v e) as [v1|] eqn:Hstep; [|discriminate].
      apply (IH v1 v' Hexec (Configured_step cfg ipc listens v v1 e Hstep HC)).
      exact (balance_step k v v1 e Hstep HC Hv). }
  intros Hexec. apply (G es initial w Hexec (Configured_initial cfg)).
  destruct (command cfg k); reflexivity.
Qed.

End MoreAccounting.

(** ** Restarts that settle *)

Section MoreRestarts.

Variable cfg : Args.
Variable ipc : bool.
Variable listens : bool.

Lemma exec_app (a b : list Event) (w : World) :
  exec cfg ipc listens w (a ++ b)
  = match exec cfg ipc listens w a with
    | Some w1 => exec cfg ipc listens w1 b
    | None => None
    end.
Proof.
  revert w. induction a as [|e a IH]; intros w; [reflexivity|].
  cbn [app exec]. destruct (step cfg ipc listens w e); [apply IH|reflexivity].
Qed.

Lemma nth_error_last {A : Type} (l : list A) (x : A) :
  nth_error (l ++ [x]) (length l) = Some x.
Proof. induction l as [|y r IH]; [reflexivity|exact IH]. Qed.

Lemma dropNth_last {A : Type} (l : list A) (x : A) :
  dropNth (length l) (l ++ [x]) = l.
Proof. induction l as [|y r IH]; [reflexivity|]. cbn. rewrite IH. reflexivity. Qed.

Lemma step_resume (w : World) (n : nat) (t : Task) :
  exited w = false -> nth_error (pending w) n = Some t -> ready t w = true ->
  step cfg ipc listens w (Resume n)
  = Some (resume cfg t (set_pending (dropNth n (pending w)) w)).
Proof. intros He Hn Hr. unfold step. rewrite He, Hn, Hr. reflexivity. Qed.

(** A restart whose kill has settled spawns the command and stores the
    new killer. *)
Lemma restart_runs_on (k : HookKind) (h : string) (o : option pid) (v : World)
  (pd : list Task) :
  exited v = false -> pending v = pd ++ [AwaitKill k h o] ->
  settled o v = true ->
  exists v',
    exec cfg ipc listens v [Resume (length pd); Resume (length pd)] = Some v'
    /\ mgr v' = (setKiller k (Some (nextPid v)) (killers v),
                 procs v ++ [Build_Invocation (nextPid v) k h],
                 S (nextPid v), pd, cleanupInstalled v, false).
Proof.
  intros He Hpd Hs.
  set (v1 := resume cfg (AwaitKill k h o)
               (set_pending (dropNth (length pd) (pending v)) v)).
  assert (S1 : step cfg ipc listens v (Resume (length pd)) = Some v1).
  { apply step_resume; [exact He| rewrite Hpd; apply nth_error_last | exact Hs]. }
  assert (P1 : pending v1 = pd ++ [AwaitRestart k (nextPid v)]).
  { unfold v1. cbn. rewrite Hpd, dropNth_last. reflexivity. }
  set (v2 := resume cfg (AwaitRestart k (nextPid v))
               (set_pending (dropNth (length pd) (pending v1)) v1)).
  assert (S2 : step cfg ipc listens v1 (Resume (length pd)) = Some v2).
  { apply step_resume; [exact He| rewrite P1; apply nth_error_last | reflexivity]. }
  exists v2. cbn [exec]. rewrite S1, S2. split; [reflexivity|].
  unfold mgr, v2. cbn [resume killers procs nextPid pending cleanupInstalled
                        exited set_killers set_pending].
  rewrite P1, dropNth_last. unfold v1. cbn. rewrite He. reflexivity.
Qed.

Lemma isAlive_after_exit (p : pid) (w : World) :
  isAlive p
    (set_procs (filter (fun i => negb (Nat.eqb (inv_pid i) p)) (procs w)) w)
  = false.
Proof.
  unfold isAlive. cbn [procs set_procs].
  induction (procs w) as [|i r IH]; [reflexivity|].
  cbn [filter]. destruct (Nat.eqb (inv_pid i) p) eqn:E; cbn [negb existsb];
    rewrite ?E; exact IH.
Qed.

Lemma filter_not_alive (p : pid) (ps : list Invocation) :
  existsb (fun i => Nat.eqb (inv_pid i) p) ps = false ->
  filter (fun i => negb (Nat.eqb (inv_pid i) p)) ps = ps.
Proof.
  induction ps as [|i r IH]; [reflexivity|]. cbn [existsb filter]. intros H.
  apply orb_false_elim in H as [Hi Hr]. rewrite Hi, (IH Hr). reflexivity.
Qed.

(** The invocation a killer stands for exits, where it is alive. *)
Lemma exits_settle (o : option pid) (w v : World) :
  exited v = false -> procs v = procs w ->
  exists v',
    exec cfg ipc listens v (exitsOf o w) = Some v'
    /\ settled o v' = true
    /\ procs v' = reap o (procs w)
    /\ (killers v', nextPid v', pending v', cleanupInstalled v', exited v')
       = (killers v, nextPid v, pending v, cleanupInstalled v, exited v)
    /\ journal v' = journal v
    /\ view v' = view v.
Proof.
  intros He Hp. unfold exitsOf, reap, settled.
  destruct o as [p|]; [|exists v; repeat split; exact Hp].
  assert (Ealive : isAlive p v = isAlive p w) by (unfold isAlive; rewrite Hp; reflexivity).
  destruct (isAlive p w) eqn:Ea.
  - cbn [exec]. unfold step. rewrite He, Ealive.
    eexists. split; [reflexivity|].
    rewrite isAlive_after_exit. cbn [procs set_procs]. rewrite Hp.
    repeat split; try reflexivity.
    cbn [killers nextPid pending cleanupInstalled exited set_procs].
    rewrite He. reflexivity.
  - exists v. cbn [exec]. rewrite Ealive. unfold isAlive in Ea.
    rewrite (filter_not_alive p (procs w) Ea). repeat split. exact Hp.
Qed.

(** An automatic restart, from its trigger to the stored killer. *)
Lemma automatic_restart (k : HookKind) (h : string) (w : World) :
  exited w = false -> command cfg k = Some h ->
  exists w',
    exec cfg ipc listens (runOn cfg k w)
      (exitsOf (slotOf k w) w
         ++ [Resume (length (pending w)); Resume (length (pending w))])
    = Some w'
    /\ mgr w' = (setKiller k (Some (nextPid w)) (killers w),
                 reap (slotOf k w) (procs w)
                   ++ [Build_Invocation (nextPid w) k h],
                 S (nextPid w), pending w, cleanupInstalled w, false).
Proof.
  intros He Hcmd. pose proof (mgr_runOn cfg k w) as H.
  unfold restarts in H. cbn [flat_map] in H. rewrite Hcmd, app_nil_r in H.
  mgr_fields H. rewrite He in Hex.
  destruct (exits_settle (slotOf k w) w (runOn cfg k w) Hex Hps)
    as (v & Ev & Sv & Pv & Fv & _ & _).
  injection Fv as Fk Fn Fpd Fci Fex.
  rewrite Hks in Fk. rewrite Hnp in Fn. rewrite Hpd in Fpd.
  rewrite Hci in Fci. rewrite Hex in Fex.
  destruct (restart_runs_on k h (slotOf k w) v (pending w) Fex Fpd Sv)
    as (w' & Ew & Mw).
  exists w'. rewrite exec_app, Ev. split; [exact Ew|].
  rewrite Mw, Fk, Fn, Pv, Fci. reflexivity.
Qed.

(** A manual retrigger, from the message to the stored killer. *)
Lemma manual_restart (msg : string) (k : HookKind) (h : string) (w : World) :
  listens = true -> exited w = false ->
  hookOfMessage msg = Some k -> command cfg k = Some h ->
  exists w',
    exec cfg ipc listens w
      (Message msg
         :: exitsOf (slotOf k w) w
         ++ [Resume (length (pending w)); Resume (length (pending w));
             Resume (length (pending w))])
    = Some w'
    /\ mgr w' = (setKiller k (Some (nextPid w)) (killers w),
                 reap (slotOf k w) (procs w)
                   ++ [Build_Invocation (nextPid w) k h],
                 S (nextPid w), pending w, cleanupInstalled w, false).
Proof.
  intros Hl He Hmsg Hcmd.
  assert (S0 : step cfg ipc listens w (Message msg) = Some (onMessage msg w)).
  { unfold step, when. rewrite He, Hl. reflexivity. }
  cbn [exec]. rewrite S0.
  pose proof (mgr_onMessage msg w) as H. rewrite Hmsg in H.
  mgr_fields H. rewrite He in Hex.
  destruct (exits_settle (slotOf k w) w (onMessage msg w) Hex Hps)
    as (v & Ev & Sv & Pv & Fv & _ & _).
  injection Fv as Fk Fn Fpd Fci Fex.
  rewrite Hks in Fk. rewrite Hnp in Fn. rewrite Hpd in Fpd.
  rewrite Hci in Fci. rewrite Hex in Fex.
  clear Hks Hps Hnp Hpd Hci Hex.
  rewrite exec_app, Ev.
  change [Resume (length (pending w)); Resume (length (pending w));
          Resume (length (pending w))]
    with ([Resume (length (pending w))]
            ++ [Resume (length (pending w)); Resume (length (pending w))]).
  rewrite exec_app. cbn [exec].
  set (v1 := resume cfg (ThenRun k (slotOf k w))
               (set_pending (dropNth (length (pending w)) (pending v)) v)).
  assert (S1 : step cfg ipc listens v (Resume (length (pending w))) = Some v1).
  { apply step_resume; [exact Fex| rewrite Fpd; apply nth_error_last | exact Sv]. }
  rewrite S1.
  pose proof (mgr_resume cfg (ThenRun k (slotOf k w))
                (set_pending (dropNth (length (pending w)) (pending v)) v)) as H.
  fold v1 in H. unfold addRestart, mgr in H.
  cbn [killers procs nextPid pending cleanupInstalled exited set_pending] in H.
  rewrite Hcmd, Fpd, dropNth_last, Fk in H.
  fold (mgr v1) in H. mgr_fields H.
  assert (Sv1 : settled (slotOf k w) v1 = true).
  { unfold settled in Sv |- *. destruct (slotOf k w) as [p|]; [|reflexivity].
    unfold isAlive in Sv |- *. rewrite Hps. exact Sv. }
  rewrite Fex in Hex.
  destruct (restart_runs_on k h (slotOf k w) v1 (pending w) Hex Hpd Sv1)
    as (w' & Ew & Mw).
  exists w'. split; [exact Ew|].
  rewrite Mw, Hks, Hps, Hnp, Hci, Fn, Pv, Fci. reflexivity.
Qed.

(** X9.  A restart of a hook, once the invocation held by the hook's
    variable has exited, ends with a fresh invocation of the hook's command
    alive and held by that variable; the other variables, the other
    processes and the other suspended computations are as before. *)
Theorem restart_settles (k : HookKind) (h : string) (w : World) :
  exited w = false -> command cfg k = Some h ->
  exists w',
    exec cfg ipc listens (runOn cfg k w)
      (exitsOf (slotOf k w) w
         ++ [Resume (length (pending w)); Resume (length (pending w))])
    = Some w'
    /\ slotOf k w' = Some (nextPid w)
    /\ (forall k', k' <> k -> slotOf k' w' = slotOf k' w)
    /\ procs w'
       = reap (slotOf k w) (procs w) ++ [Build_Invocation (nextPid w) k h]
    /\ pending w' = pending w.
Proof.
  intros He Hcmd.
  destruct (automatic_restart k h w He Hcmd) as (w' & Ew & Mw).
  exists w'. split; [exact Ew|]. mgr_fields Mw.
  split; [unfold slotOf; rewrite Hks; apply getKiller_setKiller_same|].
  split.
  { intros k' Hne. unfold slotOf. rewrite Hks.
    apply getKiller_setKiller_other.
    destruct (HookKind_eqb k k') eqn:E; [|reflexivity].
    apply HookKind_eqb_eq in E. congruence. }
  split; [exact Hps|exact Hpd].
Qed.

(** X10.  A manual retrigger of a hook has the effect of an automatic
    restart: started in the same world, both end with the same killer
    variables, the same processes alive and the same computations
    suspended. *)
Theorem manual_retrigger_is_a_restart (msg : string) (k : HookKind)
  (h : string) (w : World) :
  listens = true -> exited w = false ->
  hookOfMessage msg = Some k -> command cfg k = Some h ->
  exists automatic manual,
    exec cfg ipc listens (runOn cfg k w)
      (exitsOf (slotOf k w) w
         ++ [Resume (length (pending w)); Resume (length (pending w))])
    = Some automatic
    /\ exec cfg ipc listens w
         (Message msg
            :: exitsOf (slotOf k w) w
            ++ [Resume (length (pending w)); Resume (length (pending w));
                Resume (length (pending w))])
       = Some manual
    /\ mgr manual = mgr automatic.
Proof.
  intros Hl He Hmsg Hcmd.
  destruct (automatic_restart k h w He Hcmd) as (wa & Ea & Ma).
  destruct (manual_restart msg k h w Hl He Hmsg Hcmd) as (wm & Em & Mm).
  exists wa, wm. split; [exact Ea|]. split; [exact Em|].
  rewrite Ma, Mm. reflexivity.
Qed.

End MoreRestarts.

(** ** Shutdown, continued *)

Section MoreShutdown.

Variable cfg : Args.
Variable ipc : bool.
Variable listens : bool.

(** X11.  [killProcesses] does nothing but ask, in the order of the
    variables, the invocation held by each non-empty killer variable to
    terminate, leaving out the first-success one unless [killAll] is set; it
    clears no variable and touches no flag. *)
Theorem killProcesses_only_asks (killAll : bool) (w : World) :
  killProcesses killAll w
  = set_journal
      (journal w
         ++ flat_map killReqs
              ((if killAll then [firstSuccessKiller (killers w)] else [])
                 ++ [successKiller (killers w); failureKiller (killers w);
                     compilationStartedKiller (killers w);
                     compilationCompleteKiller (killers w)]))
      w.
Proof.
  destruct w as [ft fl [a b c d e] ps np pd ch j ci ex].
  destruct killAll, a, b, c, d, e;
    cbv [killProcesses kill callKiller record skip set_journal promisesOf
         fold_left killers journal firstSuccessKiller successKiller
         failureKiller compilationStartedKiller compilationCompleteKiller
         firstTime compilationErrorSinceStart procs nextPid pending channel
         cleanupInstalled exited flat_map killReqs];
    cbn [app]; rewrite <- ?app_assoc, ?app_nil_r; reflexivity.
Qed.

Lemma step_signal (w : World) (signal : string) :
  exited w = false -> cleanupInstalled w = true ->
  step cfg ipc listens w (Signalled signal)
  = Some (cleanupHandler (Some signal) w).
Proof. intros He Hc. unfold step. rewrite He, Hc. reflexivity. Qed.

Lemma settledAll_same_procs (promises : list (option pid)) (v w : World) :
  procs v = procs w -> settledAll promises v = settledAll promises w.
Proof.
  intros H. unfold settledAll, settled, isAlive. rewrite H. reflexivity.
Qed.

(** X12.  After a signal the script exits as soon as, and only when, the
    invocations held by the five killer variables are gone: at once when
    the variables are empty or their invocations have already exited, with
    nothing but the two terminations requested, the handler uninstalled
    and the exit in the journal; and not while one of them is alive. *)
Theorem exit_waits_for_held_invocations (w : World) (signal : string) :
  exited w = false -> cleanupInstalled w = true ->
  let run := [Signalled signal; Resume (length (pending w))] in
  (settledAll (promisesOf true (killers w)) w = true ->
   exists w',
     exec cfg ipc listens w run = Some w'
     /\ exited w' = true
     /\ procs w' = procs w
     /\ journal w'
        = journal w
            ++ KillTsc (Some signal)
            :: flat_map killReqs (promisesOf true (killers w))
            ++ [Uninstall; ProcessExit])
  /\ (settledAll (promisesOf true (killers w)) w = false ->
      exec cfg ipc listens w run = None).
Proof.
  intros He Hc run. subst run. cbn [exec].
  rewrite (step_signal w signal He Hc).
  pose proof (mgr_cleanupHandler (Some signal) w) as H.
  pose proof (f_equal (fun m => snd (fst (fst (fst (fst m))))) H) as Hps.
  pose proof (f_equal (fun m => snd (fst (fst m))) H) as Hpd.
  pose proof (f_equal (fun m => snd m) H) as Hex.
  cbv beta in Hps, Hpd, Hex. unfold mgr in Hps, Hpd, Hex.
  cbn [fst snd] in Hps, Hpd, Hex. clear H. rewrite He in Hex.
  unfold step. rewrite Hex, Hpd, nth_error_last. cbn [ready].
  rewrite (settledAll_same_procs _ _ w Hps).
  split; intros Hs; rewrite Hs; [|reflexivity].
  eexists. split; [reflexivity|]. cbn [resume].
  unfold process_exit, andThen, record.
  cbn [exited procs journal set_exited set_journal set_pending].
  split; [reflexivity|]. split; [exact Hps|].
  rewrite journal_cleanupHandler, <- !app_assoc. cbn [app].
  rewrite <- app_assoc. reflexivity.
Qed.

Lemma Fresh_initial : Fresh initial.
Proof.
  split; cbn.
  - intros i [].
  - intros k p. destruct k; discriminate.
  - intros k p [].
Qed.

Lemma Fresh_step (w w' : World) (e : Event) :
  step cfg ipc listens w e = Some w' -> Fresh w -> Fresh w'.
Proof.
  intros Hstep [F1 F2 F3].
  destruct (step_cases cfg ipc listens w w' e Hstep) as [_ Hcase].
  assert (Hgrow : forall v extra,
             killers v = killers w -> procs v = procs w ->
             nextPid v = nextPid w -> pending v = pending w ++ extra ->
             (forall k p, ~ In (AwaitRestart k p) extra) ->
             Fresh v).
  { intros v extra Hk Hp Hn Hpd Hx. split.
    - rewrite Hp, Hn. exact F1.
    - unfold slotOf. rewrite Hk, Hn. exact F2.
    - intros k p Hin. rewrite Hpd in Hin. rewrite Hn.
      apply in_app_or in Hin as [Hin|Hin]; [exact (F3 k p Hin)|].
      exfalso. exact (Hx k p Hin). }
  destruct e as [state|msg|signal|p|n].
  - subst w'. pose proof (mgr_onState cfg ipc state w) as H. mgr_fields H.
    apply (Hgrow _ _ Hks Hps Hnp Hpd).
    intros k p Hin. destruct (in_restarts cfg w _ _ Hin) as (k' & h & E & _).
    discriminate E.
  - subst w'. unfold when. destruct listens; [|split; assumption].
    pose proof (mgr_onMessage msg w) as H. mgr_fields H.
    apply (Hgrow _ _ Hks Hps Hnp Hpd).
    intros k p Hin. destruct (hookOfMessage msg); [|destruct Hin].
    destruct Hin as [E|[]]. discriminate E.
  - subst w'. destruct (cleanupInstalled w); [|split; assumption].
    pose proof (mgr_cleanupHandler (Some signal) w) as H. mgr_fields H.
    apply (Hgrow _ _ Hks Hps Hnp Hpd).
    intros k p [E|[]]. discriminate E.
  - destruct Hcase as [_ ->]. split; cbn [procs nextPid pending set_procs].
    + intros i Hi. apply filter_In in Hi as [Hi _]. exact (F1 i Hi).
    + exact F2.
    + exact F3.
  - destruct Hcase as (t & Hn & _ & ->).
    set (w1 := set_pending (dropNth n (pending w)) w).
    pose proof (nth_error_In _ _ Hn) as Hin.
    pose proof (mgr_resume cfg t w1) as H.
    destruct t as [k h o|k p|k o|ps]; mgr_fields H;
      cbn [killers procs nextPid pending set_pending w1] in Hks, Hps, Hnp, Hpd.
    + split.
      * rewrite Hps, Hnp. intros i Hi.
        apply in_app_or in Hi as [Hi|[<-|[]]]; [|cbn; lia].
        specialize (F1 i Hi). lia.
      * intros k' p'. unfold slotOf. rewrite Hks, Hnp. intros E.
        specialize (F2 k' p' E). lia.
      * rewrite Hpd, Hnp. intros k' p' Hi.
        apply in_app_or in Hi as [Hi|[Hi|[]]].
        -- specialize (F3 k' p' (In_dropNth _ _ _ Hi)). lia.
        -- injection Hi as _ <-. lia.
    + split.
      * rewrite Hps, Hnp. exact F1.
      * intros k' p'. unfold slotOf. rewrite Hks, Hnp.
        destruct (HookKind_eqb k k') eqn:E.
        -- apply HookKind_eqb_eq in E. subst k'.
           rewrite getKiller_setKiller_same. intros Ep. injection Ep as <-.
           exact (F3 k p Hin).
        -- rewrite (getKiller_setKiller_other k' k _ _ E). exact (F2 k' p').
      * rewrite Hpd, Hnp. intros k' p' Hi.
        exact (F3 k' p' (In_dropNth _ _ _ Hi)).
    + split.
      * rewrite Hps, Hnp. exact F1.
      * unfold slotOf. rewrite Hks, Hnp. exact F2.
      * rewrite Hpd, Hnp. intros k' p' Hi.
        apply in_app_or in Hi as [Hi|Hi];
          [exact (F3 k' p' (In_dropNth _ _ _ Hi))|].
        destruct (command cfg k); [|destruct Hi].
        destruct Hi as [E|[]]. discriminate E.
    + split.
      * rewrite Hps, Hnp. exact F1.
      * unfold slotOf. rewrite Hks, Hnp. exact F2.
      * rewrite Hpd, Hnp. intros k' p' Hi.
        exact (F3 k' p' (In_dropNth _ _ _ Hi)).
Qed.

Lemma Fresh_exec (es : list Event) (w w' : World) :
  exec cfg ipc listens w es = Some w' -> Fresh w -> Fresh w'.
Proof.
  revert w. induction es as [|e es IH]; intros w Hexec HF.
  - injection Hexec as <-. exact HF.
  - cbn [exec] in Hexec.
    destruct (step cfg ipc listens w e) as [w1|] eqn:Hstep; [|discriminate].
    exact (IH w1 Hexec (Fresh_step w w1 e Hstep HF)).
Qed.

Lemma dropNth_app {A : Type} (n : nat) (l r : list A) :
  n < length l -> dropNth n (l ++ r) = dropNth n l ++ r.
Proof.
  revert n. induction l as [|x l IH]; intros n H; [cbn in H; lia|].
  destruct n as [|m]; [reflexivity|]. cbn in H |- *.
  rewrite IH; [reflexivity|lia].
Qed.

Lemma length_dropNth {A : Type} (n : nat) (l : list A) :
  n < length l -> length (dropNth n l) = length l - 1.
Proof.
  revert n. induction l as [|x l IH]; intros n H; [cbn in H; lia|].
  destruct n as [|m]; cbn in H |- *; [lia|].
  rewrite IH; [|lia]. destruct l; cbn in *; lia.
Qed.

Lemma held_promise (ks : Killers) (o : option pid) :
  In o (promisesOf true ks) -> exists k, getKiller k ks = o.
Proof.
  cbn. intros [H|[H|[H|[H|[H|[]]]]]].
  - exists FirstSuccess. exact H.
  - exists Success. exact H.
  - exists Failure. exact H.
  - exists CompilationStarted. exact H.
  - exists CompilationComplete. exact H.
Qed.

Lemma existsb_filter_weaken {A : Type} (f g : A -> bool) (l : list A) :
  existsb f l = false -> existsb f (filter g l) = false.
Proof.
  induction l as [|x l IH]; [reflexivity|]. cbn [existsb filter]. intros H.
  apply orb_false_elim in H as [Hx Hl].
  destruct (g x); cbn [existsb]; rewrite ?Hx; exact (IH Hl).
Qed.

(** X13.  The cleanup handler does not cancel a restart that is in
    flight.  When a signal arrives while a restart waits for the invocation
    [p] to exit, and [p] is the only invocation still alive that a killer
    variable holds, then once [p] exits the restart spawns its command and
    the script exits: the new invocation is alive when the script is
    gone. *)
Theorem restart_in_flight_outlives_shutdown (es : list Event) (w : World)
  (n : nat) (k : HookKind) (h : string) (p : pid) (signal : string) :
  exec cfg ipc listens initial es = Some w ->
  exited w = false -> cleanupInstalled w = true ->
  nth_error (pending w) n = Some (AwaitKill k h (Some p)) ->
  isAlive p w = true ->
  forallb (goneOr p w) (promisesOf true (killers w)) = true ->
  exists w',
    exec cfg ipc listens w
      [Signalled signal; ProcExit p; Resume n; Resume (length (pending w) - 1)]
    = Some w'
    /\ exited w' = true
    /\ In (Build_Invocation (nextPid w) k h) (procs w').
Proof.
  intros Hreach He Hc Hn Halive Hheld.
  pose proof (Fresh_exec es initial w Hreach Fresh_initial) as HF.
  assert (Hlt : n < length (pending w)).
  { apply nth_error_Some. rewrite Hn. discriminate. }
  set (promises := promisesOf true (killers w)) in *.
  (* the signal *)
  set (w1 := cleanupHandler (Some signal) w).
  pose proof (mgr_cleanupHandler (Some signal) w) as H. fold w1 in H.
  mgr_fields H. rewrite He in Hex. fold promises in Hpd.
  (* the invocation exits *)
  set (w2 := set_procs (filter (fun i => negb (Nat.eqb (inv_pid i) p)) (procs w1))
               w1).
  assert (S2 : step cfg ipc listens w1 (ProcExit p) = Some w2).
  { assert (A1 : isAlive p w1 = true)
      by (unfold isAlive in Halive |- *; rewrite Hps; exact Halive).
    unfold step. rewrite Hex, A1. reflexivity. }
  (* the restart runs on *)
  set (w3 := resume cfg (AwaitKill k h (Some p))
               (set_pending (dropNth n (pending w2)) w2)).
  assert (S3 : step cfg ipc listens w2 (Resume n) = Some w3).
  { apply step_resume.
    - exact Hex.
    - replace (pending w2) with (pending w1) by reflexivity.
      rewrite Hpd, nth_error_app1; assumption.
    - cbn [ready settled]. unfold w2. rewrite isAlive_after_exit. reflexivity. }
  assert (P3 : pending w3
               = (dropNth n (pending w) ++ [ThenExit promises])
                   ++ [AwaitRestart k (nextPid w)]).
  { replace (pending w3)
      with (dropNth n (pending w1) ++ [AwaitRestart k (nextPid w1)])
      by reflexivity.
    rewrite Hpd, Hnp, (dropNth_app n _ _ Hlt). reflexivity. }
  assert (Q3 : procs w3
               = filter (fun i => negb (Nat.eqb (inv_pid i) p)) (procs w)
                   ++ [Build_Invocation (nextPid w) k h]).
  { replace (procs w3)
      with (filter (fun i => negb (Nat.eqb (inv_pid i) p)) (procs w1)
              ++ [Build_Invocation (nextPid w1) k h])
      by reflexivity.
    rewrite Hps, Hnp. reflexivity. }
  (* the exit *)
  set (w4 := resume cfg (ThenExit promises)
               (set_pending (dropNth (length (pending w) - 1) (pending w3)) w3)).
  assert (S4 : step cfg ipc listens w3 (Resume (length (pending w) - 1))
               = Some w4).
  { apply step_resume.
    - replace (exited w3) with (exited w1) by reflexivity. exact Hex.
    - rewrite P3, <- (length_dropNth n (pending w) Hlt), nth_error_app1.
      + apply nth_error_last.
      + rewrite length_app. cbn. lia.
    - cbn [ready]. unfold settledAll. apply forallb_forall. intros o Ho.
      pose proof (proj1 (forallb_forall _ _) Hheld o Ho) as Hg.
      destruct o as [q|]; [|reflexivity].
      cbn [settled]. apply negb_true_iff. unfold isAlive.
      rewrite Q3, existsb_app. cbn [existsb inv_pid].
      destruct (held_promise (killers w) (Some q) Ho) as [k' Hk'].
      pose proof (fresh_held w HF k' q Hk') as Hq.
      assert (Hnew : Nat.eqb (nextPid w) q = false)
        by (apply Nat.eqb_neq; lia).
      rewrite Hnew, orb_false_r.
      unfold goneOr in Hg. apply orb_true_iff in Hg as [Hg|Hg].
      + cbn [settled] in Hg. apply negb_true_iff in Hg.
        apply existsb_filter_weaken. exact Hg.
      + apply Nat.eqb_eq in Hg. subst q.
        pose proof (isAlive_after_exit p w) as Hgone. unfold isAlive in Hgone.
        exact Hgone. }
  exists w4. cbn [exec]. rewrite (step_signal w signal He Hc). fold w1.
  rewrite S2, S3, S4. split; [reflexivity|]. split.
  - reflexivity.
  - replace (procs w4) with (procs w3) by reflexivity. rewrite Q3.
    apply in_or_app. right. left. reflexivity.
Qed.

End MoreShutdown.

(** ** Running without a parent *)

Section MoreChannel.

Variable cfg : Args.
Variable listens : bool.

Lemma mirrors_skip : Mirrors skip skip.
Proof. intros w. reflexivity. Qed.

Lemma mirrors_andThen (a b c d : Act) :
  Mirrors a b -> Mirrors c d -> Mirrors (a ;; c) (b ;; d).
Proof. intros Ha Hc w. unfold andThen. rewrite Hc, Ha. reflexivity. Qed.

Lemma mirrors_when (t : bool) (a b : Act) :
  Mirrors a b -> Mirrors (when t a) (when t b).
Proof. intros H. destruct t; [exact H|exact mirrors_skip]. Qed.

Lemma mirrors_record (e : Effect) : Mirrors (record e) (record e).
Proof. intros w. reflexivity. Qed.

Lemma mirrors_suspend (t : Task) : Mirrors (suspend t) (suspend t).
Proof. intros w. reflexivity. Qed.

Lemma mirrors_send (payload : string) :
  Mirrors (Signal.send true payload) (Signal.send false payload).
Proof. intros w. reflexivity. Qed.

Lemma mirrors_kill (killer : option pid) :
  Mirrors (kill killer) (kill killer).
Proof. intros w. destruct killer; reflexivity. Qed.

Lemma mirrors_restart (k : HookKind) (killer : option pid) (h : string) :
  Mirrors (restart k killer h) (restart k killer h).
Proof.
  unfold restart. apply mirrors_andThen;
    [apply mirrors_kill|apply mirrors_suspend].
Qed.

Lemma mirrors_runOn (k : HookKind) : Mirrors (runOn cfg k) (runOn cfg k).
Proof.
  intros w. unfold runOn, andThen. destruct (command cfg k) as [h|].
  - exact (mirrors_restart k _ h (record (RunHook k) w)).
  - reflexivity.
Qed.

Lemma mirrors_if_flag (a b c d : Act) :
  Mirrors a b -> Mirrors c d ->
  Mirrors (fun w => if compilationErrorSinceStart w then a w else c w)
    (fun w => if compilationErrorSinceStart w then b w else d w).
Proof.
  intros Ha Hc w.
  change (compilationErrorSinceStart (withoutChannel w))
    with (compilationErrorSinceStart w).
  destruct (compilationErrorSinceStart w); [apply Ha|apply Hc].
Qed.

Lemma mirrors_if_firstTime (a b : Act) :
  Mirrors a b ->
  Mirrors (fun w => if firstTime w then a w else w)
    (fun w => if firstTime w then b w else w).
Proof.
  intros Ha w.
  change (firstTime (withoutChannel w)) with (firstTime w).
  destruct (firstTime w); [apply Ha|reflexivity].
Qed.

Lemma mirrors_onState (state : DetectedState) :
  Mirrors (onState cfg true state) (onState cfg false state).
Proof.
  unfold onState, runOnCompilationStarted, runOnCompilationComplete,
    runOnFailureCommand, runOnFirstSuccessCommand, runOnSuccessCommand,
    Signal.emitFile, Signal.emitStarted, Signal.emitFail,
    Signal.emitFirstSuccess, Signal.emitSuccess.
  apply mirrors_andThen; [intros w; reflexivity|].
  apply mirrors_andThen;
    [destruct (fileEmitted state); [apply mirrors_send|apply mirrors_skip]|].
  apply mirrors_andThen.
  - apply mirrors_when.
    apply mirrors_andThen; [apply mirrors_runOn|apply mirrors_send].
  - apply mirrors_when. apply mirrors_andThen; [apply mirrors_runOn|].
    apply mirrors_if_flag.
    + apply mirrors_andThen; [apply mirrors_send|apply mirrors_runOn].
    + apply mirrors_andThen.
      * apply mirrors_if_firstTime.
        apply mirrors_andThen; [intros w; reflexivity|].
        apply mirrors_andThen; [apply mirrors_send|apply mirrors_runOn].
      * apply mirrors_andThen; [apply mirrors_send|apply mirrors_runOn].
Qed.

Lemma mirrors_onMessage (msg : string) :
  Mirrors (onMessage msg) (onMessage msg).
Proof.
  intros w. unfold onMessage. destruct (hookOfMessage msg) as [k|].
  - change (killers (withoutChannel w)) with (killers w).
    destruct (getKiller k (killers w)); reflexivity.
  - reflexivity.
Qed.

Lemma mirrors_killProcesses (killAll : bool) :
  Mirrors (killProcesses killAll) (killProcesses killAll).
Proof.
  intros w. unfold killProcesses.
  change (killers (withoutChannel w)) with (killers w).
  generalize (promisesOf killAll (killers w)) as l. intros l. revert w.
  induction l as [|o l IH]; intros w; [reflexivity|].
  cbn [fold_left]. rewrite IH, (mirrors_kill o w). reflexivity.
Qed.

Lemma mirrors_cleanupHandler (signal : option string) :
  Mirrors (cleanupHandler signal) (cleanupHandler signal).
Proof.
  unfold cleanupHandler.
  apply mirrors_andThen; [apply mirrors_record|].
  apply mirrors_andThen.
  - intros w. unfold andThen.
    change (killers (withoutChannel w)) with (killers w).
    rewrite <- mirrors_killProcesses. reflexivity.
  - apply mirrors_andThen; [apply mirrors_record|]. intros w. reflexivity.
Qed.

Lemma mirrors_resume (t : Task) : Mirrors (resume cfg t) (resume cfg t).
Proof.
  destruct t as [k h o|k p|k o|ps]; cbn [resume].
  - intros w. reflexivity.
  - intros w. reflexivity.
  - apply mirrors_runOn.
  - intros w. reflexivity.
Qed.

Lemma mirrors_step (w : World) (e : Event) :
  step cfg false listens (withoutChannel w) e
  = option_map withoutChannel (step cfg true listens w e).
Proof.
  unfold step.
  change (exited (withoutChannel w)) with (exited w).
  destruct (exited w); [reflexivity|].
  destruct e as [state|msg|signal|p|n].
  - cbn [option_map]. rewrite mirrors_onState. reflexivity.
  - cbn [option_map]. rewrite (mirrors_when listens _ _ (mirrors_onMessage msg)).
    reflexivity.
  - change (cleanupInstalled (withoutChannel w)) with (cleanupInstalled w).
    destruct (cleanupInstalled w); cbn [option_map];
      [rewrite mirrors_cleanupHandler|]; reflexivity.
  - change (isAlive p (withoutChannel w)) with (isAlive p w).
    destruct (isAlive p w); reflexivity.
  - change (pending (withoutChannel w)) with (pending w).
    destruct (nth_error (pending w) n) as [t|]; [|reflexivity].
    assert (R : ready t (withoutChannel w) = ready t w)
      by (destruct t; reflexivity).
    rewrite R. destruct (ready t w); [|reflexivity].
    cbn [option_map]. rewrite mirrors_resume. reflexivity.
Qed.

(** X14.  The channel to the parent is only written to.  Whether or not
    the script was started with one, the same runs are possible and they
    end in the same world, channel apart: the same flags, killer
    variables, processes, suspended computations and journal.  Without a
    channel nothing is ever sent. *)
Theorem parent_channel_is_write_only (es : list Event) :
  exec cfg false listens initial es
  = option_map withoutChannel (exec cfg true listens initial es).
Proof.
  change initial with (withoutChannel initial) at 1.
  generalize initial as w. intros w. revert w.
  induction es as [|e es IH]; intros w; [reflexivity|].
  cbn [exec]. rewrite mirrors_step.
  destruct (step cfg true listens w e) as [w'|]; cbn [option_map];
    [apply IH|reflexivity].
Qed.

End MoreChannel.

(** ** The further properties on the sample runs *)

Lemma restartInFlight_possible :
  exec serverArgs true true initial restartInFlight
  = Some (worldAfter serverArgs restartInFlight).
Proof. vm_compute. reflexivity. Qed.

Lemma restartInFlight_waits :
  exited (worldAfter serverArgs restartInFlight) = false
  /\ cleanupInstalled (worldAfter serverArgs restartInFlight) = true
  /\ nth_error (pending (worldAfter serverArgs restartInFlight)) 0
     = Some (AwaitKill Success "node dist/server.js" (Some 0))
  /\ isAlive 0 (worldAfter serverArgs restartInFlight) = true
  /\ forallb (goneOr 0 (worldAfter serverArgs restartInFlight))
       (promisesOf true (killers (worldAfter serverArgs restartInFlight)))
     = true.
Proof. vm_compute. repeat split; reflexivity. Qed.

Lemma firstRun_server_is_up :
  settledAll (promisesOf true (killers (worldAfter serverArgs firstRun)))
    (worldAfter serverArgs firstRun)
  = false.
Proof. vm_compute. reflexivity. Qed.

Lemma banners_are_unmarked : forallb unmarked [bannerLine; bannerLine] = true.
Proof. vm_compute. reflexivity. Qed.

(** X1 on two banner lines read after the first compilation. *)
Lemma unmarked_lines_change_nothing_witness :
  processLines serverArgs true (worldAfter serverArgs firstRun)
    [bannerLine; bannerLine]
  = worldAfter serverArgs firstRun.
Proof.
  exact (unmarked_lines_change_nothing serverArgs true [bannerLine; bannerLine]
           (worldAfter serverArgs firstRun) banners_are_unmarked).
Defined.

(** X4 on the signal that follows the first compilation. *)
Lemma only_lines_reach_the_tracker_witness :
  firstTime (worldAfter serverArgs (firstRun ++ [Signalled "SIGINT"]))
  = firstTime (worldAfter serverArgs firstRun)
  /\ compilationErrorSinceStart
       (worldAfter serverArgs (firstRun ++ [Signalled "SIGINT"]))
     = compilationErrorSinceStart (worldAfter serverArgs firstRun)
  /\ events (journal (worldAfter serverArgs (firstRun ++ [Signalled "SIGINT"])))
     = events (journal (worldAfter serverArgs firstRun))
  /\ channel (worldAfter serverArgs (firstRun ++ [Signalled "SIGINT"]))
     = channel (worldAfter serverArgs firstRun).
Proof.
  apply (only_lines_reach_the_tracker serverArgs true true
           (worldAfter serverArgs firstRun)
           (worldAfter serverArgs (firstRun ++ [Signalled "SIGINT"]))
           (Signalled "SIGINT") firstRun_then_signal).
  intros state H. discriminate H.
Defined.

(** X7 on the rapid recompilations. *)
Lemma only_configured_commands_run_witness :
  (forall i, In i (procs (worldAfter serverArgs rapidRuns)) ->
             command serverArgs (inv_kind i) = Some (inv_cmd i))
  /\ (forall k, command serverArgs k = None ->
                aliveOf k (worldAfter serverArgs rapidRuns) = []
                /\ slotOf k (worldAfter serverArgs rapidRuns) = None).
Proof.
  exact (only_configured_commands_run serverArgs true true rapidRuns
           (worldAfter serverArgs rapidRuns) rapidRuns_possible).
Defined.

(** X8 on the rapid recompilations. *)
Lemma every_trigger_spawns_once_witness :
  spawnsOf Success (journal (worldAfter serverArgs rapidRuns))
  + length (filter (isAwaitKill Success)
              (pending (worldAfter serverArgs rapidRuns)))
  = match command serverArgs Success with
    | Some _ => hookOcc Success (hooks (journal (worldAfter serverArgs rapidRuns)))
    | None => 0
    end.
Proof.
  exact (every_trigger_spawns_once serverArgs true true Success rapidRuns
           (worldAfter serverArgs rapidRuns) rapidRuns_possible).
Defined.

(** X9 on a restart of the server that the first compilation brought up. *)
Lemma restart_settles_witness :
  exists w',
    exec serverArgs true true
      (runOn serverArgs Success (worldAfter serverArgs firstRun))
      (exitsOf (slotOf Success (worldAfter serverArgs firstRun))
         (worldAfter serverArgs firstRun)
         ++ [Resume (length (pending (worldAfter serverArgs firstRun)));
             Resume (length (pending (worldAfter serverArgs firstRun)))])
    = Some w'
    /\ slotOf Success w' = Some (nextPid (worldAfter serverArgs firstRun))
    /\ (forall k', k' <> Success ->
                   slotOf k' w' = slotOf k' (worldAfter serverArgs firstRun))
    /\ procs w'
       = reap (slotOf Success (worldAfter serverArgs firstRun))
           (procs (worldAfter serverArgs firstRun))
           ++ [Build_Invocation (nextPid (worldAfter serverArgs firstRun))
                 Success "node dist/server.js"]
    /\ pending w' = pending (worldAfter serverArgs firstRun).
Proof.
  exact (restart_settles serverArgs true true Success "node dist/server.js"
           (worldAfter serverArgs firstRun) (proj1 firstRun_running) eq_refl).
Defined.

(** X10 on a manual retrigger of that server. *)
Lemma manual_retrigger_is_a_restart_witness :
  exists automatic manual,
    exec serverArgs true true
      (runOn serverArgs Success (worldAfter serverArgs firstRun))
      (exitsOf (slotOf Success (worldAfter serverArgs firstRun))
         (worldAfter serverArgs firstRun)
         ++ [Resume (length (pending (worldAfter serverArgs firstRun)));
             Resume (length (pending (worldAfter serverArgs firstRun)))])
    = Some automatic
    /\ exec serverArgs true true (worldAfter serverArgs firstRun)
         (Message "run-on-success-command"
            :: exitsOf (slotOf Success (worldAfter serverArgs firstRun))
                 (worldAfter serverArgs firstRun)
            ++ [Resume (length (pending (worldAfter serverArgs firstRun)));
                Resume (length (pending (worldAfter serverArgs firstRun)));
                Resume (length (pending (worldAfter serverArgs firstRun)))])
       = Some manual
    /\ mgr manual = mgr automatic.
Proof.
  exact (manual_retrigger_is_a_restart serverArgs true true
           "run-on-success-command" Success "node dist/server.js"
           (worldAfter serverArgs firstRun) eq_refl (proj1 firstRun_running)
           eq_refl eq_refl).
Defined.

(** X12 on a signal before any compilation, when nothing is held, and on a
    signal while the server is up. *)
Lemma exit_waits_for_held_invocations_witness :
  (exists w',
     exec serverArgs true true initial
       [Signalled "SIGINT"; Resume (length (pending initial))]
     = Some w'
     /\ exited w' = true
     /\ procs w' = procs initial
     /\ journal w'
        = journal initial
            ++ KillTsc (Some "SIGINT")
            :: flat_map killReqs (promisesOf true (killers initial))
            ++ [Uninstall; ProcessExit])
  /\ exec serverArgs true true (worldAfter serverArgs firstRun)
       [Signalled "SIGINT";
        Resume (length (pending (worldAfter serverArgs firstRun)))]
     = None.
Proof.
  split.
  - exact (proj1 (exit_waits_for_held_invocations serverArgs true true initial
                    "SIGINT" eq_refl eq_refl) eq_refl).
  - exact (proj2 (exit_waits_for_held_invocations serverArgs true true
                    (worldAfter serverArgs firstRun) "SIGINT"
                    (proj1 firstRun_running) (proj2 firstRun_running))
             firstRun_server_is_up).
Defined.

(** X13 on a signal that arrives while the second restart of the server
    waits for the first server to exit. *)
Lemma restart_in_flight_outlives_shutdown_witness :
  exists w',
    exec serverArgs true true (worldAfter serverArgs restartInFlight)
      [Signalled "SIGTERM"; ProcExit 0; Resume 0;
       Resume (length (pending (worldAfter serverArgs restartInFlight)) - 1)]
    = Some w'
    /\ exited w' = true
    /\ In (Build_Invocation (nextPid (worldAfter serverArgs restartInFlight))
             Success "node dist/server.js")
         (procs w').
Proof.
  destruct restartInFlight_waits as (He & Hc & Hn & Ha & Hg).
  exact (restart_in_flight_outlives_shutdown serverArgs true true
           restartInFlight (worldAfter serverArgs restartInFlight)
           0 Success "node dist/server.js" 0 "SIGTERM"
           restartInFlight_possible He Hc Hn Ha Hg).
Defined.
